(** * Vote casting and tally consistency of the Crusade election platform

    A shallow embedding of the SQL migrations (tables, constraints,
    row-level policies, triggers and stored procedures) and of the
    [useVoting] hook that calls them, followed by the properties of the
    vote-casting protocol.

    Tables are lists of rows; every statement is a function on the database
    that either returns the new database or raises a PostgreSQL error, in
    which case the enclosing transaction leaves the database as it was.
    Timestamps and the descriptive columns (title, colour, ...) play no
    part in the protocol and are left out of the rows.

    SQL is modelled with its own semantics where the procedures depend on
    it: booleans have three values, [integer] arithmetic raises out of
    range, a [uuid] is read in several spellings and printed in one, and an
    unqualified column name in a subquery belongs to the innermost table
    that has it.  Random draws ([gen_random_uuid()]) are arguments.

    Callers are the sessions PostgREST serves under row-level security: the
    anonymous key and signed-in users.  A [roles] claim, when present, is a
    JSON array, and a distribution is a JSON object, as the clients send
    them. *)

From stdpp Require Import gmap strings list fin_maps.
From Stdlib Require Import ZArith Lia Ascii String.

Local Open Scope string_scope.
Local Open Scope list_scope.

(** ** PostgreSQL errors and the error monad *)

Inductive pg_error : Type :=
  | unique_violation (constraint : string)
  | foreign_key_violation (constraint : string)
  | row_security_violation (table : string)
  | numeric_value_out_of_range
  | invalid_text_representation
  | raised (errcode message : string).

(** The five-character SQLSTATE a client sees in [error.code]. *)
Definition sqlstate (e : pg_error) : string :=
  match e with
  | unique_violation _ => "23505"
  | foreign_key_violation _ => "23503"
  | row_security_violation _ => "42501"
  | numeric_value_out_of_range => "22003"
  | invalid_text_representation => "22P02"
  | raised c _ => c
  end.

Inductive result (A : Type) : Type :=
  | Ok (a : A)
  | Err (e : pg_error).
Arguments Ok {A} a.
Arguments Err {A} e.

#[global] Instance result_ret : MRet result := fun A a => Ok a.

#[global] Instance result_bind : MBind result := fun A B k r =>
  match r with
  | Ok a => k a
  | Err e => Err e
  end.

#[global] Instance result_fmap : FMap result := fun A B f r =>
  match r with
  | Ok a => Ok (f a)
  | Err e => Err e
  end.

(** The errors the procedures raise themselves, under the names the
    interface gives them. *)
Definition AlreadyVoted : pg_error :=
  raised "23505" "Ya existe un voto para este usuario en esta elección".

Definition InvalidList : pg_error :=
  raised "23503" "Lista de candidatos no válida para esta elección".

Definition Unauthorized : pg_error := raised "42501" "Solo administradores".

Definition is_ok {A : Type} (r : result A) : bool :=
  match r with Ok _ => true | Err _ => false end.

(** ** SQL values: three-valued booleans, [integer], [uuid], [jsonb] *)

(** A SQL boolean is true, false or NULL. *)
Definition sql_bool : Type := option bool.

Definition sql_not (b : sql_bool) : sql_bool := negb <$> b.

Definition sql_or (a b : sql_bool) : sql_bool :=
  match a, b with
  | Some true, _ | _, Some true => Some true
  | Some false, Some false => Some false
  | _, _ => None
  end.

(** A condition ([IF], [USING], [WITH CHECK]) holds only when it is true;
    false and NULL both count as not holding. *)
Definition holds (b : sql_bool) : bool :=
  match b with Some true => true | _ => false end.

(** [x = ANY (arr)] over an array whose elements may be NULL. *)
Definition eq_any (x : string) (arr : list (option string)) : sql_bool :=
  if existsb (fun y => bool_decide (y = Some x)) arr then Some true
  else if existsb (fun y => bool_decide (y = None)) arr then None
  else Some false.

Definition coalesce {A : Type} (x : option A) (d : A) : A :=
  match x with Some a => a | None => d end.

(** [array_agg] over no rows is NULL. *)
Definition array_agg {A : Type} (rows : list A) : option (list A) :=
  match rows with [] => None | _ => Some rows end.

(** The type [integer]: arithmetic that leaves the 32-bit range raises
    instead of wrapping. *)
Definition int4_min : Z := (- 2147483648)%Z.
Definition int4_max : Z := 2147483647%Z.

Definition in_int4 (z : Z) : bool :=
  ((int4_min <=? z) && (z <=? int4_max))%Z.

Definition int4_add (a b : Z) : result Z :=
  if in_int4 (a + b) then Ok (a + b)%Z else Err numeric_value_out_of_range.

(** A [uuid] is kept in its output form: 32 lower-case hexadecimal digits
    grouped 8-4-4-4-12. *)
Abbreviation uuid := string.

Definition is_xdigit (a : ascii) : bool :=
  let n := nat_of_ascii a in
  ((48 <=? n) && (n <=? 57) || (65 <=? n) && (n <=? 70)
   || (97 <=? n) && (n <=? 102))%nat.

Definition to_lower (a : ascii) : ascii :=
  let n := nat_of_ascii a in
  if ((65 <=? n) && (n <=? 90))%nat then ascii_of_nat (n + 32) else a.

(** The cast [text::uuid]: sixteen bytes, each two hexadecimal digits in
    either case; a hyphen is skipped after every second byte; the whole may
    be wrapped in braces.  [i] is the index of the next byte. *)
Fixpoint uuid_bytes (n : nat) (i : nat) (src : list ascii)
  : option (list ascii * list ascii) :=
  match n with
  | O => Some ([], src)
  | S n' =>
    match src with
    | c1 :: c2 :: rest =>
      if is_xdigit c1 && is_xdigit c2 then
        let rest' :=
          match rest with
          | "-"%char :: r =>
            if (Nat.odd i && (i <? 15))%nat then r else rest
          | _ => rest
          end in
        match uuid_bytes n' (S i) rest' with
        | Some (ds, tl) => Some (to_lower c1 :: to_lower c2 :: ds, tl)
        | None => None
        end
      else None
    | _ => None
    end
  end.

Definition string_of_chars (l : list ascii) : string :=
  fold_right String EmptyString l.

Fixpoint chars_of_string (s : string) : list ascii :=
  match s with
  | EmptyString => []
  | String a s' => a :: chars_of_string s'
  end.

(** The output form of 32 digits. *)
Definition uuid_out (ds : list ascii) : uuid :=
  string_of_chars
    (take 8 ds ++ "-"%char :: take 4 (drop 8 ds) ++ "-"%char ::
     take 4 (drop 12 ds) ++ "-"%char :: take 4 (drop 16 ds) ++ "-"%char ::
     drop 20 ds).

Definition uuid_in (s : string) : option uuid :=
  let src := chars_of_string s in
  let '(braces, src) :=
    match src with
    | "{"%char :: r => (true, r)
    | _ => (false, src)
    end in
  match uuid_bytes 16 0 src with
  | Some (ds, tl) =>
    let tl' :=
      if braces then
        match tl with "}"%char :: r => Some r | _ => None end
      else Some tl in
    match tl' with
    | Some [] => Some (uuid_out ds)
    | _ => None
    end
  | None => None
  end.

(** [replace(s, '-', '')]. *)
Fixpoint remove_hyphens (s : string) : string :=
  match s with
  | EmptyString => EmptyString
  | String a s' =>
    if bool_decide (a = "-"%char) then remove_hyphens s'
    else String a (remove_hyphens s')
  end.

(** A value of a [jsonb] object, seen through [jsonb_each_text] and [->>]:
    JSON null becomes SQL NULL, [JInt z] is any value whose text is the
    integer literal [z] (the number 5, the string "5"), and [JNotInt] is any
    value whose text is not an integer literal. *)
Inductive jvalue : Type :=
  | JNull
  | JInt (z : Z)
  | JNotInt.

(** The cast [(value)::int] of the text of a member. *)
Definition cast_int (v : option jvalue) : result (option Z) :=
  match v with
  | None | Some JNull => Ok None
  | Some (JInt z) =>
    if in_int4 z then Ok (Some z) else Err numeric_value_out_of_range
  | Some JNotInt => Err invalid_text_representation
  end.

(** ** Session claims and role checks *)

(** The caller's token as the database sees it: [auth.role()], [auth.uid()]
    (the [sub] claim, absent for the anonymous key) and the two [roles]
    claims read by [jwt_roles].  A [roles] claim is either absent or a JSON
    array; its members reach SQL as text, a JSON null member as NULL. *)
Record jwt : Type := {
  role : string;
  sub : option uuid;
  app_metadata_roles : option (list (option string));
  user_metadata_roles : option (list (option string))
}.

Definition auth_role (j : jwt) : string := role j.
Definition auth_uid (j : jwt) : option uuid := sub j.

Definition jsonb_array_elements_text (a : list (option string))
  : list (option string) := a.

Definition jwt_roles (j : jwt) : list (option string) :=
  let r1 :=
    coalesce
      (array_agg (jsonb_array_elements_text (coalesce (app_metadata_roles j) [])))
      [] in
  let r2 :=
    coalesce
      (array_agg (jsonb_array_elements_text (coalesce (user_metadata_roles j) [])))
      [] in
  coalesce (Some r1) [] ++ coalesce (Some r2) [].

Definition is_admin (j : jwt) : sql_bool := eq_any "administrator" (jwt_roles j).

Definition is_committee (j : jwt) : sql_bool :=
  eq_any "electoral_committee" (jwt_roles j).

(** ** Tables *)

Inductive election_status : Type :=
  | draft | scheduled | campaign | voting_open | paused | voting_closed
  | results_published.

#[global] Instance election_status_eq_dec : EqDecision election_status.
Proof. solve_decision. Defined.

Record election : Type := {
  e_id : uuid;
  status : election_status;
  total_votes : Z
}.

Record candidate_list : Type := {
  cl_id : uuid;
  cl_election_id : uuid;
  votes_count : Z
}.

Record vote : Type := {
  v_id : uuid;
  v_election_id : uuid;
  candidate_list_id : uuid;
  user_id : uuid;
  receipt_hash : string
}.

(** [users] is the key column of [auth.users], which [votes.user_id]
    references; nothing in the repository writes to it. *)
Record db : Type := {
  elections : list election;
  candidate_lists : list candidate_list;
  votes : list vote;
  users : list uuid
}.

Definition set_total_votes (n : Z) (e : election) : election :=
  {| e_id := e_id e; status := status e; total_votes := n |}.

Definition set_status (st : election_status) (e : election) : election :=
  {| e_id := e_id e; status := st; total_votes := total_votes e |}.

Definition set_votes_count (n : Z) (cl : candidate_list) : candidate_list :=
  {| cl_id := cl_id cl; cl_election_id := cl_election_id cl; votes_count := n |}.

Definition set_receipt_hash (r : string) (v : vote) : vote :=
  {| v_id := v_id v; v_election_id := v_election_id v;
     candidate_list_id := candidate_list_id v; user_id := user_id v;
     receipt_hash := r |}.

Definition with_elections (es : list election) (s : db) : db :=
  {| elections := es; candidate_lists := candidate_lists s;
     votes := votes s; users := users s |}.

Definition with_candidate_lists (cls : list candidate_list) (s : db) : db :=
  {| elections := elections s; candidate_lists := cls;
     votes := votes s; users := users s |}.

Definition with_votes (vs : list vote) (s : db) : db :=
  {| elections := elections s; candidate_lists := candidate_lists s;
     votes := vs; users := users s |}.

(** ** Row-level policies *)

Definition elections_select (j : jwt) : sql_bool :=
  Some (bool_decide (auth_role j = "authenticated")).

Definition elections_write (j : jwt) : sql_bool := is_admin j.

Definition candidate_lists_select (j : jwt) : sql_bool :=
  Some (bool_decide (auth_role j = "authenticated")).

Definition candidate_lists_write (j : jwt) : sql_bool := is_admin j.

(** Rows a query of the caller reads: permissive policies are OR-ed. *)
Definition visible_elections (j : jwt) (s : db) : list election :=
  filter (fun _ => holds (sql_or (elections_select j) (elections_write j)))
    (elections s).

Definition visible_candidate_lists (j : jwt) (s : db) : list candidate_list :=
  filter
    (fun _ => holds (sql_or (candidate_lists_select j) (candidate_lists_write j)))
    (candidate_lists s).

Definition votes_select (j : jwt) (v : vote) : sql_bool :=
  sql_or
    (sql_or ((fun u => bool_decide (user_id v = u)) <$> auth_uid j) (is_admin j))
    (is_committee j).

Definition visible_votes (j : jwt) (s : db) : list vote :=
  filter (fun v => holds (votes_select j v)) (votes s).

(** The [WITH CHECK] of [votes_insert] on the proposed row.  In the second
    subquery the unqualified [election_id] is the column of [candidate_lists]
    itself, the innermost table that has a column of that name, so the
    comparison [cl.election_id = election_id] is of the list's election with
    itself; [candidate_list_id], which [candidate_lists] does not have, is
    the column of the proposed row. *)
Definition votes_insert (j : jwt) (s : db) (new : vote) : bool :=
  match auth_uid j with
  | None => false
  | Some u =>
    bool_decide (user_id new = u)
    && existsb
         (fun e => bool_decide (e_id e = v_election_id new)
                   && bool_decide (status e = voting_open))
         (visible_elections j s)
    && existsb
         (fun cl => bool_decide (cl_id cl = candidate_list_id new)
                    && bool_decide (cl_election_id cl = cl_election_id cl))
         (visible_candidate_lists j s)
  end.

(** [votes] has no policy for UPDATE or DELETE: no row qualifies. *)
Definition votes_update (j : jwt) (v : vote) : bool := false.
Definition votes_delete (j : jwt) (v : vote) : bool := false.

(** ** Receipts, the insert trigger and [cast_vote] *)

(** [make_receipt()]: the value drawn by [gen_random_uuid()] is an argument. *)
Definition make_receipt (gen_random_uuid : uuid) : string :=
  remove_hyphens gen_random_uuid.

(** [votes_after_insert], run for the row [new] after it is in the table.
    It is SECURITY DEFINER: its statements are not filtered by policies. *)
Definition votes_after_insert (new : vote) (gen_random_uuid : uuid) (s : db)
  : result db :=
  s1 ←
    (if bool_decide (String.length (receipt_hash new) = 0%nat) then
       let r := make_receipt gen_random_uuid in
       if existsb
            (fun v => negb (bool_decide (v_id v = v_id new))
                      && bool_decide (receipt_hash v = r))
            (votes s)
       then Err (unique_violation "votes_receipt_hash_idx")
       else
         Ok (with_votes
               ((fun v => if bool_decide (v_id v = v_id new)
                          then set_receipt_hash r v else v) <$> votes s) s)
     else Ok s);
  es ← mapM
         (fun e => if bool_decide (e_id e = v_election_id new)
                   then n ← int4_add (total_votes e) 1; Ok (set_total_votes n e)
                   else Ok e)
         (elections s1);
  cls ← mapM
          (fun cl => if bool_decide (cl_id cl = candidate_list_id new)
                     then n ← int4_add (votes_count cl) 1;
                          Ok (set_votes_count n cl)
                     else Ok cl)
          (candidate_lists s1);
  Ok (with_candidate_lists cls (with_elections es s1)).

(** [INSERT INTO votes]: policy check, unique indexes, then the row
    triggers in the order of their names: the foreign keys, in the order the
    table declares them, before [trg_votes_after_insert].  With [returning],
    the new row must also pass the SELECT policy. *)
Definition insert_vote (j : jwt) (returning : bool) (new : vote)
    (gen_random_uuid : uuid) (s : db) : result (vote * db) :=
  if negb (votes_insert j s new
           && (negb returning || holds (votes_select j new))) then
    Err (row_security_violation "votes")
  else if existsb (fun v => bool_decide (v_id v = v_id new)) (votes s) then
    Err (unique_violation "votes_pkey")
  else if existsb
            (fun v => bool_decide (user_id v = user_id new)
                      && bool_decide (v_election_id v = v_election_id new))
            (votes s) then
    Err (unique_violation "one_vote_per_user_per_election")
  else if existsb (fun v => bool_decide (receipt_hash v = receipt_hash new))
            (votes s) then
    Err (unique_violation "votes_receipt_hash_idx")
  else if negb (existsb (fun e => bool_decide (e_id e = v_election_id new))
                  (elections s)) then
    Err (foreign_key_violation "votes_election_id_fkey")
  else if negb (existsb (fun u => bool_decide (u = user_id new)) (users s)) then
    Err (foreign_key_violation "votes_user_id_fkey")
  else if negb (existsb
                  (fun cl => bool_decide (cl_id cl = candidate_list_id new)
                             && bool_decide (cl_election_id cl = v_election_id new))
                  (candidate_lists s)) then
    Err (foreign_key_violation "votes_candidate_list_matches_election")
  else
    s' ← votes_after_insert new gen_random_uuid (with_votes (votes s ++ [new]) s);
    Ok (new, s').

(** The random values one call of [cast_vote] draws: the default of the
    [id] column, the receipt, and the receipt the trigger would draw. *)
Record entropy : Type := {
  id_uuid : uuid;
  receipt_uuid : uuid;
  trigger_uuid : uuid
}.

(** [cast_vote(p_election, p_list)], SECURITY INVOKER.  A row without a
    caller id is turned down by the policy before any constraint is looked
    at, so the row built below always carries one. *)
Definition cast_vote (j : jwt) (p_election p_list : uuid) (rnd : entropy)
    (s : db) : result (vote * db) :=
  match auth_uid j with
  | None => Err (row_security_violation "votes")
  | Some u =>
    let new := {| v_id := id_uuid rnd; v_election_id := p_election;
                  candidate_list_id := p_list; user_id := u;
                  receipt_hash := make_receipt (receipt_uuid rnd) |} in
    match insert_vote j true new (trigger_uuid rnd) s with
    | Ok v => Ok v
    | Err (unique_violation _) =>
      Err AlreadyVoted
    | Err (foreign_key_violation _) =>
      Err InvalidList
    | Err e => Err e
    end
  end.

(** ** Administrative bulk-tally procedures *)

(** The rows of [jsonb_each_text]: one per member of the object.  The rows
    come in the order of the map, not in the order jsonb stores the keys;
    the statements below hold whatever the order. *)
Definition jsonb_each_text (d : gmap string jvalue) : list (string * jvalue) :=
  map_to_list d.

(** One turn of the validation loop of [admin_apply_simulation]: the row
    [(key)::uuid, (value)::int] is computed, the list is looked up, and the
    running total grows. *)
Definition simulation_row (s : db) (p_election_id : uuid) (v_total : Z)
    (row : string * jvalue) : result Z :=
  match uuid_in row.1 with
  | None => Err invalid_text_representation
  | Some v_list_id =>
    v_votes ← cast_int (Some row.2);
    if negb (existsb
               (fun cl => bool_decide (cl_id cl = v_list_id)
                          && bool_decide (cl_election_id cl = p_election_id))
               (candidate_lists s))
    then Err (raised "23503"
                ("Lista " +:+ v_list_id +:+ " no corresponde a elección"))
    else int4_add v_total (coalesce v_votes 0%Z)
  end.

Fixpoint simulation_loop (s : db) (p_election_id : uuid) (v_total : Z)
    (rows : list (string * jvalue)) : result Z :=
  match rows with
  | [] => Ok v_total
  | row :: rows' =>
    v_total' ← simulation_row s p_election_id v_total row;
    simulation_loop s p_election_id v_total' rows'
  end.

(** [admin_apply_simulation(p_election_id, p_distribution)], SECURITY
    DEFINER.  The member of a list is looked up under the text of its id. *)
Definition admin_apply_simulation (j : jwt) (p_election_id : uuid)
    (p_distribution : gmap string jvalue) (s : db) : result db :=
  if holds (sql_not (is_admin j)) then
    Err Unauthorized
  else if negb (existsb (fun e => bool_decide (e_id e = p_election_id))
                  (elections s)) then
    Err (raised "22023" "Elección no encontrada")
  else
    v_total ← simulation_loop s p_election_id 0 (jsonb_each_text p_distribution);
    cls ← mapM
            (fun cl =>
               if bool_decide (cl_election_id cl = p_election_id) then
                 n ← cast_int (p_distribution !! cl_id cl);
                 m ← int4_add (votes_count cl) (coalesce n 0%Z);
                 Ok (set_votes_count m cl)
               else Ok cl)
            (candidate_lists s);
    es ← mapM
           (fun e =>
              if bool_decide (e_id e = p_election_id) then
                n ← int4_add (total_votes e) v_total; Ok (set_total_votes n e)
              else Ok e)
           (elections s);
    Ok (with_elections es (with_candidate_lists cls s)).

(** [admin_reset_election_votes(p_election_id)], SECURITY DEFINER. *)
Definition admin_reset_election_votes (j : jwt) (p_election_id : uuid)
    (s : db) : result db :=
  if holds (sql_not (is_admin j)) then
    Err Unauthorized
  else
    let vs := filter (fun v => v_election_id v <> p_election_id) (votes s) in
    let cls :=
      (fun cl => if bool_decide (cl_election_id cl = p_election_id)
                 then set_votes_count 0 cl else cl) <$> candidate_lists s in
    let es :=
      (fun e => if bool_decide (e_id e = p_election_id)
                then set_total_votes 0 e else e) <$> elections s in
    Ok {| elections := es; candidate_lists := cls; votes := vs;
          users := users s |}.

(** ** Statements the client issues on the tables themselves *)

(** [UPDATE votes SET ... WHERE cond] and [DELETE FROM votes WHERE cond]:
    only rows the policy lets through are touched. *)
Definition update_votes (j : jwt) (cond : vote -> bool) (set : vote -> vote)
    (s : db) : result db :=
  Ok (with_votes
        ((fun v => if votes_update j v && cond v then set v else v) <$> votes s)
        s).

Definition delete_votes (j : jwt) (cond : vote -> bool) (s : db) : result db :=
  Ok (with_votes
        (filter (fun v => negb (votes_delete j v && cond v)) (votes s)) s).

(** [createElection]: INSERT INTO elections. *)
Definition insert_election (j : jwt) (new : election) (s : db) : result db :=
  if negb (holds (elections_write j)) then
    Err (row_security_violation "elections")
  else if existsb (fun e => bool_decide (e_id e = e_id new)) (elections s) then
    Err (unique_violation "elections_pkey")
  else Ok (with_elections (elections s ++ [new]) s).

(** [changeElectionStatus]: UPDATE elections SET status WHERE id. *)
Definition update_election_status (j : jwt) (id : uuid)
    (newStatus : election_status) (s : db) : result db :=
  Ok (with_elections
        ((fun e => if holds (elections_write j) && bool_decide (e_id e = id)
                   then set_status newStatus e else e) <$> elections s) s).

(** [deleteElection]: DELETE FROM elections WHERE id; the foreign keys of
    [candidate_lists] and [votes] are ON DELETE CASCADE. *)
Definition delete_election (j : jwt) (id : uuid) (s : db) : result db :=
  if holds (elections_write j)
     && existsb (fun e => bool_decide (e_id e = id)) (elections s) then
    Ok {| elections := filter (fun e => e_id e <> id) (elections s);
          candidate_lists :=
            filter (fun cl => cl_election_id cl <> id) (candidate_lists s);
          votes := filter (fun v => v_election_id v <> id) (votes s);
          users := users s |}
  else Ok s.

(** INSERT INTO candidate_lists, one row. *)
Definition insert_candidate_list (j : jwt) (new : candidate_list) (s : db)
  : result db :=
  if negb (holds (candidate_lists_write j)) then
    Err (row_security_violation "candidate_lists")
  else if existsb (fun cl => bool_decide (cl_id cl = cl_id new))
            (candidate_lists s) then
    Err (unique_violation "candidate_lists_pkey")
  else if negb (existsb (fun e => bool_decide (e_id e = cl_election_id new))
                  (elections s)) then
    Err (foreign_key_violation "candidate_lists_election_id_fkey")
  else Ok (with_candidate_lists (candidate_lists s ++ [new]) s).

(** [updateElection] replaces the lists of an election, first deleting
    them: DELETE FROM candidate_lists WHERE election_id.  The foreign key of
    [votes] on (candidate_list_id, election_id) is ON DELETE RESTRICT. *)
Definition delete_candidate_lists (j : jwt) (id : uuid) (s : db) : result db :=
  if holds (candidate_lists_write j) then
    if existsb
         (fun v =>
            existsb
              (fun cl => bool_decide (cl_election_id cl = id)
                         && bool_decide (cl_id cl = candidate_list_id v)
                         && bool_decide (cl_election_id cl = v_election_id v))
              (candidate_lists s))
         (votes s)
    then Err (foreign_key_violation "votes_candidate_list_matches_election")
    else
      Ok (with_candidate_lists
            (filter (fun cl => cl_election_id cl <> id) (candidate_lists s)) s)
  else Ok s.

(** ** Requests and runs *)

(** The calls a client makes that write to the three tables: the three
    procedures, statements on [votes] itself, and the administrator's writes
    through [useElections].  Edits of the descriptive columns are left out. *)
Inductive request : Type :=
  | CastVote (p_election p_list : uuid) (rnd : entropy)
  | InsertVote (new : vote) (gen_random_uuid : uuid)
  | UpdateVotes (cond : vote -> bool) (set : vote -> vote)
  | DeleteVotes (cond : vote -> bool)
  | ApplySimulatedDistribution (p_election_id : uuid)
      (p_distribution : gmap string jvalue)
  | ResetElectionVotes (p_election_id : uuid)
  | InsertElection (new : election)
  | ChangeElectionStatus (id : uuid) (newStatus : election_status)
  | DeleteElection (id : uuid)
  | InsertCandidateList (new : candidate_list)
  | DeleteCandidateLists (id : uuid).

Definition handle (j : jwt) (r : request) (s : db) : result db :=
  match r with
  | CastVote e l rnd => snd <$> cast_vote j e l rnd s
  | InsertVote new g => snd <$> insert_vote j false new g s
  | UpdateVotes cond set => update_votes j cond set s
  | DeleteVotes cond => delete_votes j cond s
  | ApplySimulatedDistribution e d => admin_apply_simulation j e d s
  | ResetElectionVotes e => admin_reset_election_votes j e s
  | InsertElection new => insert_election j new s
  | ChangeElectionStatus id st => update_election_status j id st s
  | DeleteElection id => delete_election j id s
  | InsertCandidateList new => insert_candidate_list j new s
  | DeleteCandidateLists id => delete_candidate_lists j id s
  end.

(** A request that raises is rolled back. *)
Definition step (s : db) (c : jwt * request) : db :=
  match handle c.1 c.2 s with
  | Ok s' => s'
  | Err _ => s
  end.

Definition run (s : db) (cs : list (jwt * request)) : db := fold_left step cs s.

Definition empty_db (us : list uuid) : db :=
  {| elections := []; candidate_lists := []; votes := []; users := us |}.

Definition reachable (s : db) : Prop :=
  exists us cs, s = run (empty_db us) cs.

(** ** The [useVoting] hook *)

(** The hook is given ids as strings and the definitions compare them as
    such.  The queries and the procedure read them as uuids, which is the
    same for an id spelled the way a uuid is printed. *)

(** What the hook shows the voter. *)
Inductive toast : Type :=
  | toast_not_available   (* 'Esta elección no está disponible para votación' *)
  | toast_already_voted   (* 'Ya has votado en esta elección' *)
  | toast_error           (* 'Error al emitir el voto' *)
  | toast_success.        (* '¡Voto registrado exitosamente!' *)

(** [.single()] fails unless the query returns exactly one row;
    [.maybeSingle()] fails when it returns more than one. *)
Definition single {A : Type} (rows : list A) : option A :=
  match rows with [a] => Some a | _ => None end.

Definition maybeSingle {A : Type} (rows : list A) : option (option A) :=
  match rows with
  | [] => Some None
  | [a] => Some (Some a)
  | _ => None
  end.

Definition checkEligibility (j : jwt) (s : db) (electionId : uuid) : bool :=
  match single (filter (fun e => e_id e = electionId)
                  (visible_elections j s)) with
  | Some e => bool_decide (status e = voting_open)
  | None => false
  end.

Definition cacheKey (electionId userId : string) : string :=
  electionId +:+ "-" +:+ userId.

Definition hasAlreadyVoted (voteCheckCache : gmap string bool) (j : jwt)
    (s : db) (electionId userId : uuid) : bool * gmap string bool :=
  match voteCheckCache !! cacheKey electionId userId with
  | Some b => (b, voteCheckCache)
  | None =>
    match maybeSingle
            (filter
               (fun v => v_election_id v = electionId /\ user_id v = userId)
               (visible_votes j s)) with
    | Some existingVote =>
      let hasVoted := bool_decide (existingVote <> None) in
      (hasVoted, <[cacheKey electionId userId := hasVoted]> voteCheckCache)
    | None => (false, voteCheckCache)
    end
  end.

(** [castVote(electionId, candidateListId, userId)]: the message shown, the
    id returned, the cache and the database afterwards. *)
Definition castVote (voteCheckCache : gmap string bool) (j : jwt) (s : db)
    (electionId candidateListId userId : uuid) (rnd : entropy)
  : toast * option uuid * gmap string bool * db :=
  if negb (checkEligibility j s electionId) then
    (toast_not_available, None, voteCheckCache, s)
  else
    let '(alreadyVoted, cache) :=
      hasAlreadyVoted voteCheckCache j s electionId userId in
    if alreadyVoted then (toast_already_voted, None, cache, s)
    else
      match cast_vote j electionId candidateListId rnd s with
      | Err error =>
        if bool_decide (sqlstate error = "23505")
        then (toast_already_voted, None, cache, s)
        else (toast_error, None, cache, s)
      | Ok (vote, s') =>
        (toast_success, Some (v_id vote),
         delete (cacheKey electionId userId) cache, s')
      end.

(** ** Predicates used in the statements *)

Definition sum_Z (l : list Z) : Z := foldr Z.add 0%Z l.

(** The sum of [votes_count] over the candidate lists of an election. *)
Definition sum_votes_count (s : db) (e : uuid) : Z :=
  sum_Z (votes_count <$>
           filter (fun cl => cl_election_id cl = e) (candidate_lists s)).

(** The ballots of an election, and of one voter in it. *)
Definition ballots_of (s : db) (e : uuid) : list vote :=
  filter (fun v => v_election_id v = e) (votes s).

Definition ballots_of_voter (s : db) (u e : uuid) : list vote :=
  filter (fun v => user_id v = u /\ v_election_id v = e) (votes s).

Definition tally_consistent (s : db) : Prop :=
  forall e, e ∈ elections s -> total_votes e = sum_votes_count s (e_id e).

Definition ballots_counted (s : db) : Prop :=
  forall e, e ∈ elections s ->
    total_votes e = Z.of_nat (List.length (ballots_of s (e_id e))).

(** The key constraints of the three tables. *)
Record keys_unique (s : db) : Prop := {
  elections_pkey : NoDup (e_id <$> elections s);
  candidate_lists_pkey : NoDup (cl_id <$> candidate_lists s);
  votes_pkey : NoDup (v_id <$> votes s);
  one_vote_per_user_per_election :
    NoDup ((fun v => (user_id v, v_election_id v)) <$> votes s);
  votes_receipt_hash_idx : NoDup (receipt_hash <$> votes s)
}.

(** A key of a distribution spelled the way [uuid::text] prints it. *)
Definition canonical (k : string) : Prop := uuid_in k = Some k.

(** The count a distribution holds for a list: absent and null count 0. *)
Definition count_of (v : option jvalue) : Z :=
  match v with
  | Some (JInt z) => z
  | _ => 0%Z
  end.

Definition is_cast_vote (r : request) : bool :=
  match r with CastVote _ _ _ => true | _ => false end.

Definition is_canonical_simulation (r : request) : Prop :=
  match r with
  | ApplySimulatedDistribution _ d =>
    forall k v, d !! k = Some v -> canonical k
  | _ => False
  end.

Definition deletes_election_ballots (r : request) : option uuid :=
  match r with
  | ResetElectionVotes e | DeleteElection e => Some e
  | _ => None
  end.

(** The effect of the counter updates, as pure functions on rows. *)
Definition bump_total (p : uuid) (n : Z) (e : election) : election :=
  if bool_decide (e_id e = p) then set_total_votes (total_votes e + n) e else e.

Definition bump_list (l : uuid) (n : Z) (cl : candidate_list) : candidate_list :=
  if bool_decide (cl_id cl = l) then set_votes_count (votes_count cl + n) cl
  else cl.

Definition bump_by_distribution (p : uuid) (d : gmap string jvalue)
    (cl : candidate_list) : candidate_list :=
  if bool_decide (cl_election_id cl = p)
  then set_votes_count (votes_count cl + count_of (d !! cl_id cl)) cl
  else cl.

(** The sum of the counts of a distribution. *)
Definition sum_counts (d : gmap string jvalue) : Z :=
  sum_Z ((fun row => count_of (Some row.2)) <$> jsonb_each_text d).

(** The row as it stands in the table once the trigger has run. *)
Definition stored_row (new : vote) (gen_random_uuid : uuid) : vote :=
  if bool_decide (String.length (receipt_hash new) = 0%nat)
  then set_receipt_hash (make_receipt gen_random_uuid) new
  else new.

(** The row [cast_vote] builds for a caller [u]. *)
Definition ballot (u p_election p_list : uuid) (rnd : entropy) : vote :=
  {| v_id := id_uuid rnd; v_election_id := p_election;
     candidate_list_id := p_list; user_id := u;
     receipt_hash := make_receipt (receipt_uuid rnd) |}.

(** ** A small database for the examples *)

Definition E1 : uuid := "00000000-0000-0000-0000-0000000000e1".
Definition E2 : uuid := "00000000-0000-0000-0000-0000000000e2".
Definition L1 : uuid := "00000000-0000-0000-0000-0000000000a1".
Definition L2 : uuid := "00000000-0000-0000-0000-0000000000a2".
Definition L3 : uuid := "00000000-0000-0000-0000-0000000000a3".
Definition U1 : uuid := "00000000-0000-0000-0000-0000000000b1".
Definition U2 : uuid := "00000000-0000-0000-0000-0000000000b2".

Definition voter (u : uuid) : jwt :=
  {| role := "authenticated"; sub := Some u;
     app_metadata_roles := None; user_metadata_roles := Some [] |}.

Definition administrator : jwt :=
  {| role := "authenticated"; sub := Some U2;
     app_metadata_roles := Some [Some "administrator"];
     user_metadata_roles := None |}.

(** A signed-in user whose own metadata carries [roles: [null]]. *)
Definition null_role_user : jwt :=
  {| role := "authenticated"; sub := Some U1;
     app_metadata_roles := None; user_metadata_roles := Some [None] |}.

(** A user who wrote the role into their own metadata. *)
Definition self_declared_admin : jwt :=
  {| role := "authenticated"; sub := Some U1;
     app_metadata_roles := None;
     user_metadata_roles := Some [Some "administrator"] |}.

Definition open_election (id : uuid) : election :=
  {| e_id := id; status := voting_open; total_votes := 0 |}.

Definition empty_list (id e : uuid) : candidate_list :=
  {| cl_id := id; cl_election_id := e; votes_count := 0 |}.

(** Two open elections; L1 and L2 stand in E1, L3 in E2. *)
Definition demo_db : db :=
  {| elections := [open_election E1; open_election E2];
     candidate_lists := [empty_list L1 E1; empty_list L2 E1; empty_list L3 E2];
     votes := [];
     users := [U1; U2] |}.

Definition entropy1 : entropy :=
  {| id_uuid := "00000000-0000-0000-0000-0000000000c1";
     receipt_uuid := "00000000-0000-0000-0000-0000000000d1";
     trigger_uuid := "00000000-0000-0000-0000-0000000000f1" |}.

Definition entropy2 : entropy :=
  {| id_uuid := "00000000-0000-0000-0000-0000000000c2";
     receipt_uuid := "00000000-0000-0000-0000-0000000000d2";
     trigger_uuid := "00000000-0000-0000-0000-0000000000f2" |}.

(** The requests by which an administrator sets [demo_db] up. *)
Definition demo_setup : list (jwt * request) :=
  [(administrator, InsertElection (open_election E1));
   (administrator, InsertElection (open_election E2));
   (administrator, InsertCandidateList (empty_list L1 E1));
   (administrator, InsertCandidateList (empty_list L2 E1));
   (administrator, InsertCandidateList (empty_list L3 E2))].

(** [demo_db] after U1 has voted for L1 in E1. *)
Definition demo_db_voted : db :=
  step demo_db (voter U1, CastVote E1 L1 entropy1).

(** [demo_db] after the administrator has paused E1. *)
Definition paused_db : db :=
  step demo_db (administrator, ChangeElectionStatus E1 paused).

(** ** Roles on the client and in the role-management function *)

(** [Array.prototype.includes] on a roles array. *)
Definition includes (x : option string) (l : list (option string)) : bool :=
  existsb (fun y => bool_decide (y = x)) l.

(** [extractUserRoles] of [useAuth].  The user object of the session carries
    the two metadata claims of the token. *)
Definition extractUserRoles (supabaseUser : jwt) : list (option string) :=
  let appRoles := coalesce (app_metadata_roles supabaseUser) [] in
  let userRoles := coalesce (user_metadata_roles supabaseUser) [] in
  let allRoles := appRoles ++ userRoles in
  if bool_decide (List.length allRoles = 0%nat)
     || (negb (includes (Some "administrator") allRoles)
         && negb (includes (Some "electoral_committee") allRoles))
  then [Some "student"]
  else allRoles.

(** [[...new Set(l)]]: the members of [l] in the order of their first
    occurrence. *)
Fixpoint set_spread (l : list (option string)) : list (option string) :=
  match l with
  | [] => []
  | x :: l' => x :: filter (fun y => y <> x) (set_spread l')
  end.

(** The body of a request to [manage-user-roles]; a missing [roles] is
    [None], a missing [userId] or [action] the empty string. *)
Record role_body : Type := {
  userId : string;
  roles : option (list (option string));
  action : string
}.

Inductive response : Type :=
  | no_authorization_header        (* 401 *)
  | invalid_token                  (* 401 *)
  | insufficient_permissions       (* 403 *)
  | missing_required_fields        (* 400 *)
  | user_not_found                 (* 404 *)
  | roles_updated (newRoles : list (option string)).   (* 200 *)

Definition http_status (r : response) : nat :=
  match r with
  | no_authorization_header | invalid_token => 401
  | insufficient_permissions => 403
  | missing_required_fields => 400
  | user_not_found => 404
  | roles_updated _ => 200
  end.

Definition set_app_metadata_roles (rs : list (option string)) (u : jwt) : jwt :=
  {| role := role u; sub := sub u; app_metadata_roles := Some rs;
     user_metadata_roles := user_metadata_roles u |}.

(** The new roles the function computes for a target. *)
Definition newRoles (action : string) (currentRoles roles : list (option string))
  : list (option string) :=
  if bool_decide (action = "set") then roles
  else if bool_decide (action = "add") then set_spread (currentRoles ++ roles)
  else if bool_decide (action = "remove") then
    filter (fun role => negb (includes role roles)) currentRoles
  else [].

(** The handler of [manage-user-roles]: [user] is what [auth.getUser] makes
    of the bearer token, [directory] the users of the identity provider by
    id; the response and the directory afterwards.  A missing header and an
    empty one are both falsy; the update of a user that was just read is
    taken to go through. *)
Definition manage_user_roles (authHeader : option string) (user : option jwt)
    (body : role_body) (directory : gmap string jwt)
  : response * gmap string jwt :=
  if bool_decide (coalesce authHeader "" = "") then
    (no_authorization_header, directory)
  else
    match user with
    | None => (invalid_token, directory)
    | Some user =>
      let currentUserRoles :=
        coalesce (app_metadata_roles user) []
        ++ coalesce (user_metadata_roles user) [] in
      if negb (includes (Some "administrator") currentUserRoles) then
        (insufficient_permissions, directory)
      else
        match roles body with
        | None => (missing_required_fields, directory)
        | Some rs =>
          if bool_decide (userId body = "") || bool_decide (action body = "")
          then (missing_required_fields, directory)
          else
            match directory !! userId body with
            | None => (user_not_found, directory)
            | Some targetUser =>
              let currentRoles := coalesce (app_metadata_roles targetUser) [] in
              let new := newRoles (action body) currentRoles rs in
              (roles_updated new,
               <[userId body := set_app_metadata_roles new targetUser]> directory)
            end
        end
    end.

(** ** RUT validation *)

Definition is_digit (a : ascii) : bool :=
  let n := nat_of_ascii a in ((48 <=? n) && (n <=? 57))%nat.

(** [parseInt(c, 10)] of a digit. *)
Definition digit_value (a : ascii) : Z := (Z.of_nat (nat_of_ascii a) - 48)%Z.

(** [toUpperCase] on the letters a to z; no other character becomes a
    digit, a 'K' or a hyphen by it. *)
Definition upper (a : ascii) : ascii :=
  let n := nat_of_ascii a in
  if ((97 <=? n) && (n <=? 122))%nat then ascii_of_nat (n - 32) else a.

Definition toUpperCase (s : string) : string :=
  string_of_chars (upper <$> chars_of_string s).

(** The test of [/^\d{7,8}-[0-9K]$/] and the two parts [split('-')] then
    yields. *)
Definition rut_format (s : list ascii) : option (list ascii * ascii) :=
  let n := (List.length s - 2)%nat in
  let body := take n s in
  match drop n s with
  | [h; dv] =>
    if bool_decide (h = "-"%char)
       && forallb is_digit body
       && ((7 <=? List.length body) && (List.length body <=? 8))%nat
       && (is_digit dv || bool_decide (dv = "K"%char))
    then Some (body, dv)
    else None
  | _ => None
  end.

(** The loop over the body from its last digit to its first. *)
Fixpoint rut_loop (digits : list ascii) (sum multiplier : Z) : Z :=
  match digits with
  | [] => sum
  | c :: rest =>
    rut_loop rest (sum + digit_value c * multiplier)
      (if bool_decide (multiplier = 7%Z) then 2 else multiplier + 1)
  end.

Definition dvCalc (sum : Z) : ascii :=
  let expected := (11 - sum mod 11)%Z in
  if bool_decide (expected = 11%Z) then "0"%char
  else if bool_decide (expected = 10%Z) then "K"%char
  else ascii_of_nat (48 + Z.to_nat expected).

Definition validateRUT (rut : string) : bool :=
  if bool_decide (rut = "") then false
  else
    match rut_format (chars_of_string (toUpperCase rut)) with
    | None => false
    | Some (body, dv) => bool_decide (dv = dvCalc (rut_loop (rev body) 0 2))
    end.

(** A RUT written from its parts. *)
Definition rut_of (body : list ascii) (dv : ascii) : string :=
  string_of_chars (body ++ ["-"%char; dv]).

(** ** Further predicates used in the statements *)

(** The foreign keys of [candidate_lists] and [votes]. *)
Record references_ok (s : db) : Prop := {
  candidate_lists_election_id_fkey :
    forall cl, cl ∈ candidate_lists s ->
      exists el, el ∈ elections s /\ e_id el = cl_election_id cl;
  votes_candidate_list_matches_election :
    forall v, v ∈ votes s ->
      exists cl, cl ∈ candidate_lists s /\ cl_id cl = candidate_list_id v
                 /\ cl_election_id cl = v_election_id v;
  votes_user_id_fkey : forall v, v ∈ votes s -> user_id v ∈ users s
}.

(** The database after a successful cast. *)
Definition after_cast (u e l : uuid) (rnd : entropy) (s : db) : db :=
  {| elections := bump_total e 1 <$> elections s;
     candidate_lists := bump_list l 1 <$> candidate_lists s;
     votes := votes s ++ [ballot u e l rnd];
     users := users s |}.

(** A digit as [uuid_out] prints it: hexadecimal, in lower case. *)
Definition is_uuid_digit (c : ascii) : Prop :=
  is_xdigit c = true /\ to_lower c = c /\ c <> "-"%char.

(** The ballots cast for a list. *)
Definition ballots_for (s : db) (l : uuid) : list vote :=
  filter (fun v => candidate_list_id v = l) (votes s).

Definition lists_counted (s : db) : Prop :=
  forall cl, cl ∈ candidate_lists s ->
    votes_count cl = Z.of_nat (List.length (ballots_for s (cl_id cl))).

(** A request that leaves the counters to the trigger: it is no simulated
    distribution, and a row it inserts starts at zero, the default of the
    column. *)
Definition counts_from_zero (r : request) : Prop :=
  match r with
  | ApplySimulatedDistribution _ _ => False
  | InsertElection new => total_votes new = 0%Z
  | InsertCandidateList new => votes_count new = 0%Z
  | _ => True
  end.

(** Keys, references and the three readings of the counters together. *)
Record counted (s : db) : Prop := {
  counted_keys : keys_unique s;
  counted_references : references_ok s;
  counted_ballots : ballots_counted s;
  counted_lists : lists_counted s;
  counted_tally : tally_consistent s
}.

(** The distribution that takes back what [d] gave. *)
Definition negate (v : jvalue) : jvalue :=
  match v with
  | JInt z => JInt (- z)
  | other => other
  end.

(** * Properties *)

(** Evaluates a closed call on the example database. *)
Ltac evaluate := vm_compute; reflexivity.

(** Closes [exists added, l = l ++ added] when no row was added. *)
Ltac nothing_added := exists []; rewrite app_nil_r; reflexivity.

(** ** Reading a uuid *)

Example uuid_in_upper_case :
  uuid_in "A0EEBC99-9C0B-4EF8-BB6D-6BB9BD380A11"
  = Some "a0eebc99-9c0b-4ef8-bb6d-6bb9bd380a11".
Proof. evaluate. Qed.

Example uuid_in_braces :
  uuid_in "{a0eebc999c0b4ef8bb6d6bb9bd380a11}"
  = Some "a0eebc99-9c0b-4ef8-bb6d-6bb9bd380a11".
Proof. evaluate. Qed.

Example uuid_in_too_short : uuid_in "a0eebc99" = None.
Proof. evaluate. Qed.

Example canonical_L1 : canonical L1.
Proof. evaluate. Qed.

Example make_receipt_strips_hyphens :
  make_receipt "a0eebc99-9c0b-4ef8-bb6d-6bb9bd380a11"
  = "a0eebc999c0b4ef8bb6d6bb9bd380a11".
Proof. evaluate. Qed.

(** ** The error monad *)

Lemma bind_Ok {A B : Type} (r : result A) (k : A -> result B) (b : B) :
  r ≫= k = Ok b <-> exists a, r = Ok a /\ k a = Ok b.
Proof.
  destruct r as [a|e]; simpl; split.
  - intros H. exists a. split; [reflexivity | exact H].
  - intros (a' & Ha & Hk). injection Ha as ->. exact Hk.
  - discriminate.
  - intros (a' & Ha & _). discriminate.
Qed.

Lemma fmap_Ok {A B : Type} (f : A -> B) (r : result A) (b : B) :
  f <$> r = Ok b <-> exists a, r = Ok a /\ b = f a.
Proof.
  destruct r as [a|e]; simpl; split.
  - intros [= <-]. eauto.
  - intros (a' & [= <-] & ->). reflexivity.
  - discriminate.
  - intros (a' & Ha & _). discriminate.
Qed.

(** A successful [mapM] whose function, when it succeeds, agrees with a pure
    function is a [map]. *)
Lemma mapM_Ok_map {A B : Type} (f : A -> result B) (g : A -> B)
    (l : list A) (l' : list B) :
  (forall a b, a ∈ l -> f a = Ok b -> b = g a) ->
  mapM f l = Ok l' -> l' = map g l.
Proof.
  revert l'. induction l as [|a l IH]; intros l' Hfg; simpl.
  - intros [= <-]. reflexivity.
  - intros H. apply bind_Ok in H as (b & Hb & H).
    apply bind_Ok in H as (bs & Hbs & [= <-]).
    rewrite (Hfg a b); [|left|exact Hb].
    f_equal. apply IH; [|exact Hbs].
    intros a' b' Hin. apply Hfg. right. exact Hin.
Qed.

Lemma int4_add_Ok (a b n : Z) : int4_add a b = Ok n -> n = (a + b)%Z.
Proof.
  unfold int4_add.
  destruct (in_int4 (a + b)); [intros [= <-]; reflexivity | discriminate].
Qed.

Lemma existsb_false_Forall {A : Type} (p : A -> bool) (l : list A) :
  existsb p l = false <-> Forall (fun a => p a = false) l.
Proof.
  induction l as [|a l IH]; simpl.
  - split; [constructor | reflexivity].
  - rewrite orb_false_iff, IH. split.
    + intros [Ha Hl]. constructor; assumption.
    + intros H. inversion H; subst. split; assumption.
Qed.

(** ** Roles *)

Lemma eq_any_true (x : string) (arr : list (option string)) :
  eq_any x arr = Some true <-> Some x ∈ arr.
Proof.
  unfold eq_any.
  destruct (existsb (fun y => bool_decide (y = Some x)) arr) eqn:Hex.
  - split; [intros _ | reflexivity].
    apply existsb_exists in Hex as (y & Hin & Hy).
    apply bool_decide_eq_true in Hy. subst y. apply list_elem_of_In. exact Hin.
  - split.
    + simpl. destruct (existsb (fun y => bool_decide (y = None)) arr);
        intros ?; discriminate.
    + intros Hin. apply list_elem_of_In in Hin.
      assert (existsb (fun y => bool_decide (y = Some x)) arr = true) as Ht.
      { apply existsb_exists. exists (Some x). split; [exact Hin|].
        apply bool_decide_eq_true. reflexivity. }
      congruence.
Qed.

Lemma jwt_roles_app (j : jwt) :
  jwt_roles j
  = (coalesce (app_metadata_roles j) [] ++ coalesce (user_metadata_roles j) [])%list.
Proof.
  unfold jwt_roles, jsonb_array_elements_text.
  destruct (app_metadata_roles j) as [[|a l]|],
           (user_metadata_roles j) as [[|b m]|]; reflexivity.
Qed.

Lemma guard_passes (j : jwt) :
  is_admin j = Some true -> holds (sql_not (is_admin j)) = false.
Proof. intros ->. reflexivity. Qed.

(** C9: [jwt_roles] is the roles array of [app_metadata] followed by the
    one of [user_metadata]; [is_admin] is true exactly when 'administrator'
    occurs in it, whichever of the two claims carries it; and a caller whose
    [user_metadata] carries the role passes the administrator guard of both
    bulk-tally procedures. *)
Theorem is_admin_iff_administrator_role (j : jwt) :
  jwt_roles j
  = (coalesce (app_metadata_roles j) [] ++ coalesce (user_metadata_roles j) [])%list
  /\ (is_admin j = Some true <-> Some "administrator" ∈ jwt_roles j)
  /\ (is_admin j = Some true <->
      Some "administrator" ∈ coalesce (app_metadata_roles j) []
      \/ Some "administrator" ∈ coalesce (user_metadata_roles j) [])
  /\ (Some "administrator" ∈ coalesce (user_metadata_roles j) [] ->
      forall j', Some "administrator" ∈ coalesce (app_metadata_roles j') [] ->
      forall e d s,
        admin_apply_simulation j e d s = admin_apply_simulation j' e d s
        /\ admin_reset_election_votes j e s = admin_reset_election_votes j' e s
        /\ is_ok (admin_reset_election_votes j e s) = true).
Proof.
  split; [apply jwt_roles_app|].
  split; [apply eq_any_true|].
  assert (forall i, is_admin i = Some true <->
            Some "administrator" ∈ coalesce (app_metadata_roles i) []
            \/ Some "administrator" ∈ coalesce (user_metadata_roles i) []) as Hiff.
  { intros i. unfold is_admin.
    rewrite eq_any_true, jwt_roles_app, elem_of_app. reflexivity. }
  split; [apply Hiff|].
  intros Hin j' Hin' e d s.
  assert (holds (sql_not (is_admin j)) = false) as Hg.
  { apply guard_passes, Hiff. right. exact Hin. }
  assert (holds (sql_not (is_admin j')) = false) as Hg'.
  { apply guard_passes, Hiff. left. exact Hin'. }
  unfold admin_reset_election_votes, admin_apply_simulation.
  rewrite Hg, Hg'. repeat split; reflexivity.
Qed.

Lemma is_admin_witness :
  Some "administrator" ∈ coalesce (user_metadata_roles self_declared_admin) []
  /\ admin_reset_election_votes self_declared_admin E1 demo_db
     = admin_reset_election_votes administrator E1 demo_db.
Proof.
  assert (Some "administrator"
          ∈ coalesce (user_metadata_roles self_declared_admin) []) as Hu.
  { simpl. apply list_elem_of_here. }
  split; [exact Hu|].
  destruct (is_admin_iff_administrator_role self_declared_admin)
    as (_ & _ & _ & H).
  assert (Some "administrator"
          ∈ coalesce (app_metadata_roles administrator) []) as Ha.
  { simpl. apply list_elem_of_here. }
  destruct (H Hu administrator Ha E1 ∅ demo_db) as (_ & Hr & _). exact Hr.
Defined.

(** ** What the statements do to the tables *)

Lemma existsb_true {A : Type} (p : A -> bool) (l : list A) :
  existsb p l = true <-> exists a, a ∈ l /\ p a = true.
Proof.
  rewrite existsb_exists. split; intros (a & Hin & Hp); exists a;
    (split; [apply list_elem_of_In; exact Hin | exact Hp]).
Qed.

Lemma existsb_false {A : Type} (p : A -> bool) (l : list A) :
  existsb p l = false <-> forall a, a ∈ l -> p a = false.
Proof.
  rewrite existsb_false_Forall, Forall_forall. reflexivity.
Qed.

Lemma mapM_bump_total (p : uuid) (n : Z) (es es' : list election) :
  mapM (fun e => if bool_decide (e_id e = p)
                 then m ← int4_add (total_votes e) n; Ok (set_total_votes m e)
                 else Ok e) es = Ok es' ->
  es' = bump_total p n <$> es.
Proof.
  apply mapM_Ok_map. intros e e' _. unfold bump_total.
  case_bool_decide as Hp; [|intros [= <-]; reflexivity].
  intros Hb. apply bind_Ok in Hb as (m & Hm & [= <-]).
  apply int4_add_Ok in Hm as ->. reflexivity.
Qed.

Lemma mapM_bump_list (l : uuid) (n : Z) (cls cls' : list candidate_list) :
  mapM (fun cl => if bool_decide (cl_id cl = l)
                  then m ← int4_add (votes_count cl) n; Ok (set_votes_count m cl)
                  else Ok cl) cls = Ok cls' ->
  cls' = bump_list l n <$> cls.
Proof.
  apply mapM_Ok_map. intros cl cl' _. unfold bump_list.
  case_bool_decide as Hp; [|intros [= <-]; reflexivity].
  intros Hb. apply bind_Ok in Hb as (m & Hm & [= <-]).
  apply int4_add_Ok in Hm as ->. reflexivity.
Qed.

(** The trigger bumps both counters by one and, for a row that came without
    a receipt, stores a fresh one that no other row holds. *)
Lemma votes_after_insert_Ok (new : vote) (g : uuid) (s s' : db) :
  votes_after_insert new g s = Ok s' ->
  elections s' = bump_total (v_election_id new) 1 <$> elections s
  /\ candidate_lists s' = bump_list (candidate_list_id new) 1 <$> candidate_lists s
  /\ users s' = users s
  /\ (if bool_decide (String.length (receipt_hash new) = 0%nat)
      then (forall v, v ∈ votes s -> v_id v <> v_id new ->
                      receipt_hash v <> make_receipt g)
           /\ votes s'
              = (fun v => if bool_decide (v_id v = v_id new)
                          then set_receipt_hash (make_receipt g) v else v)
                <$> votes s
      else votes s' = votes s).
Proof.
  unfold votes_after_insert. intros H.
  apply bind_Ok in H as (s1 & Hs1 & H).
  apply bind_Ok in H as (es & Hes & H).
  apply bind_Ok in H as (cls & Hcls & [= <-]).
  apply mapM_bump_total in Hes. apply mapM_bump_list in Hcls.
  simpl. case_bool_decide as Hlen.
  - destruct (existsb _ (votes s)) eqn:Hex; [discriminate|].
    injection Hs1 as <-. simpl in *. repeat split; try assumption.
    intros v Hv Hid Hr.
    apply existsb_false with (a := v) in Hex; [|exact Hv].
    apply andb_false_iff in Hex as [Hex|Hex].
    + apply negb_false_iff, bool_decide_eq_true in Hex. contradiction.
    + apply bool_decide_eq_false in Hex. contradiction.
  - injection Hs1 as <-. repeat split; assumption.
Qed.

(** A successful insert: the row passed the policy, none of the three unique
    indexes held its keys, and the table gained exactly the stored row. *)
Lemma insert_vote_Ok (j : jwt) (ret : bool) (new v : vote) (g : uuid)
    (s s' : db) :
  insert_vote j ret new g s = Ok (v, s') ->
  v = new
  /\ votes_insert j s new = true
  /\ (forall w, w ∈ votes s -> v_id w <> v_id new)
  /\ (forall w, w ∈ votes s ->
        ~ (user_id w = user_id new /\ v_election_id w = v_election_id new))
  /\ (forall w, w ∈ votes s -> receipt_hash w <> receipt_hash (stored_row new g))
  /\ (exists cl, cl ∈ candidate_lists s /\ cl_id cl = candidate_list_id new
                 /\ cl_election_id cl = v_election_id new)
  /\ votes s' = (votes s ++ [stored_row new g])%list
  /\ elections s' = bump_total (v_election_id new) 1 <$> elections s
  /\ candidate_lists s' = bump_list (candidate_list_id new) 1 <$> candidate_lists s
  /\ users s' = users s.
Proof.
  unfold insert_vote. intros H.
  destruct (votes_insert j s new && _) eqn:Hpol; simpl in H; [|discriminate].
  apply andb_true_iff in Hpol as [Hpol _].
  destruct (existsb _ (votes s)) eqn:Hid in H; [discriminate|].
  destruct (existsb _ (votes s)) eqn:Hpair in H; [discriminate|].
  destruct (existsb _ (votes s)) eqn:Hrec in H; [discriminate|].
  destruct (negb _) in H; [discriminate|].
  destruct (negb _) in H; [discriminate|].
  destruct (existsb _ (candidate_lists s)) eqn:Hfk in H; simpl in H;
    [|discriminate].
  apply bind_Ok in H as (s1 & Htrig & [= <- <-]).
  assert (exists cl, cl ∈ candidate_lists s /\ cl_id cl = candidate_list_id new
                     /\ cl_election_id cl = v_election_id new) as Hlist.
  { apply existsb_true in Hfk as (cl & Hcl & Hp).
    apply andb_true_iff in Hp as [Hp1 Hp2].
    apply bool_decide_eq_true in Hp1, Hp2. eauto. }
  apply votes_after_insert_Ok in Htrig as (Hes & Hcls & Hus & Hvs).
  simpl in Hes, Hcls, Hus, Hvs.
  assert (forall w, w ∈ votes s -> v_id w <> v_id new) as Hfresh.
  { intros w Hw. apply existsb_false with (a := w) in Hid; [|exact Hw].
    apply bool_decide_eq_false in Hid. exact Hid. }
  split; [reflexivity|]. split; [exact Hpol|]. split; [exact Hfresh|].
  split.
  { intros w Hw [Hu He]. apply existsb_false with (a := w) in Hpair; [|exact Hw].
    apply andb_false_iff in Hpair as [Hp|Hp];
      apply bool_decide_eq_false in Hp; contradiction. }
  unfold stored_row. case_bool_decide as Hlen.
  - destruct Hvs as [Hother Hvs]. split.
    { intros w Hw. simpl. apply Hother.
      - apply elem_of_app. left. exact Hw.
      - apply Hfresh. exact Hw. }
    split; [exact Hlist|]. split; [|auto].
    rewrite Hvs, fmap_app. simpl. rewrite bool_decide_eq_true_2 by reflexivity.
    f_equal. rewrite <- (list_fmap_id (votes s)) at 2.
    apply list_fmap_ext. intros i w Hw. simpl.
    rewrite bool_decide_eq_false_2; [reflexivity|].
    apply Hfresh. eapply list_elem_of_lookup_2. exact Hw.
  - split; [|auto].
    intros w Hw. apply existsb_false with (a := w) in Hrec; [|exact Hw].
    apply bool_decide_eq_false in Hrec. exact Hrec.
Qed.

Lemma cast_vote_Ok (j : jwt) (e l : uuid) (rnd : entropy) (v : vote)
    (s s' : db) :
  cast_vote j e l rnd s = Ok (v, s') ->
  exists u, auth_uid j = Some u
    /\ insert_vote j true (ballot u e l rnd) (trigger_uuid rnd) s = Ok (v, s').
Proof.
  unfold cast_vote. destruct (auth_uid j) as [u|]; [|discriminate].
  intros H. exists u. split; [reflexivity|].
  fold (ballot u e l rnd) in H.
  destruct (insert_vote j true (ballot u e l rnd) (trigger_uuid rnd) s)
    as [r|[]]; try discriminate.
  exact H.
Qed.

Lemma sum_Z_cons (x : Z) (l : list Z) : sum_Z (x :: l) = (x + sum_Z l)%Z.
Proof. reflexivity. Qed.

Lemma sum_Z_app (l k : list Z) : sum_Z (l ++ k) = (sum_Z l + sum_Z k)%Z.
Proof.
  induction l as [|x l IH]; [reflexivity|].
  rewrite <- app_comm_cons, !sum_Z_cons, IH. lia.
Qed.

Lemma cast_int_Ok (v : option jvalue) (n : option Z) :
  cast_int v = Ok n -> coalesce n 0%Z = count_of v.
Proof.
  destruct v as [[|z|]|]; simpl; try (intros [= <-]; reflexivity); try discriminate.
  destruct (in_int4 z); [intros [= <-]; reflexivity | discriminate].
Qed.

(** The validation loop: every key is the text of a list of the election,
    and the total is the sum of the counts. *)
Lemma simulation_loop_Ok (s : db) (e : uuid) (rows : list (string * jvalue))
    (t t' : Z) :
  simulation_loop s e t rows = Ok t' ->
  t' = (t + sum_Z ((fun row => count_of (Some row.2)) <$> rows))%Z
  /\ forall row, row ∈ rows ->
       exists u cl, uuid_in row.1 = Some u /\ cl ∈ candidate_lists s
                    /\ cl_id cl = u /\ cl_election_id cl = e.
Proof.
  revert t. induction rows as [|row rows IH]; intros t; cbn [simulation_loop].
  - intros [= <-]. split; [unfold sum_Z; simpl; lia|].
    intros row Hrow. inversion Hrow.
  - intros H. apply bind_Ok in H as (t1 & Hrow & Hloop).
    apply IH in Hloop as [-> Hrows].
    unfold simulation_row in Hrow.
    destruct (uuid_in row.1) as [u|] eqn:Hu; [|discriminate].
    apply bind_Ok in Hrow as (n & Hn & Hrow).
    destruct (existsb _ (candidate_lists s)) eqn:Hex; simpl in Hrow;
      [|discriminate].
    apply int4_add_Ok in Hrow as ->. apply cast_int_Ok in Hn as ->.
    split; [rewrite fmap_cons, sum_Z_cons; lia|].
    intros row' [->|Hin]%elem_of_cons; [|apply Hrows; exact Hin].
    apply existsb_true in Hex as (cl & Hcl & Hp).
    apply andb_true_iff in Hp as [Hid He].
    apply bool_decide_eq_true in Hid, He.
    exists u, cl. auto.
Qed.

Lemma admin_apply_simulation_Ok (j : jwt) (e : uuid) (d : gmap string jvalue)
    (s s' : db) :
  admin_apply_simulation j e d s = Ok s' ->
  holds (sql_not (is_admin j)) = false
  /\ (exists el, el ∈ elections s /\ e_id el = e)
  /\ (forall k v, d !! k = Some v ->
        exists u cl, uuid_in k = Some u /\ cl ∈ candidate_lists s
                     /\ cl_id cl = u /\ cl_election_id cl = e)
  /\ elections s' = bump_total e (sum_counts d) <$> elections s
  /\ candidate_lists s' = bump_by_distribution e d <$> candidate_lists s
  /\ votes s' = votes s
  /\ users s' = users s.
Proof.
  unfold admin_apply_simulation. intros H.
  destruct (holds (sql_not (is_admin j))); [discriminate|].
  destruct (existsb _ (elections s)) eqn:Hex; simpl in H; [|discriminate].
  apply bind_Ok in H as (t & Hloop & H).
  apply bind_Ok in H as (cls & Hcls & H).
  apply bind_Ok in H as (es & Hes & [= <-]).
  apply simulation_loop_Ok in Hloop as [-> Hrows].
  apply mapM_bump_total in Hes.
  apply (mapM_Ok_map _ (bump_by_distribution e d)) in Hcls.
  2:{ intros cl cl' _. unfold bump_by_distribution.
      case_bool_decide as Hp; [|intros [= <-]; reflexivity].
      intros Hb. apply bind_Ok in Hb as (n & Hn & Hb).
      apply bind_Ok in Hb as (m & Hm & [= <-]).
      apply int4_add_Ok in Hm as ->. apply cast_int_Ok in Hn as ->.
      reflexivity. }
  simpl. split; [reflexivity|]. split.
  { apply existsb_true in Hex as (el & Hel & Hid).
    apply bool_decide_eq_true in Hid. eauto. }
  split.
  { intros k v Hkv. apply (Hrows (k, v)).
    apply elem_of_map_to_list. exact Hkv. }
  rewrite Z.add_0_l in Hes. auto.
Qed.

Lemma admin_reset_election_votes_Ok (j : jwt) (e : uuid) (s s' : db) :
  admin_reset_election_votes j e s = Ok s' ->
  holds (sql_not (is_admin j)) = false
  /\ votes s' = filter (fun v => v_election_id v <> e) (votes s)
  /\ candidate_lists s'
     = (fun cl => if bool_decide (cl_election_id cl = e)
                  then set_votes_count 0 cl else cl) <$> candidate_lists s
  /\ elections s'
     = (fun el => if bool_decide (e_id el = e)
                  then set_total_votes 0 el else el) <$> elections s
  /\ users s' = users s.
Proof.
  unfold admin_reset_election_votes.
  destruct (holds (sql_not (is_admin j))); [discriminate|].
  intros [= <-]. auto.
Qed.

(** No policy lets a caller update or delete a ballot. *)
Lemma update_votes_Ok (j : jwt) (cond : vote -> bool) (set : vote -> vote)
    (s s' : db) :
  update_votes j cond set s = Ok s' -> s' = s.
Proof.
  unfold update_votes, votes_update. intros [= <-]. simpl.
  destruct s as [es cls vs us]. unfold with_votes. simpl. f_equal.
  apply list_fmap_id.
Qed.

Lemma delete_votes_Ok (j : jwt) (cond : vote -> bool) (s s' : db) :
  delete_votes j cond s = Ok s' -> s' = s.
Proof.
  unfold delete_votes, votes_delete. intros [= <-]. simpl.
  destruct s as [es cls vs us]. unfold with_votes. simpl. f_equal.
  induction vs as [|v vs IH]; [reflexivity|].
  rewrite filter_cons_True by exact I. f_equal. exact IH.
Qed.

(** ** The key constraints hold in every reachable database *)

Lemma NoDup_fmap_filter {A B : Type} (f : A -> B) (P : A -> Prop)
    `{!forall a, Decision (P a)} (l : list A) :
  NoDup (f <$> l) -> NoDup (f <$> filter P l).
Proof.
  intros Hnd. eapply sublist_NoDup; [exact Hnd|].
  apply fmap_sublist, sublist_filter.
Qed.

Lemma NoDup_fmap_snoc {A B : Type} (f : A -> B) (l : list A) (x : A) :
  NoDup (f <$> l) -> (forall a, a ∈ l -> f a <> f x) ->
  NoDup (f <$> (l ++ [x])).
Proof.
  intros Hl Hx. rewrite fmap_app. apply NoDup_app. split; [exact Hl|].
  split; [|apply NoDup_singleton].
  intros b Hb Hb'. apply list_elem_of_fmap in Hb as (a & -> & Ha).
  apply list_elem_of_singleton in Hb'. apply (Hx a Ha Hb').
Qed.

Lemma fmap_same {A B : Type} (f : A -> B) (g : A -> A) (l : list A) :
  (forall a, f (g a) = f a) -> f <$> (g <$> l) = f <$> l.
Proof.
  intros H. rewrite <- list_fmap_compose. apply list_fmap_ext.
  intros i a _. apply H.
Qed.

Lemma e_id_bump_total (p : uuid) (n : Z) (es : list election) :
  e_id <$> (bump_total p n <$> es) = e_id <$> es.
Proof.
  apply fmap_same. intros e. unfold bump_total.
  case_bool_decide; reflexivity.
Qed.

Lemma cl_id_bump_list (l : uuid) (n : Z) (cls : list candidate_list) :
  cl_id <$> (bump_list l n <$> cls) = cl_id <$> cls.
Proof.
  apply fmap_same. intros cl. unfold bump_list.
  case_bool_decide; reflexivity.
Qed.

Lemma cl_id_bump_by_distribution (p : uuid) (d : gmap string jvalue)
    (cls : list candidate_list) :
  cl_id <$> (bump_by_distribution p d <$> cls) = cl_id <$> cls.
Proof.
  apply fmap_same. intros cl. unfold bump_by_distribution.
  case_bool_decide; reflexivity.
Qed.

Lemma stored_row_keys (new : vote) (g : uuid) :
  v_id (stored_row new g) = v_id new
  /\ user_id (stored_row new g) = user_id new
  /\ v_election_id (stored_row new g) = v_election_id new
  /\ candidate_list_id (stored_row new g) = candidate_list_id new.
Proof. unfold stored_row. case_bool_decide; auto. Qed.

Lemma insert_vote_keys_unique (j : jwt) (ret : bool) (new v : vote) (g : uuid)
    (s s' : db) :
  keys_unique s -> insert_vote j ret new g s = Ok (v, s') -> keys_unique s'.
Proof.
  intros [He Hcl Hv Hp Hr] H.
  apply insert_vote_Ok in H
    as (_ & _ & Hid & Hpair & Hrec & _ & Hvs & Hes & Hcls & _).
  destruct (stored_row_keys new g) as (Kid & Ku & Ke & _).
  split.
  - rewrite Hes, e_id_bump_total. exact He.
  - rewrite Hcls, cl_id_bump_list. exact Hcl.
  - rewrite Hvs. apply NoDup_fmap_snoc; [exact Hv|].
    intros w Hw. rewrite Kid. apply Hid. exact Hw.
  - rewrite Hvs. apply NoDup_fmap_snoc; [exact Hp|].
    intros w Hw [= H1 H2]. rewrite Ku in H1. rewrite Ke in H2.
    apply (Hpair w Hw). auto.
  - rewrite Hvs. apply NoDup_fmap_snoc; [exact Hr|].
    intros w Hw. apply Hrec. exact Hw.
Qed.

Lemma handle_keys_unique (j : jwt) (r : request) (s s' : db) :
  keys_unique s -> handle j r s = Ok s' -> keys_unique s'.
Proof.
  intros K H. destruct r as [e l rnd|new g|c f|c|e d|e|new|id st|id|new|id];
    simpl in H.
  - apply fmap_Ok in H as ([v s1] & H & ->).
    apply cast_vote_Ok in H as (u & _ & H).
    eapply insert_vote_keys_unique; eassumption.
  - apply fmap_Ok in H as ([v s1] & H & ->).
    eapply insert_vote_keys_unique; eassumption.
  - apply update_votes_Ok in H as ->. exact K.
  - apply delete_votes_Ok in H as ->. exact K.
  - apply admin_apply_simulation_Ok in H
      as (_ & _ & _ & Hes & Hcls & Hvs & _).
    destruct K as [He Hcl Hv Hp Hr]. split.
    + rewrite Hes, e_id_bump_total. exact He.
    + rewrite Hcls, cl_id_bump_by_distribution. exact Hcl.
    + rewrite Hvs. exact Hv.
    + rewrite Hvs. exact Hp.
    + rewrite Hvs. exact Hr.
  - apply admin_reset_election_votes_Ok in H as (_ & Hvs & Hcls & Hes & _).
    destruct K as [He Hcl Hv Hp Hr]. split.
    + rewrite Hes, fmap_same; [exact He|].
      intros el. case_bool_decide; reflexivity.
    + rewrite Hcls, fmap_same; [exact Hcl|].
      intros cl. case_bool_decide; reflexivity.
    + rewrite Hvs. apply NoDup_fmap_filter. exact Hv.
    + rewrite Hvs. apply NoDup_fmap_filter. exact Hp.
    + rewrite Hvs. apply NoDup_fmap_filter. exact Hr.
  - unfold insert_election in H.
    destruct (negb _); [discriminate|].
    destruct (existsb _ (elections s)) eqn:Hex; [discriminate|].
    injection H as <-. destruct K as [He Hcl Hv Hp Hr].
    split; simpl; try assumption.
    apply NoDup_fmap_snoc; [exact He|].
    intros a Ha. apply existsb_false with (a := a) in Hex; [|exact Ha].
    apply bool_decide_eq_false in Hex. exact Hex.
  - unfold update_election_status in H. injection H as <-.
    destruct K as [He Hcl Hv Hp Hr]. split; simpl; try assumption.
    rewrite fmap_same; [exact He|].
    intros el. destruct (holds _ && _); reflexivity.
  - unfold delete_election in H.
    destruct (holds _ && _); injection H as <-; [|exact K].
    destruct K as [He Hcl Hv Hp Hr].
    split; simpl; apply NoDup_fmap_filter; assumption.
  - unfold insert_candidate_list in H.
    destruct (negb _); [discriminate|].
    destruct (existsb _ (candidate_lists s)) eqn:Hex; [discriminate|].
    destruct (negb _); [discriminate|].
    injection H as <-. destruct K as [He Hcl Hv Hp Hr].
    split; simpl; try assumption.
    apply NoDup_fmap_snoc; [exact Hcl|].
    intros a Ha. apply existsb_false with (a := a) in Hex; [|exact Ha].
    apply bool_decide_eq_false in Hex. exact Hex.
  - unfold delete_candidate_lists in H.
    destruct (holds _); [|injection H as <-; exact K].
    destruct (existsb _ (votes s)); [discriminate|].
    injection H as <-. destruct K as [He Hcl Hv Hp Hr].
    split; simpl; try assumption.
    apply NoDup_fmap_filter. exact Hcl.
Qed.

Lemma step_keys_unique (s : db) (c : jwt * request) :
  keys_unique s -> keys_unique (step s c).
Proof.
  intros K. unfold step. destruct (handle c.1 c.2 s) as [s'|err] eqn:H.
  - eapply handle_keys_unique; eassumption.
  - exact K.
Qed.

Lemma run_keys_unique (cs : list (jwt * request)) (s : db) :
  keys_unique s -> keys_unique (run s cs).
Proof.
  revert s. induction cs as [|c cs IH]; intros s K; [exact K|].
  apply IH, step_keys_unique, K.
Qed.

Lemma reachable_keys_unique (s : db) : reachable s -> keys_unique s.
Proof.
  intros (us & cs & ->). apply run_keys_unique.
  split; simpl; apply NoDup_nil_2.
Qed.

(** ** The example database is reachable *)

Lemma demo_db_reachable : reachable demo_db.
Proof. exists [U1; U2], demo_setup. evaluate. Qed.

Lemma demo_db_voted_reachable : reachable demo_db_voted.
Proof.
  exists [U1; U2], (demo_setup ++ [(voter U1, CastVote E1 L1 entropy1)]).
  evaluate.
Qed.

(** ** One ballot per voter and election *)

Lemma NoDup_fmap_eq {A B : Type} (f : A -> B) (l : list A) (a b : A) :
  NoDup (f <$> l) -> a ∈ l -> b ∈ l -> f a = f b -> a = b.
Proof.
  induction l as [|x l IH]; intros Hnd Ha Hb Hf; [inversion Ha|].
  rewrite fmap_cons in Hnd. apply NoDup_cons in Hnd as [Hx Hnd].
  apply elem_of_cons in Ha as [->|Ha]; apply elem_of_cons in Hb as [->|Hb].
  - reflexivity.
  - exfalso. apply Hx. rewrite Hf. apply list_elem_of_fmap_2. exact Hb.
  - exfalso. apply Hx. rewrite <- Hf. apply list_elem_of_fmap_2. exact Ha.
  - apply IH; assumption.
Qed.

Lemma NoDup_fmap_filter_length {A B : Type} `{!EqDecision B} (f : A -> B)
    (k : B) (l : list A) :
  NoDup (f <$> l) -> (List.length (filter (fun a => f a = k) l) <= 1)%nat.
Proof.
  induction l as [|x l IH]; intros Hnd; [simpl; lia|].
  rewrite fmap_cons in Hnd. apply NoDup_cons in Hnd as [Hx Hnd].
  rewrite filter_cons. destruct (decide (f x = k)) as [Hk|Hk]; [|auto].
  assert (filter (fun a => f a = k) l = []) as ->; [|simpl; lia].
  destruct (filter (fun a => f a = k) l) as [|y ys] eqn:Hf; [reflexivity|].
  exfalso. assert (y ∈ filter (fun a => f a = k) l) as Hy.
  { rewrite Hf. apply list_elem_of_here. }
  apply list_elem_of_filter in Hy as [Hyk Hy].
  apply Hx. rewrite Hk, <- Hyk. apply list_elem_of_fmap_2. exact Hy.
Qed.

Lemma ballots_of_voter_pairs (s : db) (u e : uuid) :
  ballots_of_voter s u e
  = filter (fun v => (user_id v, v_election_id v) = (u, e)) (votes s).
Proof.
  unfold ballots_of_voter. apply list_filter_iff. intros v. split.
  - intros [-> ->]. reflexivity.
  - intros [= -> ->]. auto.
Qed.

Lemma votes_select_own (j : jwt) (v : vote) :
  auth_uid j = Some (user_id v) -> holds (votes_select j v) = true.
Proof.
  intros Hu. unfold votes_select. rewrite Hu. simpl.
  rewrite bool_decide_eq_true_2 by reflexivity.
  destruct (is_admin j) as [[]|], (is_committee j) as [[]|]; reflexivity.
Qed.

(** A cast by a voter who already holds a ballot in the election. *)
Lemma second_cast (j : jwt) (s : db) (u e l : uuid) (rnd : entropy) :
  auth_uid j = Some u -> ballots_of_voter s u e <> [] ->
  cast_vote j e l rnd s
  = if votes_insert j s (ballot u e l rnd)
    then Err AlreadyVoted
    else Err (row_security_violation "votes").
Proof.
  intros Hu Hne. unfold cast_vote. rewrite Hu. fold (ballot u e l rnd).
  unfold insert_vote.
  rewrite (votes_select_own j (ballot u e l rnd)) by exact Hu.
  destruct (votes_insert j s (ballot u e l rnd)) eqn:Hpol;
    cbn [andb negb orb]; [|reflexivity].
  destruct (existsb _ (votes s)) eqn:Hid; [reflexivity|].
  assert (existsb
            (fun v => bool_decide (user_id v = user_id (ballot u e l rnd))
                      && bool_decide
                           (v_election_id v = v_election_id (ballot u e l rnd)))
            (votes s) = true) as ->; [|reflexivity].
  destruct (ballots_of_voter s u e) as [|w ws] eqn:Hb; [contradiction|].
  assert (w ∈ ballots_of_voter s u e) as Hw.
  { rewrite Hb. apply list_elem_of_here. }
  apply list_elem_of_filter in Hw as [[Hwu Hwe] Hw].
  apply existsb_true. exists w. split; [exact Hw|]. simpl.
  rewrite !bool_decide_eq_true_2 by assumption. reflexivity.
Qed.

(** C1, as the code has it: in every reachable database a voter holds at
    most one ballot per election; the insert itself is refused (there is no
    read before it), so a further cast by that voter in that election fails
    and leaves the database as it was.  The failure is the 23505 error
    'Ya existe un voto' when the row passes the insert policy, and the
    policy's own rejection (42501) when it does not. *)
Theorem one_ballot_per_voter_and_election (s : db) (j : jwt) (u e l : uuid)
    (rnd : entropy) :
  reachable s -> auth_uid j = Some u ->
  (List.length (ballots_of_voter s u e) <= 1)%nat
  /\ (ballots_of_voter s u e <> [] ->
      step s (j, CastVote e l rnd) = s
      /\ cast_vote j e l rnd s
         = if votes_insert j s (ballot u e l rnd)
           then Err AlreadyVoted
           else Err (row_security_violation "votes")).
Proof.
  intros Hreach Hu. split.
  - rewrite ballots_of_voter_pairs. apply NoDup_fmap_filter_length.
    apply reachable_keys_unique. exact Hreach.
  - intros Hne. pose proof (second_cast j s u e l rnd Hu Hne) as Hc.
    split; [|exact Hc].
    unfold step. simpl. rewrite Hc.
    destruct (votes_insert j s (ballot u e l rnd)); reflexivity.
Qed.

Lemma one_ballot_witness :
  reachable demo_db_voted /\ auth_uid (voter U1) = Some U1
  /\ ballots_of_voter demo_db_voted U1 E1 <> []
  /\ cast_vote (voter U1) E1 L2 entropy2 demo_db_voted
     = Err AlreadyVoted.
Proof.
  split; [exact demo_db_voted_reachable|]. split; [reflexivity|].
  assert (ballots_of_voter demo_db_voted U1 E1 <> []) as Hne.
  { vm_compute. discriminate. }
  split; [exact Hne|].
  destruct (one_ballot_per_voter_and_election demo_db_voted (voter U1) U1 E1 L2
              entropy2 demo_db_voted_reachable eq_refl) as [_ H].
  destruct (H Hne) as [_ ->]. evaluate.
Defined.

(** The second cast names a list that does not exist: the policy turns the
    row down, and the error is not the one of the uniqueness constraint. *)
Lemma second_cast_not_already_voted :
  ballots_of_voter demo_db_voted U1 E1 <> []
  /\ cast_vote (voter U1) E1 "00000000-0000-0000-0000-0000000000a9" entropy2
       demo_db_voted
     = Err (row_security_violation "votes")
  /\ ~ (exists err,
          cast_vote (voter U1) E1 "00000000-0000-0000-0000-0000000000a9"
            entropy2 demo_db_voted = Err err
          /\ sqlstate err = "23505").
Proof.
  split; [vm_compute; discriminate|].
  assert (cast_vote (voter U1) E1 "00000000-0000-0000-0000-0000000000a9"
            entropy2 demo_db_voted
          = Err (row_security_violation "votes")) as Hc.
  { evaluate. }
  split; [exact Hc|].
  intros (err & Herr & Hstate). rewrite Hc in Herr.
  injection Herr as <-. simpl in Hstate. discriminate.
Qed.

(** ** The insert policy: list pairing and election status *)

Lemma visible_candidate_lists_subset (j : jwt) (s : db) (cl : candidate_list) :
  cl ∈ visible_candidate_lists j s -> cl ∈ candidate_lists s.
Proof. intros [_ H]%list_elem_of_filter. exact H. Qed.

Lemma visible_elections_subset (j : jwt) (s : db) (el : election) :
  el ∈ visible_elections j s -> el ∈ elections s.
Proof. intros [_ H]%list_elem_of_filter. exact H. Qed.

(** The policy lets a row through only if its election is open and a list
    with its list id exists; it does not compare that list's election with
    the row's. *)
Lemma votes_insert_true (j : jwt) (s : db) (new : vote) :
  votes_insert j s new = true ->
  auth_uid j = Some (user_id new)
  /\ (exists el, el ∈ elections s /\ e_id el = v_election_id new
                 /\ status el = voting_open)
  /\ (exists cl, cl ∈ candidate_lists s /\ cl_id cl = candidate_list_id new).
Proof.
  unfold votes_insert. destruct (auth_uid j) as [u|]; [|discriminate].
  intros H. apply andb_true_iff in H as [H Hcl].
  apply andb_true_iff in H as [Hu Hel].
  apply bool_decide_eq_true in Hu as ->.
  apply existsb_true in Hel as (el & Hel & Hp).
  apply andb_true_iff in Hp as [Hid Hst].
  apply bool_decide_eq_true in Hid, Hst.
  apply existsb_true in Hcl as (cl & Hcl & Hp).
  apply andb_true_iff in Hp as [Hcid _].
  apply bool_decide_eq_true in Hcid.
  split; [reflexivity|]. split.
  - exists el. eauto using visible_elections_subset.
  - exists cl. eauto using visible_candidate_lists_subset.
Qed.

Lemma votes_insert_intro (j : jwt) (s : db) (new : vote) (el : election)
    (cl : candidate_list) :
  auth_role j = "authenticated" -> auth_uid j = Some (user_id new) ->
  el ∈ elections s -> e_id el = v_election_id new -> status el = voting_open ->
  cl ∈ candidate_lists s -> cl_id cl = candidate_list_id new ->
  votes_insert j s new = true.
Proof.
  intros Hrole Hu Hel Hid Hst Hcl Hcid. unfold votes_insert. rewrite Hu.
  assert (forall b, holds (sql_or (Some (bool_decide (auth_role j = "authenticated")))
                             b) = true) as Hvis.
  { intros b. rewrite bool_decide_eq_true_2 by exact Hrole.
    destruct b as [[]|]; reflexivity. }
  apply andb_true_iff. split; [apply andb_true_iff; split|].
  - apply bool_decide_eq_true. reflexivity.
  - apply existsb_true. exists el. split.
    + apply list_elem_of_filter. split; [|exact Hel].
      unfold elections_select. rewrite Hvis. exact I.
    + rewrite !bool_decide_eq_true_2 by assumption. reflexivity.
  - apply existsb_true. exists cl. split.
    + apply list_elem_of_filter. split; [|exact Hcl].
      unfold candidate_lists_select. rewrite Hvis. exact I.
    + rewrite !bool_decide_eq_true_2 by (assumption || reflexivity). reflexivity.
Qed.

Lemma cast_vote_policy_rejection (j : jwt) (s : db) (e l : uuid)
    (rnd : entropy) :
  (forall u, auth_uid j = Some u -> votes_insert j s (ballot u e l rnd) = false) ->
  cast_vote j e l rnd s = Err (row_security_violation "votes")
  /\ step s (j, CastVote e l rnd) = s.
Proof.
  intros Hpol.
  assert (cast_vote j e l rnd s = Err (row_security_violation "votes")) as Hc.
  { unfold cast_vote. destruct (auth_uid j) as [u|] eqn:Hu; [|reflexivity].
    fold (ballot u e l rnd). unfold insert_vote.
    rewrite (Hpol u eq_refl). reflexivity. }
  split; [exact Hc|]. unfold step. simpl. rewrite Hc. reflexivity.
Qed.

(** C3, as the code has it: a cast that names a list of another election
    never succeeds and inserts no row.  The insert policy does not compare
    the list's election with the row's, so the row reaches the composite
    foreign key on (candidate_list_id, election_id), and the call fails with
    the 23503 error 'Lista de candidatos no válida' whenever no earlier
    check refuses the row: the policy (caller, election status, existence of
    the list) and the three unique indexes come first. *)
Theorem mismatched_list_rejected (j : jwt) (s : db) (e l : uuid)
    (rnd : entropy) (cl : candidate_list) :
  NoDup (cl_id <$> candidate_lists s) ->
  cl ∈ candidate_lists s -> cl_id cl = l -> cl_election_id cl <> e ->
  is_ok (cast_vote j e l rnd s) = false
  /\ step s (j, CastVote e l rnd) = s
  /\ forall u,
       auth_uid j = Some u ->
       votes_insert j s (ballot u e l rnd) = true ->
       (forall w, w ∈ votes s ->
          v_id w <> id_uuid rnd
          /\ ~ (user_id w = u /\ v_election_id w = e)
          /\ receipt_hash w <> make_receipt (receipt_uuid rnd)) ->
       cast_vote j e l rnd s
       = Err InvalidList.
Proof.
  intros Hnd Hcl Hid Hne.
  assert (forall cl', cl' ∈ candidate_lists s -> cl_id cl' = l ->
                      cl_election_id cl' <> e) as Hall.
  { intros cl' Hcl' Hid'.
    rewrite (NoDup_fmap_eq cl_id _ cl' cl Hnd Hcl' Hcl); [exact Hne|].
    congruence. }
  assert (is_ok (cast_vote j e l rnd s) = false) as Hfail.
  { destruct (cast_vote j e l rnd s) as [[v s']|err] eqn:Hc; [|reflexivity].
    apply cast_vote_Ok in Hc as (u & _ & Hc).
    apply insert_vote_Ok in Hc
      as (_ & _ & _ & _ & _ & (cl' & Hcl' & Hid' & He') & _).
    exfalso. apply (Hall cl' Hcl' Hid' He'). }
  split; [exact Hfail|]. split.
  { unfold step. simpl.
    destruct (cast_vote j e l rnd s) as [[v s']|err]; [discriminate|reflexivity]. }
  intros u Hu Hpol Hfresh.
  unfold cast_vote. rewrite Hu. fold (ballot u e l rnd). unfold insert_vote.
  rewrite Hpol, (votes_select_own j (ballot u e l rnd)) by exact Hu.
  cbn [andb negb orb].
  assert (existsb (fun v => bool_decide (v_id v = v_id (ballot u e l rnd)))
            (votes s) = false) as ->.
  { apply existsb_false. intros w Hw. apply bool_decide_eq_false.
    apply (Hfresh w Hw). }
  assert (existsb
            (fun v => bool_decide (user_id v = user_id (ballot u e l rnd))
                      && bool_decide
                           (v_election_id v = v_election_id (ballot u e l rnd)))
            (votes s) = false) as ->.
  { apply existsb_false. intros w Hw. apply andb_false_iff.
    destruct (Hfresh w Hw) as (_ & Hpair & _).
    destruct (decide (user_id w = u)) as [Hwu|Hwu].
    - right. apply bool_decide_eq_false. intros Hwe. apply Hpair. auto.
    - left. apply bool_decide_eq_false. exact Hwu. }
  assert (existsb
            (fun v => bool_decide
                        (receipt_hash v = receipt_hash (ballot u e l rnd)))
            (votes s) = false) as ->.
  { apply existsb_false. intros w Hw. apply bool_decide_eq_false.
    apply (Hfresh w Hw). }
  apply votes_insert_true in Hpol as (_ & (el & Hel & Helid & _) & _).
  assert (existsb
            (fun e0 => bool_decide (e_id e0 = v_election_id (ballot u e l rnd)))
            (elections s) = true) as ->.
  { apply existsb_true. exists el. split; [exact Hel|].
    apply bool_decide_eq_true. exact Helid. }
  cbn [negb].
  destruct (negb (existsb _ (users s))); [reflexivity|].
  assert (existsb
            (fun cl' =>
               bool_decide (cl_id cl' = candidate_list_id (ballot u e l rnd))
               && bool_decide
                    (cl_election_id cl' = v_election_id (ballot u e l rnd)))
            (candidate_lists s) = false) as ->; [|reflexivity].
  apply existsb_false. intros cl' Hcl'. apply andb_false_iff.
  destruct (decide (cl_id cl' = l)) as [Hid'|Hid'].
  - right. apply bool_decide_eq_false. apply Hall; assumption.
  - left. apply bool_decide_eq_false. exact Hid'.
Qed.

Lemma mismatched_list_witness :
  cl_election_id (empty_list L3 E2) <> E1
  /\ votes_insert (voter U1) demo_db (ballot U1 E1 L3 entropy1) = true
  /\ cast_vote (voter U1) E1 L3 entropy1 demo_db
     = Err InvalidList.
Proof.
  assert (cl_election_id (empty_list L3 E2) <> E1) as Hne.
  { vm_compute. discriminate. }
  assert (votes_insert (voter U1) demo_db (ballot U1 E1 L3 entropy1) = true)
    as Hpol.
  { evaluate. }
  split; [exact Hne|]. split; [exact Hpol|].
  destruct (mismatched_list_rejected (voter U1) demo_db E1 L3 entropy1
              (empty_list L3 E2)) as (_ & _ & H).
  - apply (reachable_keys_unique demo_db demo_db_reachable).
  - simpl. apply list_elem_of_further, list_elem_of_further, list_elem_of_here.
  - reflexivity.
  - exact Hne.
  - apply (H U1 eq_refl Hpol). intros w Hw. inversion Hw.
Defined.

(** U1 has voted in E1 and casts again, naming L3 of election E2: the
    uniqueness constraint is met before the foreign key, and the error is
    23505, not 23503. *)
Lemma mismatched_list_not_invalid_list :
  (exists cl, cl ∈ candidate_lists demo_db_voted /\ cl_id cl = L3
              /\ cl_election_id cl <> E1)
  /\ cast_vote (voter U1) E1 L3 entropy2 demo_db_voted
     = Err AlreadyVoted
  /\ ~ (exists err,
          cast_vote (voter U1) E1 L3 entropy2 demo_db_voted = Err err
          /\ sqlstate err = "23503").
Proof.
  split.
  { exists (empty_list L3 E2). split; [|split].
    - vm_compute. apply list_elem_of_further, list_elem_of_further,
        list_elem_of_here.
    - reflexivity.
    - vm_compute. discriminate. }
  assert (cast_vote (voter U1) E1 L3 entropy2 demo_db_voted
          = Err AlreadyVoted)
    as Hc.
  { evaluate. }
  split; [exact Hc|].
  intros (err & Herr & Hstate).
  rewrite Hc in Herr. injection Herr as <-. simpl in Hstate. discriminate.
Qed.

Lemma checkEligibility_true (j : jwt) (s : db) (e : uuid) :
  checkEligibility j s e = true ->
  exists el, el ∈ elections s /\ e_id el = e /\ status el = voting_open.
Proof.
  unfold checkEligibility.
  destruct (filter (fun el => e_id el = e) (visible_elections j s))
    as [|el [|? ?]] eqn:Hf; simpl; try discriminate.
  intros Hst. apply bool_decide_eq_true in Hst.
  assert (el ∈ filter (fun el => e_id el = e) (visible_elections j s)) as Hel.
  { rewrite Hf. apply list_elem_of_here. }
  apply list_elem_of_filter in Hel as [Hid Hel].
  exists el. eauto using visible_elections_subset.
Qed.

(** C4: against an election whose status is draft, scheduled, campaign,
    paused, voting_closed or results_published, [cast_vote] is refused by
    the insert policy and inserts nothing, and the hook reports that the
    election is not available for voting without calling the procedure; a
    cast that succeeds was made against an election in voting_open. *)
Theorem cast_vote_needs_voting_open (j : jwt) (s : db) (e l : uuid)
    (rnd : entropy) :
  NoDup (e_id <$> elections s) ->
  (forall el, el ∈ elections s -> e_id el = e ->
     status el ∈ [draft; scheduled; campaign; paused; voting_closed;
                  results_published] ->
     cast_vote j e l rnd s = Err (row_security_violation "votes")
     /\ step s (j, CastVote e l rnd) = s
     /\ forall cache userId,
          castVote cache j s e l userId rnd
          = (toast_not_available, None, cache, s))
  /\ (forall v s', cast_vote j e l rnd s = Ok (v, s') ->
        exists el, el ∈ elections s /\ e_id el = e /\ status el = voting_open).
Proof.
  intros Hnd. split.
  - intros el Hel Hid Hst.
    assert (forall el', el' ∈ elections s -> e_id el' = e ->
                        status el' <> voting_open) as Hclosed.
    { intros el' Hel' Hid'.
      rewrite (NoDup_fmap_eq e_id _ el' el Hnd Hel' Hel) by congruence.
      intros Hopen. rewrite Hopen in Hst.
      repeat (apply elem_of_cons in Hst as [Hst|Hst]; [discriminate|]).
      inversion Hst. }
    destruct (cast_vote_policy_rejection j s e l rnd) as [Hc Hs].
    { intros u Hu.
      destruct (votes_insert j s (ballot u e l rnd)) eqn:Hpol; [|reflexivity].
      apply votes_insert_true in Hpol as (_ & (el' & Hel' & Hid' & Hopen) & _).
      exfalso. apply (Hclosed el' Hel' Hid' Hopen). }
    split; [exact Hc|]. split; [exact Hs|].
    + intros cache userId. unfold castVote.
      destruct (checkEligibility j s e) eqn:Hce; [|reflexivity].
      apply checkEligibility_true in Hce as (el' & Hel' & Hid' & Hopen).
      exfalso. apply (Hclosed el' Hel' Hid' Hopen).
  - intros v s' Hc. apply cast_vote_Ok in Hc as (u & _ & Hc).
    apply insert_vote_Ok in Hc as (_ & Hpol & _).
    apply votes_insert_true in Hpol as (_ & Hel & _). exact Hel.
Qed.

Lemma cast_vote_needs_voting_open_witness :
  NoDup (e_id <$> elections paused_db)
  /\ cast_vote (voter U1) E1 L1 entropy1 paused_db
     = Err (row_security_violation "votes")
  /\ castVote ∅ (voter U1) paused_db E1 L1 U1 entropy1
     = (toast_not_available, None, ∅, paused_db)
  /\ is_ok (cast_vote (voter U1) E1 L1 entropy1 demo_db) = true.
Proof.
  assert (NoDup (e_id <$> elections paused_db)) as Hnd.
  { apply elections_pkey, step_keys_unique, reachable_keys_unique,
      demo_db_reachable. }
  split; [exact Hnd|].
  destruct (cast_vote_needs_voting_open (voter U1) paused_db E1 L1 entropy1 Hnd)
    as [Hclosed _].
  destruct (Hclosed {| e_id := E1; status := paused; total_votes := 0 |})
    as (Hc & _ & Hhook).
  - vm_compute. apply list_elem_of_here.
  - reflexivity.
  - simpl. do 3 apply list_elem_of_further. apply list_elem_of_here.
  - split; [exact Hc|]. split; [apply Hhook|]. evaluate.
Defined.

(** ** Receipts *)

(** C7, as the code has it: in every reachable database the receipts of
    all ballots are pairwise distinct, the unique index on [receipt_hash]
    being checked on every insert and on the trigger's update.  The receipt
    of a ballot recorded through [cast_vote] is [make_receipt] of the random
    draw alone: with the same draws, casts for two different lists return
    the same receipt and leave the same column of receipts.  A row inserted
    into [votes] directly, which the insert policy lets a voter do, is
    stored with the receipt the client sent whenever that receipt is not
    empty: the trigger draws a receipt only for an empty one. *)
Theorem receipts_unique_and_blind (s : db) :
  reachable s ->
  NoDup (receipt_hash <$> votes s)
  /\ (forall j e l1 l2 rnd v1 s1 v2 s2,
        cast_vote j e l1 rnd s = Ok (v1, s1) ->
        cast_vote j e l2 rnd s = Ok (v2, s2) ->
        receipt_hash v1 = make_receipt (receipt_uuid rnd)
        /\ receipt_hash v2 = receipt_hash v1
        /\ receipt_hash <$> votes s1 = receipt_hash <$> votes s2)
  /\ (forall j ret new g v s',
        insert_vote j ret new g s = Ok (v, s') ->
        receipt_hash new <> "" ->
        v = new /\ votes s' = votes s ++ [new]
        /\ NoDup (receipt_hash <$> votes s')).
Proof.
  intros Hreach. split; [|split].
  - apply votes_receipt_hash_idx, reachable_keys_unique, Hreach.
  - intros j e l1 l2 rnd v1 s1 v2 s2 H1 H2.
    apply cast_vote_Ok in H1 as (u1 & Hu1 & H1).
    apply cast_vote_Ok in H2 as (u2 & Hu2 & H2).
    apply insert_vote_Ok in H1 as (-> & _ & _ & _ & _ & _ & Hv1 & _).
    apply insert_vote_Ok in H2 as (-> & _ & _ & _ & _ & _ & Hv2 & _).
    split; [reflexivity|]. split; [reflexivity|].
    rewrite Hv1, Hv2, !fmap_app. f_equal.
    unfold stored_row. simpl. case_bool_decide; reflexivity.
  - intros j ret new g v s' Hi Hne.
    pose proof (insert_vote_keys_unique j ret new v g s s'
                  (reachable_keys_unique s Hreach) Hi) as K'.
    apply insert_vote_Ok in Hi as (-> & _ & _ & _ & _ & _ & Hvs & _).
    split; [reflexivity|]. split; [|apply (votes_receipt_hash_idx s' K')].
    rewrite Hvs. unfold stored_row.
    rewrite bool_decide_eq_false_2; [reflexivity|].
    destruct (receipt_hash new); [contradiction | discriminate].
Qed.

Lemma receipts_witness :
  reachable demo_db_voted
  /\ NoDup (receipt_hash <$> votes demo_db_voted)
  /\ is_ok (cast_vote (voter U2) E1 L1 entropy2 demo_db_voted) = true
  /\ is_ok (cast_vote (voter U2) E1 L2 entropy2 demo_db_voted) = true.
Proof.
  split; [exact demo_db_voted_reachable|].
  split;
    [exact (proj1 (receipts_unique_and_blind demo_db_voted
                     demo_db_voted_reachable))|].
  split; evaluate.
Defined.

(** A voter inserts a ballot for L1 directly and sends the id of L1 as its
    receipt: the row is stored as sent, in a reachable database, and its
    receipt is the list it chose, not a random draw. *)
Lemma receipt_chosen_by_client :
  let row := {| v_id := id_uuid entropy1; v_election_id := E1;
                candidate_list_id := L1; user_id := U1;
                receipt_hash := L1 |} in
  let s := step demo_db (voter U1, InsertVote row (trigger_uuid entropy1)) in
  reachable s
  /\ votes s = [row]
  /\ receipt_hash row = candidate_list_id row
  /\ receipt_hash row <> make_receipt (trigger_uuid entropy1)
  /\ receipt_hash row <> make_receipt (receipt_uuid entropy1).
Proof.
  intros row s. split; [|split; [evaluate|]].
  - exists [U1; U2],
      (demo_setup ++ [(voter U1, InsertVote row (trigger_uuid entropy1))]).
    evaluate.
  - split; [reflexivity|]. split; vm_compute; discriminate.
Qed.

(** ** Tally consistency *)

Lemma sum_Z_Permutation (l k : list Z) : l ≡ₚ k -> sum_Z l = sum_Z k.
Proof.
  induction 1 as [|x l k _ IH|x y l|l k m _ IH1 _ IH2].
  - reflexivity.
  - rewrite !sum_Z_cons, IH. reflexivity.
  - rewrite !sum_Z_cons. lia.
  - congruence.
Qed.

Lemma sum_counts_empty : sum_counts ∅ = 0%Z.
Proof. unfold sum_counts, jsonb_each_text. rewrite map_to_list_empty. reflexivity. Qed.

Lemma sum_counts_insert (d : gmap string jvalue) (k : string) (v : jvalue) :
  d !! k = None ->
  sum_counts (<[k:=v]> d) = (count_of (Some v) + sum_counts d)%Z.
Proof.
  intros Hk. unfold sum_counts, jsonb_each_text.
  rewrite (sum_Z_Permutation _
             ((fun row : string * jvalue => count_of (Some row.2))
                <$> (k, v) :: map_to_list d)).
  - rewrite fmap_cons, sum_Z_cons. reflexivity.
  - apply fmap_Permutation, map_to_list_insert. exact Hk.
Qed.

(** A sum over rows with distinct ids reacts to a change at one id only. *)
Lemma sum_point_update (f g : candidate_list -> Z) (k : uuid) (a : Z)
    (cls : list candidate_list) (cl0 : candidate_list) :
  NoDup (cl_id <$> cls) -> cl0 ∈ cls -> cl_id cl0 = k ->
  (forall cl, cl ∈ cls -> cl_id cl <> k -> f cl = g cl) ->
  (forall cl, cl ∈ cls -> cl_id cl = k -> f cl = (g cl + a)%Z) ->
  sum_Z (f <$> cls) = (sum_Z (g <$> cls) + a)%Z.
Proof.
  induction cls as [|x cls IH]; intros Hnd Hin Hk Hne Heq; [inversion Hin|].
  rewrite fmap_cons in Hnd. apply NoDup_cons in Hnd as [Hx Hnd].
  rewrite !fmap_cons, !sum_Z_cons.
  apply elem_of_cons in Hin as [->|Hin].
  - rewrite (Heq x) by (auto using list_elem_of_here).
    assert (f <$> cls = g <$> cls) as ->; [|lia].
    apply list_fmap_ext. intros i cl Hcl.
    apply list_elem_of_lookup_2 in Hcl.
    apply Hne; [apply list_elem_of_further; exact Hcl|].
    intros Hid. apply Hx. rewrite Hk, <- Hid.
    apply list_elem_of_fmap_2. exact Hcl.
  - rewrite (Hne x); [|apply list_elem_of_here|].
    + rewrite (IH Hnd Hin Hk); [lia| |].
      * intros cl Hcl. apply Hne, list_elem_of_further, Hcl.
      * intros cl Hcl. apply Heq, list_elem_of_further, Hcl.
    + intros Hid. apply Hx. rewrite Hid, <- Hk.
      apply list_elem_of_fmap_2. exact Hin.
Qed.

Lemma sum_unchanged (f g : candidate_list -> Z) (cls : list candidate_list) :
  (forall cl, cl ∈ cls -> f cl = g cl) -> sum_Z (f <$> cls) = sum_Z (g <$> cls).
Proof.
  intros H. f_equal. apply list_fmap_ext. intros i cl Hcl.
  apply H. eapply list_elem_of_lookup_2. exact Hcl.
Qed.

Lemma sum_Z_add (f g : candidate_list -> Z) (cls : list candidate_list) :
  sum_Z ((fun cl => (f cl + g cl)%Z) <$> cls)
  = (sum_Z (f <$> cls) + sum_Z (g <$> cls))%Z.
Proof.
  induction cls as [|x cls IH]; [reflexivity|].
  rewrite !fmap_cons, !sum_Z_cons, IH. lia.
Qed.

(** Filtering the lists of an election commutes with a change of counters. *)
Lemma filter_election_fmap (g : candidate_list -> candidate_list) (e : uuid)
    (cls : list candidate_list) :
  (forall cl, cl_election_id (g cl) = cl_election_id cl) ->
  filter (fun cl => cl_election_id cl = e) (g <$> cls)
  = g <$> filter (fun cl => cl_election_id cl = e) cls.
Proof.
  intros Hg. induction cls as [|x cls IH]; [reflexivity|].
  rewrite fmap_cons, !filter_cons, Hg.
  destruct (decide (cl_election_id x = e)); rewrite IH; reflexivity.
Qed.

Lemma NoDup_cl_id_filter (e : uuid) (cls : list candidate_list) :
  NoDup (cl_id <$> cls) ->
  NoDup (cl_id <$> filter (fun cl => cl_election_id cl = e) cls).
Proof. apply NoDup_fmap_filter. Qed.

(** The sum of the lists of [e'] after a ballot for list [l] of election [e]. *)
Lemma sum_votes_count_bump_list (cls : list candidate_list) (l e e' : uuid)
    (cl0 : candidate_list) :
  NoDup (cl_id <$> cls) -> cl0 ∈ cls -> cl_id cl0 = l -> cl_election_id cl0 = e ->
  sum_Z (votes_count <$>
           filter (fun cl => cl_election_id cl = e') (bump_list l 1 <$> cls))
  = (sum_Z (votes_count <$> filter (fun cl => cl_election_id cl = e') cls)
     + if bool_decide (e = e') then 1 else 0)%Z.
Proof.
  intros Hnd Hin Hid He.
  rewrite filter_election_fmap
    by (intros cl; unfold bump_list; case_bool_decide; reflexivity).
  rewrite <- list_fmap_compose.
  case_bool_decide as Hee.
  - apply (sum_point_update _ _ l 1 _ cl0).
    + apply NoDup_cl_id_filter, Hnd.
    + apply list_elem_of_filter. split; [congruence | exact Hin].
    + exact Hid.
    + intros cl _ Hne. simpl. unfold bump_list.
      rewrite bool_decide_eq_false_2 by exact Hne. reflexivity.
    + intros cl _ Heq. simpl. unfold bump_list.
      rewrite bool_decide_eq_true_2 by exact Heq. reflexivity.
  - rewrite Z.add_0_r. apply sum_unchanged.
    intros cl [Hcl Hclin]%list_elem_of_filter. simpl. unfold bump_list.
    case_bool_decide as Hl; [|reflexivity].
    exfalso. apply Hee.
    rewrite <- He, <- Hcl. f_equal.
    apply (NoDup_fmap_eq cl_id cls); congruence.
Qed.

(** The counts a distribution holds for the lists of an election add up to
    the sum of the distribution, when every key is the canonical text of a
    list of that election. *)
Lemma sum_lookup_counts (cls : list candidate_list) (e : uuid)
    (d : gmap string jvalue) :
  NoDup (cl_id <$> cls) ->
  (forall k v, d !! k = Some v ->
     exists cl, cl ∈ cls /\ cl_id cl = k /\ cl_election_id cl = e) ->
  sum_Z ((fun cl => count_of (d !! cl_id cl))
           <$> filter (fun cl => cl_election_id cl = e) cls)
  = sum_counts d.
Proof.
  intros Hnd. induction d as [|k v d Hk _ IH] using map_first_key_ind.
  - intros _. rewrite sum_counts_empty.
    induction (filter _ cls) as [|x xs IHx]; [reflexivity|].
    rewrite fmap_cons, sum_Z_cons, IHx, lookup_empty. reflexivity.
  - intros Hkeys. rewrite sum_counts_insert by exact Hk.
    destruct (Hkeys k v) as (cl0 & Hcl0 & Hid0 & He0);
      [apply lookup_insert_eq|].
    rewrite <- IH.
    2:{ intros k' v' Hk'. apply (Hkeys k' v').
        rewrite lookup_insert_ne; [exact Hk'|].
        intros Heq. rewrite Heq in Hk. rewrite Hk in Hk'. discriminate. }
    rewrite Z.add_comm.
    apply (sum_point_update _ _ k _ _ cl0).
    + apply NoDup_cl_id_filter, Hnd.
    + apply list_elem_of_filter. auto.
    + exact Hid0.
    + intros cl _ Hne. cbv beta. rewrite lookup_insert_ne; [reflexivity|].
      intros Heq. apply Hne. symmetry. exact Heq.
    + intros cl _ Heq. cbv beta. rewrite Heq, lookup_insert_eq, Hk. simpl. lia.
Qed.

Lemma sum_votes_count_bump_by_distribution (cls : list candidate_list)
    (p e' : uuid) (d : gmap string jvalue) :
  NoDup (cl_id <$> cls) ->
  (forall k v, d !! k = Some v ->
     exists cl, cl ∈ cls /\ cl_id cl = k /\ cl_election_id cl = p) ->
  sum_Z (votes_count <$>
           filter (fun cl => cl_election_id cl = e')
             (bump_by_distribution p d <$> cls))
  = (sum_Z (votes_count <$> filter (fun cl => cl_election_id cl = e') cls)
     + if bool_decide (p = e') then sum_counts d else 0)%Z.
Proof.
  intros Hnd Hkeys.
  rewrite filter_election_fmap
    by (intros cl; unfold bump_by_distribution; case_bool_decide; reflexivity).
  rewrite <- list_fmap_compose.
  case_bool_decide as Hpe.
  - subst e'. rewrite <- (sum_lookup_counts cls p d Hnd Hkeys).
    rewrite <- sum_Z_add. apply sum_unchanged.
    intros cl [Hcl _]%list_elem_of_filter. simpl. unfold bump_by_distribution.
    rewrite bool_decide_eq_true_2 by exact Hcl. reflexivity.
  - rewrite Z.add_0_r. apply sum_unchanged.
    intros cl [Hcl _]%list_elem_of_filter. simpl. unfold bump_by_distribution.
    rewrite bool_decide_eq_false_2 by congruence. reflexivity.
Qed.

Lemma e_id_bump_total_row (p : uuid) (n : Z) (el : election) :
  e_id (bump_total p n el) = e_id el.
Proof. unfold bump_total. case_bool_decide; reflexivity. Qed.

Lemma insert_vote_tally (j : jwt) (ret : bool) (new v : vote) (g : uuid)
    (s s' : db) :
  keys_unique s -> tally_consistent s ->
  insert_vote j ret new g s = Ok (v, s') -> tally_consistent s'.
Proof.
  intros K T H.
  apply insert_vote_Ok in H
    as (_ & _ & _ & _ & _ & (cl0 & Hcl0 & Hid0 & He0) & _ & Hes & Hcls & _).
  intros el' Hel'. rewrite Hes in Hel'.
  apply list_elem_of_fmap in Hel' as (el & -> & Hel).
  unfold sum_votes_count. rewrite Hcls, e_id_bump_total_row.
  rewrite (sum_votes_count_bump_list _ _ _ _ cl0
             (candidate_lists_pkey s K) Hcl0 Hid0 He0).
  fold (sum_votes_count s (e_id el)). rewrite <- (T el Hel).
  unfold bump_total.
  destruct (decide (e_id el = v_election_id new)) as [Heq|Hne].
  - rewrite !bool_decide_eq_true_2 by congruence. reflexivity.
  - rewrite !bool_decide_eq_false_2 by congruence. simpl. lia.
Qed.

Lemma insert_vote_ballots_counted (j : jwt) (ret : bool) (new v : vote)
    (g : uuid) (s s' : db) :
  ballots_counted s -> insert_vote j ret new g s = Ok (v, s') ->
  ballots_counted s'.
Proof.
  intros B H.
  apply insert_vote_Ok in H as (_ & _ & _ & _ & _ & _ & Hvs & Hes & _).
  destruct (stored_row_keys new g) as (_ & _ & Ke & _).
  intros el' Hel'. rewrite Hes in Hel'.
  apply list_elem_of_fmap in Hel' as (el & -> & Hel).
  unfold ballots_of. rewrite Hvs, e_id_bump_total_row, filter_app, length_app.
  fold (ballots_of s (e_id el)). rewrite Nat2Z.inj_add, <- (B el Hel).
  rewrite filter_cons, filter_nil, Ke. unfold bump_total.
  destruct (decide (v_election_id new = e_id el)) as [Heq|Hne].
  - rewrite bool_decide_eq_true_2 by congruence. reflexivity.
  - rewrite bool_decide_eq_false_2 by congruence. simpl. lia.
Qed.

Lemma canonical_simulation_tally (j : jwt) (e : uuid) (d : gmap string jvalue)
    (s s' : db) :
  keys_unique s -> tally_consistent s ->
  (forall k v, d !! k = Some v -> canonical k) ->
  admin_apply_simulation j e d s = Ok s' -> tally_consistent s'.
Proof.
  intros K T Hcan H.
  apply admin_apply_simulation_Ok in H as (_ & _ & Hkeys & Hes & Hcls & _).
  assert (forall k v, d !! k = Some v ->
            exists cl, cl ∈ candidate_lists s /\ cl_id cl = k
                       /\ cl_election_id cl = e) as Hkeys'.
  { intros k v Hkv. destruct (Hkeys k v Hkv) as (u & cl & Hu & Hcl & Hid & He).
    rewrite (Hcan k v Hkv) in Hu. injection Hu as <-. eauto. }
  intros el' Hel'. rewrite Hes in Hel'.
  apply list_elem_of_fmap in Hel' as (el & -> & Hel).
  unfold sum_votes_count. rewrite Hcls, e_id_bump_total_row.
  rewrite (sum_votes_count_bump_by_distribution _ _ _ _
             (candidate_lists_pkey s K) Hkeys').
  fold (sum_votes_count s (e_id el)). rewrite <- (T el Hel).
  unfold bump_total.
  destruct (decide (e_id el = e)) as [Heq|Hne].
  - rewrite !bool_decide_eq_true_2 by congruence. reflexivity.
  - rewrite !bool_decide_eq_false_2 by congruence. simpl. lia.
Qed.

Lemma step_cast_or_simulation (s : db) (c : jwt * request) :
  keys_unique s -> tally_consistent s ->
  is_cast_vote c.2 = true \/ is_canonical_simulation c.2 ->
  tally_consistent (step s c)
  /\ (ballots_counted s -> is_cast_vote c.2 = true -> ballots_counted (step s c)).
Proof.
  intros K T Hc. destruct c as [j r]. unfold step. simpl in *.
  destruct (handle j r s) as [s'|err] eqn:H; [|auto].
  destruct r; simpl in Hc; try (destruct Hc; (discriminate || contradiction)).
  - simpl in H. apply fmap_Ok in H as ([v s1] & H & ->).
    apply cast_vote_Ok in H as (u & _ & H). simpl. split.
    + eapply insert_vote_tally; eassumption.
    + intros B _. eapply insert_vote_ballots_counted; eassumption.
  - simpl in H. destruct Hc as [Hc|Hc]; [discriminate|]. split.
    + eapply canonical_simulation_tally; eassumption.
    + intros _ Hcast. discriminate.
Qed.

(** C2, as the code has it: from a database whose keys are unique and whose
    election totals equal the sums of their lists' counters, every sequence
    of [cast_vote] calls and of simulated distributions with canonically
    spelled list ids keeps each election's total equal to the sum of its
    lists' counters.  The total equals the number of the election's ballots
    as long as only votes are cast: a simulated distribution adds to the
    counters and inserts no ballot. *)
Theorem tally_consistency (cs : list (jwt * request)) (s : db) :
  keys_unique s -> tally_consistent s ->
  Forall (fun c => is_cast_vote c.2 = true \/ is_canonical_simulation c.2) cs ->
  tally_consistent (run s cs)
  /\ (ballots_counted s -> Forall (fun c => is_cast_vote c.2 = true) cs ->
      ballots_counted (run s cs))
  /\ (forall j e d, votes (step s (j, ApplySimulatedDistribution e d)) = votes s).
Proof.
  intros K T Hcs. split; [|split].
  - revert s K T. induction Hcs as [|c cs Hc _ IH]; intros s K T; [exact T|].
    simpl. apply IH.
    + apply step_keys_unique, K.
    + apply (step_cast_or_simulation s c K T Hc).
  - intros B Hcast. revert s K T B Hcs.
    induction Hcast as [|c cs Hc _ IH]; intros s K T B Hcs; [exact B|].
    inversion Hcs as [|? ? Hc' Hcs']; subst. simpl. apply IH.
    + apply step_keys_unique, K.
    + apply (step_cast_or_simulation s c K T Hc').
    + apply (step_cast_or_simulation s c K T Hc'); assumption.
    + exact Hcs'.
  - intros j e d. unfold step. simpl.
    destruct (admin_apply_simulation j e d s) as [s'|err] eqn:H; [|reflexivity].
    apply admin_apply_simulation_Ok in H as (_ & _ & _ & _ & _ & Hvs & _).
    exact Hvs.
Qed.

Lemma demo_db_tally : tally_consistent demo_db /\ ballots_counted demo_db.
Proof.
  split; intros el Hel; simpl in Hel;
    repeat (apply elem_of_cons in Hel as [->|Hel]; [evaluate|]);
    inversion Hel.
Qed.

Lemma tally_consistency_witness :
  keys_unique demo_db /\ tally_consistent demo_db
  /\ tally_consistent
       (run demo_db
          [(voter U1, CastVote E1 L1 entropy1);
           (administrator,
            ApplySimulatedDistribution E1 {[L2 := JInt 7; L1 := JNull]});
           (voter U2, CastVote E2 L3 entropy2)]).
Proof.
  pose proof (reachable_keys_unique demo_db demo_db_reachable) as K.
  pose proof (proj1 demo_db_tally) as T.
  split; [exact K|]. split; [exact T|].
  apply (tally_consistency _ demo_db K T).
  apply Forall_cons. split; [left; reflexivity|].
  apply Forall_cons. split; [|apply Forall_cons; split;
                               [left; reflexivity | apply Forall_nil_2]].
  right. intros k v Hkv.
  apply lookup_insert_Some in Hkv as [[<- _]|[_ Hkv]].
  - evaluate.
  - apply lookup_singleton_Some in Hkv as [<- _]. evaluate.
Defined.

(** After one simulated distribution the total of E1 is 5 and E1 has no
    ballot: the total does not equal the number of ballot rows. *)
Lemma simulation_outruns_ballots :
  tally_consistent demo_db /\ ballots_counted demo_db
  /\ ~ ballots_counted
         (run demo_db
            [(administrator, ApplySimulatedDistribution E1 {[L1 := JInt 5]})]).
Proof.
  split; [apply demo_db_tally|]. split; [apply demo_db_tally|].
  intros B.
  specialize (B {| e_id := E1; status := voting_open; total_votes := 5 |}).
  assert (5 = 0)%Z as Habs; [|discriminate].
  apply B. vm_compute. apply list_elem_of_here.
Qed.

(** ** The administrative procedures *)

(** A caller for whom [is_admin()] is true resets an election: its ballots
    are gone, its lists and its total stand at zero, the rest is as it was. *)
Lemma admin_reset_clears (j : jwt) (e : uuid) (s : db) :
  is_admin j = Some true ->
  exists s', admin_reset_election_votes j e s = Ok s'
    /\ ballots_of s' e = []
    /\ (forall cl, cl ∈ candidate_lists s' -> cl_election_id cl = e ->
          votes_count cl = 0%Z)
    /\ (forall el, el ∈ elections s' -> e_id el = e -> total_votes el = 0%Z)
    /\ (forall v, v ∈ votes s -> v_election_id v <> e -> v ∈ votes s').
Proof.
  intros Hadm. unfold admin_reset_election_votes. rewrite Hadm. simpl.
  eexists. split; [reflexivity|]. simpl. repeat split.
  - unfold ballots_of. simpl.
    destruct (filter _ (filter _ (votes s))) as [|v vs] eqn:Hf; [reflexivity|].
    assert (v ∈ filter (fun v => v_election_id v = e)
                  (filter (fun v => v_election_id v <> e) (votes s))) as Hv.
    { rewrite Hf. apply list_elem_of_here. }
    apply list_elem_of_filter in Hv as [Heq Hv].
    apply list_elem_of_filter in Hv as [Hne _]. contradiction.
  - intros cl Hcl He. apply list_elem_of_fmap in Hcl as (cl0 & -> & _).
    case_bool_decide as Hc; [reflexivity | contradiction].
  - intros el Hel He. apply list_elem_of_fmap in Hel as (el0 & -> & _).
    case_bool_decide as Hc; [reflexivity | contradiction].
  - intros v Hv Hne. apply list_elem_of_filter. auto.
Qed.

(** A caller for whom [is_admin()] is false is refused by both procedures. *)
Lemma admin_procedures_refuse (j : jwt) (e : uuid) (d : gmap string jvalue)
    (s : db) :
  is_admin j = Some false ->
  admin_reset_election_votes j e s = Err Unauthorized
  /\ admin_apply_simulation j e d s = Err Unauthorized.
Proof.
  intros Hadm. unfold admin_reset_election_votes, admin_apply_simulation.
  rewrite Hadm. split; reflexivity.
Qed.

(** C5, evaluated where the code departs from it: the caller's roles claim
    is [null] alone, so the caller is no administrator, yet the guard
    [if not is_admin()] sees NULL and lets the reset run. *)
Theorem reset_by_null_role_user :
  is_admin null_role_user = None
  /\ (Some "administrator" ∉ jwt_roles null_role_user)
  /\ votes demo_db_voted <> []
  /\ exists s',
       admin_reset_election_votes null_role_user E1 demo_db_voted = Ok s'
       /\ votes s' = [] /\ s' <> demo_db_voted.
Proof.
  split; [evaluate|].
  split.
  { intros H. vm_compute in H.
    apply elem_of_cons in H as [H|H]; [discriminate | inversion H]. }
  split; [vm_compute; discriminate|].
  eexists. split; [evaluate|].
  split; [reflexivity|]. vm_compute. discriminate.
Qed.

(** A key that names no list of the election aborts the whole call. *)
Lemma simulation_unknown_list_aborts (j : jwt) (e : uuid)
    (d : gmap string jvalue) (s : db) (k : string) (v : jvalue) :
  d !! k = Some v ->
  (forall u cl, uuid_in k = Some u -> cl ∈ candidate_lists s -> cl_id cl = u ->
                cl_election_id cl <> e) ->
  is_ok (admin_apply_simulation j e d s) = false
  /\ step s (j, ApplySimulatedDistribution e d) = s.
Proof.
  intros Hkv Hno.
  destruct (admin_apply_simulation j e d s) as [s'|err] eqn:H.
  - apply admin_apply_simulation_Ok in H as (_ & _ & Hkeys & _).
    destruct (Hkeys k v Hkv) as (u & cl & Hu & Hcl & Hid & He).
    exfalso. apply (Hno u cl Hu Hcl Hid He).
  - split; [reflexivity|]. unfold step. simpl. rewrite H. reflexivity.
Qed.

(** C6, evaluated where the code departs from it.  First, the key is the
    id of L1 written in upper case: the loop accepts it as a list of E1 and
    adds its count to the total of E1; the update looks the list up under the
    lower-case text of its id and adds nothing to its counter.  Second, the
    caller's roles claim is [null] alone: the guard [if not is_admin()] sees
    NULL and lets a caller who is no administrator apply a distribution. *)
Theorem simulation_defects :
  (uuid_in "00000000-0000-0000-0000-0000000000A1" = Some L1
   /\ is_admin administrator = Some true
   /\ exists s',
        admin_apply_simulation administrator E1
          {["00000000-0000-0000-0000-0000000000A1" := JInt 5]} demo_db = Ok s'
        /\ candidate_lists s' = candidate_lists demo_db
        /\ elections s'
           = [set_total_votes 5 (open_election E1); open_election E2]
        /\ sum_votes_count s' E1 = 0%Z)
  /\ (is_admin null_role_user = None
      /\ exists s',
           admin_apply_simulation null_role_user E1 {[L1 := JInt 5]} demo_db
           = Ok s'
           /\ s' <> demo_db).
Proof.
  split; [|split; [evaluate|];
           eexists; split; [evaluate | vm_compute; discriminate]].
  split; [evaluate|]. split; [evaluate|].
  eexists. split; [evaluate|].
  repeat split.
Qed.

(** ** Ballots are never changed, and deleted only with their election *)

Lemma handle_votes (j : jwt) (r : request) (s s' : db) :
  handle j r s = Ok s' ->
  match deletes_election_ballots r with
  | None => exists added, votes s' = votes s ++ added
  | Some e =>
    votes s' = votes s
    \/ votes s' = filter (fun v => v_election_id v <> e) (votes s)
  end.
Proof.
  intros H. destruct r as [e l rnd|new g|c f|c|e d|e|new|id st|id|new|id];
    simpl in *.
  - apply fmap_Ok in H as ([v s1] & H & ->).
    apply cast_vote_Ok in H as (u & _ & H).
    apply insert_vote_Ok in H as (_ & _ & _ & _ & _ & _ & Hvs & _). eauto.
  - apply fmap_Ok in H as ([v s1] & H & ->).
    apply insert_vote_Ok in H as (_ & _ & _ & _ & _ & _ & Hvs & _). eauto.
  - apply update_votes_Ok in H as ->. nothing_added.
  - apply delete_votes_Ok in H as ->. nothing_added.
  - apply admin_apply_simulation_Ok in H as (_ & _ & _ & _ & _ & -> & _).
    nothing_added.
  - apply admin_reset_election_votes_Ok in H as (_ & -> & _). right. reflexivity.
  - unfold insert_election in H. destruct (negb _); [discriminate|].
    destruct (existsb _ _); [discriminate|]. injection H as <-.
    nothing_added.
  - injection H as <-. nothing_added.
  - unfold delete_election in H.
    destruct (holds _ && _); injection H as <-; [right|left]; reflexivity.
  - unfold insert_candidate_list in H. destruct (negb _); [discriminate|].
    destruct (existsb _ _); [discriminate|].
    destruct (negb _); [discriminate|]. injection H as <-.
    nothing_added.
  - unfold delete_candidate_lists in H.
    destruct (holds _); [destruct (existsb _ (votes s)); [discriminate|]|];
      injection H as <-; nothing_added.
Qed.

(** C8, as the code has it: whatever the caller, a request other than
    [admin_reset_election_votes] and the deletion of an election leaves
    every ballot in the table exactly as it was (rows are only ever added);
    those two requests leave the table as it was or remove, at once, all
    ballots of the election they name and no other; and a caller for whom
    [is_admin()] is false removes no ballot by any request. *)
Theorem ballots_deleted_only_with_election (s : db) (j : jwt) (r : request) :
  (deletes_election_ballots r = None ->
   exists added, votes (step s (j, r)) = votes s ++ added)
  /\ (forall e, deletes_election_ballots r = Some e ->
        votes (step s (j, r)) = votes s
        \/ votes (step s (j, r))
           = filter (fun v => v_election_id v <> e) (votes s))
  /\ (is_admin j = Some false ->
      exists added, votes (step s (j, r)) = votes s ++ added).
Proof.
  unfold step. simpl.
  destruct (handle j r s) as [s'|err] eqn:H.
  - pose proof (handle_votes j r s s' H) as Hv. split; [|split].
    + intros Hr. rewrite Hr in Hv. exact Hv.
    + intros e Hr. rewrite Hr in Hv. exact Hv.
    + intros Hadm.
      destruct r as [e l rnd|new g|c f|c|e d|e|new|id st|id|new|id];
        simpl in Hv; try exact Hv.
      * simpl in H.
        destruct (admin_procedures_refuse j e ∅ s Hadm) as [Hr _].
        rewrite Hr in H. discriminate.
      * simpl in H. unfold delete_election, elections_write in H.
        rewrite Hadm in H. simpl in H. injection H as <-.
        nothing_added.
  - split; [|split].
    + intros _. nothing_added.
    + intros e _. left. reflexivity.
    + intros _. nothing_added.
Qed.

Lemma ballots_deleted_witness :
  deletes_election_ballots (CastVote E1 L2 entropy2) = None
  /\ is_admin (voter U2) = Some false
  /\ exists added,
       votes (step demo_db_voted (voter U2, CastVote E1 L2 entropy2))
       = votes demo_db_voted ++ added.
Proof.
  split; [reflexivity|]. split; [evaluate|].
  apply (ballots_deleted_only_with_election demo_db_voted (voter U2)
           (CastVote E1 L2 entropy2)).
  reflexivity.
Defined.

(** Deleting election E1 removes U1's ballot, and the request is not a
    reset. *)
Lemma election_delete_removes_ballots :
  votes demo_db_voted <> []
  /\ votes (step demo_db_voted (administrator, DeleteElection E1)) = []
  /\ forall e, DeleteElection E1 <> ResetElectionVotes e.
Proof.
  split; [vm_compute; discriminate|].
  split; [evaluate|].
  intros e. discriminate.
Qed.

(** C10: the counts of a distribution are not validated.  A negative count
    for a list of the election is accepted and lowers the list's counter and
    the election's total below zero, and a null count adds nothing; in
    general a successful call moves every list of the election by the count
    held under its id, absent and null counting as zero, and the total by
    the sum of the counts, whatever their sign. *)
Theorem simulation_counts_not_validated :
  (exists s',
     admin_apply_simulation administrator E1
       {[L1 := JInt (-5); L2 := JNull]} demo_db = Ok s'
     /\ candidate_lists s'
        = [set_votes_count (-5) (empty_list L1 E1); empty_list L2 E1;
           empty_list L3 E2]
     /\ elections s'
        = [set_total_votes (-5) (open_election E1); open_election E2])
  /\ (forall j e d s s',
        admin_apply_simulation j e d s = Ok s' ->
        candidate_lists s' = bump_by_distribution e d <$> candidate_lists s
        /\ elections s' = bump_total e (sum_counts d) <$> elections s)
  /\ (forall z, in_int4 z = true -> cast_int (Some (JInt z)) = Ok (Some z))
  /\ cast_int (Some JNull) = Ok None
  /\ coalesce (None : option Z) 0%Z = 0%Z.
Proof.
  split.
  { eexists. split; [evaluate|]. split; reflexivity. }
  split.
  { intros j e d s s' H.
    apply admin_apply_simulation_Ok in H as (_ & _ & _ & Hes & Hcls & _).
    auto. }
  split.
  { intros z Hz. simpl. rewrite Hz. reflexivity. }
  split; reflexivity.
Qed.

Lemma simulation_counts_witness :
  in_int4 (-5) = true /\ cast_int (Some (JInt (-5))) = Ok (Some (-5)%Z).
Proof.
  split; [reflexivity|].
  apply (proj1 (proj2 (proj2 simulation_counts_not_validated))). reflexivity.
Defined.

(** * Further properties of the procedures *)

(** ** When a cast succeeds, and what it changes *)

Lemma mapM_Ok_intro {A B : Type} (f : A -> result B) (g : A -> B)
    (l : list A) :
  (forall a, a ∈ l -> f a = Ok (g a)) -> mapM f l = Ok (g <$> l).
Proof.
  induction l as [|a l IH]; intros Hf; [reflexivity|].
  simpl. rewrite (Hf a) by apply list_elem_of_here. simpl.
  rewrite IH; [reflexivity|].
  intros a' Ha'. apply Hf, list_elem_of_further, Ha'.
Qed.

(** A [mapM] whose function can only fail with [err] fails with [err] as soon
    as it fails on some member. *)
Lemma mapM_Err_intro {A B : Type} (f : A -> result B) (err : pg_error)
    (l : list A) (a : A) :
  (forall x e, f x = Err e -> e = err) -> a ∈ l -> f a = Err err ->
  mapM f l = Err err.
Proof.
  intros Honly. induction l as [|x l IH]; intros Hin Hfa; [inversion Hin|].
  simpl. destruct (f x) as [b|e] eqn:Hfx; simpl.
  - apply elem_of_cons in Hin as [->|Hin]; [congruence|].
    rewrite (IH Hin Hfa). reflexivity.
  - rewrite (Honly x e Hfx). reflexivity.
Qed.

Lemma mapM_Err_only {A B : Type} (f : A -> result B) (err e : pg_error)
    (l : list A) :
  (forall x e', f x = Err e' -> e' = err) -> mapM f l = Err e -> e = err.
Proof.
  intros Honly. induction l as [|x l IH]; simpl; [discriminate|].
  destruct (f x) as [b|e'] eqn:Hfx; simpl.
  - destruct (mapM f l) as [bs|e'']; simpl; [discriminate|].
    intros [= <-]. apply IH. reflexivity.
  - intros [= <-]. apply (Honly x e' Hfx).
Qed.

Lemma int4_add_Err (a b : Z) (e : pg_error) :
  int4_add a b = Err e -> e = numeric_value_out_of_range.
Proof.
  unfold int4_add. destruct (in_int4 (a + b)); [discriminate|].
  intros [= <-]. reflexivity.
Qed.

Lemma bump_total_Err (p : uuid) (n : Z) (x : election) (e : pg_error) :
  (if bool_decide (e_id x = p)
   then m ← int4_add (total_votes x) n; Ok (set_total_votes m x)
   else Ok x) = Err e ->
  e = numeric_value_out_of_range.
Proof.
  case_bool_decide; [|discriminate].
  destruct (int4_add (total_votes x) n) as [m|e'] eqn:Ha; simpl; [discriminate|].
  intros [= <-]. apply (int4_add_Err _ _ _ Ha).
Qed.

Lemma bump_list_Err (l : uuid) (n : Z) (x : candidate_list) (e : pg_error) :
  (if bool_decide (cl_id x = l)
   then m ← int4_add (votes_count x) n; Ok (set_votes_count m x)
   else Ok x) = Err e ->
  e = numeric_value_out_of_range.
Proof.
  case_bool_decide; [|discriminate].
  destruct (int4_add (votes_count x) n) as [m|e'] eqn:Ha; simpl; [discriminate|].
  intros [= <-]. apply (int4_add_Err _ _ _ Ha).
Qed.

(** The checks of [insert_vote] that a fresh row passes. *)
Lemma fresh_row_checks (s : db) (new : vote) :
  (forall w, w ∈ votes s ->
     v_id w <> v_id new
     /\ ~ (user_id w = user_id new /\ v_election_id w = v_election_id new)
     /\ receipt_hash w <> receipt_hash new) ->
  existsb (fun v => bool_decide (v_id v = v_id new)) (votes s) = false
  /\ existsb
       (fun v => bool_decide (user_id v = user_id new)
                 && bool_decide (v_election_id v = v_election_id new))
       (votes s) = false
  /\ existsb (fun v => bool_decide (receipt_hash v = receipt_hash new))
       (votes s) = false.
Proof.
  intros Hfresh. repeat split; apply existsb_false; intros w Hw;
    destruct (Hfresh w Hw) as (Hid & Hpair & Hrec).
  - apply bool_decide_eq_false. exact Hid.
  - apply andb_false_iff.
    destruct (decide (user_id w = user_id new)) as [Hu|Hu].
    + right. apply bool_decide_eq_false. intros He. apply Hpair. auto.
    + left. apply bool_decide_eq_false. exact Hu.
  - apply bool_decide_eq_false. exact Hrec.
Qed.

(** X1: a signed-in caller who has not voted in an open election, naming a
    list of that election, with fresh draws and counters below the top of
    [integer], casts successfully: the returned row is the caller's ballot
    with the drawn receipt, the table gains exactly that row, and the
    election's total and the list's counter grow by one. *)
Theorem cast_vote_succeeds (j : jwt) (s : db) (u e l : uuid) (rnd : entropy)
    (el : election) (cl : candidate_list) :
  auth_role j = "authenticated" -> auth_uid j = Some u ->
  el ∈ elections s -> e_id el = e -> status el = voting_open ->
  cl ∈ candidate_lists s -> cl_id cl = l -> cl_election_id cl = e ->
  u ∈ users s ->
  make_receipt (receipt_uuid rnd) <> "" ->
  (forall w, w ∈ votes s ->
     v_id w <> id_uuid rnd
     /\ ~ (user_id w = u /\ v_election_id w = e)
     /\ receipt_hash w <> make_receipt (receipt_uuid rnd)) ->
  (forall x, x ∈ elections s -> e_id x = e ->
     in_int4 (total_votes x + 1) = true) ->
  (forall x, x ∈ candidate_lists s -> cl_id x = l ->
     in_int4 (votes_count x + 1) = true) ->
  cast_vote j e l rnd s = Ok (ballot u e l rnd, after_cast u e l rnd s).
Proof.
  intros Hrole Hu Hel Hid Hst Hcl Hcid Hce Huser Hrec Hfresh Htot Hcnt.
  unfold cast_vote. rewrite Hu. fold (ballot u e l rnd). unfold insert_vote.
  rewrite (votes_insert_intro j s (ballot u e l rnd) el cl)
    by assumption.
  rewrite (votes_select_own j (ballot u e l rnd)) by exact Hu.
  cbn [andb negb orb].
  destruct (fresh_row_checks s (ballot u e l rnd) Hfresh) as (-> & -> & ->).
  assert (existsb
            (fun e0 => bool_decide (e_id e0 = v_election_id (ballot u e l rnd)))
            (elections s) = true) as ->.
  { apply existsb_true. exists el. split; [exact Hel|].
    apply bool_decide_eq_true. exact Hid. }
  assert (existsb (fun u0 => bool_decide (u0 = user_id (ballot u e l rnd)))
            (users s) = true) as ->.
  { apply existsb_true. exists u. split; [exact Huser|].
    apply bool_decide_eq_true. reflexivity. }
  assert (existsb
            (fun cl' =>
               bool_decide (cl_id cl' = candidate_list_id (ballot u e l rnd))
               && bool_decide
                    (cl_election_id cl' = v_election_id (ballot u e l rnd)))
            (candidate_lists s) = true) as ->.
  { apply existsb_true. exists cl. split; [exact Hcl|].
    rewrite !bool_decide_eq_true_2 by assumption. reflexivity. }
  cbn [negb]. unfold votes_after_insert.
  rewrite bool_decide_eq_false_2.
  2:{ simpl. intros Hlen. apply Hrec.
      destruct (make_receipt (receipt_uuid rnd)); [reflexivity|discriminate]. }
  simpl.
  rewrite (mapM_Ok_intro _ (bump_total e 1)).
  2:{ intros x Hx. unfold bump_total. case_bool_decide as Hx'; [|reflexivity].
      unfold int4_add. rewrite (Htot x Hx Hx'). reflexivity. }
  simpl.
  rewrite (mapM_Ok_intro _ (bump_list l 1)).
  2:{ intros x Hx. unfold bump_list. case_bool_decide as Hx'; [|reflexivity].
      unfold int4_add. rewrite (Hcnt x Hx Hx'). reflexivity. }
  reflexivity.
Qed.

Lemma cast_vote_succeeds_witness :
  cast_vote (voter U1) E1 L1 entropy1 demo_db
  = Ok (ballot U1 E1 L1 entropy1, after_cast U1 E1 L1 entropy1 demo_db).
Proof.
  apply (cast_vote_succeeds (voter U1) demo_db U1 E1 L1 entropy1
           (open_election E1) (empty_list L1 E1)); try reflexivity.
  - apply list_elem_of_here.
  - apply list_elem_of_here.
  - apply list_elem_of_here.
  - vm_compute. discriminate.
  - intros w Hw. inversion Hw.
  - intros x Hx _. simpl in Hx.
    repeat (apply elem_of_cons in Hx as [->|Hx]; [reflexivity|]). inversion Hx.
  - intros x Hx _. simpl in Hx.
    repeat (apply elem_of_cons in Hx as [->|Hx]; [reflexivity|]). inversion Hx.
Defined.

Lemma elem_of_bump_total_ne (p : uuid) (n : Z) (es : list election)
    (x : election) :
  x ∈ es -> e_id x <> p -> x ∈ bump_total p n <$> es.
Proof.
  intros Hx Hne. apply list_elem_of_fmap. exists x. split; [|exact Hx].
  unfold bump_total. rewrite bool_decide_eq_false_2 by exact Hne. reflexivity.
Qed.

Lemma elem_of_bump_list_ne (l : uuid) (n : Z) (cls : list candidate_list)
    (x : candidate_list) :
  x ∈ cls -> cl_id x <> l -> x ∈ bump_list l n <$> cls.
Proof.
  intros Hx Hne. apply list_elem_of_fmap. exists x. split; [|exact Hx].
  unfold bump_list. rewrite bool_decide_eq_false_2 by exact Hne. reflexivity.
Qed.

(** X2: a successful cast touches nothing but the two counters it names: the
    rows of other elections and of other lists, every status, the users and
    every ballot already in the table are as before; the row added is the
    returned one (with the trigger's receipt, had it come without one), and
    it carries the id of the session, whatever the client holds. *)
Theorem cast_vote_frame (j : jwt) (s s' : db) (e l : uuid) (rnd : entropy)
    (v : vote) :
  cast_vote j e l rnd s = Ok (v, s') ->
  auth_uid j = Some (user_id v)
  /\ v_election_id v = e /\ candidate_list_id v = l
  /\ votes s' = votes s ++ [stored_row v (trigger_uuid rnd)]
  /\ (forall x, x ∈ elections s -> e_id x <> e -> x ∈ elections s')
  /\ (forall x, x ∈ candidate_lists s -> cl_id x <> l -> x ∈ candidate_lists s')
  /\ status <$> elections s' = status <$> elections s
  /\ cl_election_id <$> candidate_lists s' = cl_election_id <$> candidate_lists s
  /\ users s' = users s.
Proof.
  intros Hc. apply cast_vote_Ok in Hc as (u & Hu & Hc).
  apply insert_vote_Ok in Hc
    as (-> & _ & _ & _ & _ & _ & Hvs & Hes & Hcls & Hus).
  simpl in Hes, Hcls. repeat split; try assumption.
  - intros x Hx Hne. rewrite Hes. apply elem_of_bump_total_ne; assumption.
  - intros x Hx Hne. rewrite Hcls. apply elem_of_bump_list_ne; assumption.
  - rewrite Hes. apply fmap_same. intros x. unfold bump_total.
    case_bool_decide; reflexivity.
  - rewrite Hcls. apply fmap_same. intros x. unfold bump_list.
    case_bool_decide; reflexivity.
Qed.

Lemma cast_vote_frame_witness :
  is_ok (cast_vote (voter U2) E1 L2 entropy2 demo_db_voted) = true
  /\ forall v s',
       cast_vote (voter U2) E1 L2 entropy2 demo_db_voted = Ok (v, s') ->
       user_id v = U2 /\ votes s' = votes demo_db_voted ++ [v].
Proof.
  split; [evaluate|]. intros v s' Hc.
  pose proof (cast_vote_frame _ _ _ _ _ _ _ Hc) as (Hu & _ & _ & Hvs & _).
  split; [injection Hu as <-; reflexivity|].
  rewrite Hvs. vm_compute in Hc. injection Hc as <- _. reflexivity.
Defined.

(** ** Errors of a cast *)

(** X3: a cast that every check lets through fails with 22003 (integer out of
    range) when the election's total or the list's counter stands at the top
    of [integer]; the trigger's failure undoes the insert. *)
Theorem cast_vote_counter_overflow (j : jwt) (s : db) (u e l : uuid)
    (rnd : entropy) (el : election) (cl : candidate_list) :
  auth_role j = "authenticated" -> auth_uid j = Some u ->
  el ∈ elections s -> e_id el = e -> status el = voting_open ->
  cl ∈ candidate_lists s -> cl_id cl = l -> cl_election_id cl = e ->
  u ∈ users s ->
  make_receipt (receipt_uuid rnd) <> "" ->
  (forall w, w ∈ votes s ->
     v_id w <> id_uuid rnd
     /\ ~ (user_id w = u /\ v_election_id w = e)
     /\ receipt_hash w <> make_receipt (receipt_uuid rnd)) ->
  total_votes el = int4_max \/ votes_count cl = int4_max ->
  cast_vote j e l rnd s = Err numeric_value_out_of_range
  /\ step s (j, CastVote e l rnd) = s.
Proof.
  intros Hrole Hu Hel Hid Hst Hcl Hcid Hce Huser Hrec Hfresh Hmax.
  assert (cast_vote j e l rnd s = Err numeric_value_out_of_range) as Hc.
  { unfold cast_vote. rewrite Hu. fold (ballot u e l rnd). unfold insert_vote.
    rewrite (votes_insert_intro j s (ballot u e l rnd) el cl) by assumption.
    rewrite (votes_select_own j (ballot u e l rnd)) by exact Hu.
    cbn [andb negb orb].
    destruct (fresh_row_checks s (ballot u e l rnd) Hfresh) as (-> & -> & ->).
    assert (existsb
              (fun e0 => bool_decide
                           (e_id e0 = v_election_id (ballot u e l rnd)))
              (elections s) = true) as ->.
    { apply existsb_true. exists el. split; [exact Hel|].
      apply bool_decide_eq_true. exact Hid. }
    assert (existsb (fun u0 => bool_decide (u0 = user_id (ballot u e l rnd)))
              (users s) = true) as ->.
    { apply existsb_true. exists u. split; [exact Huser|].
      apply bool_decide_eq_true. reflexivity. }
    assert (existsb
              (fun cl' =>
                 bool_decide (cl_id cl' = candidate_list_id (ballot u e l rnd))
                 && bool_decide
                      (cl_election_id cl' = v_election_id (ballot u e l rnd)))
              (candidate_lists s) = true) as ->.
    { apply existsb_true. exists cl. split; [exact Hcl|].
      rewrite !bool_decide_eq_true_2 by assumption. reflexivity. }
    cbn [negb]. unfold votes_after_insert.
    rewrite bool_decide_eq_false_2.
    2:{ simpl. intros Hlen. apply Hrec.
        destruct (make_receipt (receipt_uuid rnd)); [reflexivity|discriminate]. }
    simpl.
    destruct Hmax as [Hmax|Hmax].
    - rewrite (mapM_Err_intro _ numeric_value_out_of_range _ el);
        [reflexivity|apply bump_total_Err|exact Hel|].
      rewrite bool_decide_eq_true_2 by exact Hid.
      unfold int4_add. rewrite Hmax. reflexivity.
    - destruct (mapM _ (elections s)) as [es|err] eqn:Hes; simpl.
      + rewrite (mapM_Err_intro _ numeric_value_out_of_range _ cl);
          [reflexivity|apply bump_list_Err|exact Hcl|].
        rewrite bool_decide_eq_true_2 by exact Hcid.
        unfold int4_add. rewrite Hmax. reflexivity.
      + apply (mapM_Err_only _ numeric_value_out_of_range) in Hes as ->;
          [reflexivity|apply bump_total_Err]. }
  split; [exact Hc|]. unfold step. simpl. rewrite Hc. reflexivity.
Qed.


(** [demo_db] with the total of E1 at the top of [integer]. *)
Lemma cast_vote_counter_overflow_witness :
  let full :=
    with_elections [set_total_votes int4_max (open_election E1);
                    open_election E2] demo_db in
  cast_vote (voter U1) E1 L1 entropy1 full = Err numeric_value_out_of_range.
Proof.
  intros full.
  apply (cast_vote_counter_overflow (voter U1) full U1 E1 L1 entropy1
           (set_total_votes int4_max (open_election E1)) (empty_list L1 E1));
    try reflexivity.
  - apply list_elem_of_here.
  - apply list_elem_of_here.
  - apply list_elem_of_here.
  - vm_compute. discriminate.
  - intros w Hw. inversion Hw.
  - left. reflexivity.
Defined.

Lemma votes_after_insert_Err (new : vote) (g : uuid) (s : db) (err : pg_error) :
  votes_after_insert new g s = Err err ->
  err = unique_violation "votes_receipt_hash_idx"
  \/ err = numeric_value_out_of_range.
Proof.
  unfold votes_after_insert.
  destruct (if bool_decide (String.length (receipt_hash new) = 0%nat)
            then _ else _) as [s1|e1] eqn:H1; simpl.
  - intros H. right.
    destruct (mapM _ (elections s1)) as [es|e2] eqn:Hes; simpl in H.
    + destruct (mapM _ (candidate_lists s1)) as [cls|e3] eqn:Hcls; simpl in H;
        [discriminate|]. injection H as <-.
      apply (mapM_Err_only _ numeric_value_out_of_range) in Hcls;
        [exact Hcls|apply bump_list_Err].
    + injection H as <-.
      apply (mapM_Err_only _ numeric_value_out_of_range) in Hes;
        [exact Hes|apply bump_total_Err].
  - intros [= <-]. left. revert H1. case_bool_decide; [|discriminate].
    destruct (existsb _ (votes s)); [|discriminate]. intros [= <-]. reflexivity.
Qed.

(** X4: whatever the caller and the database, a failed cast carries one of
    four errors: the policy's rejection, 'Ya existe un voto' for any of the
    unique indexes, 'Lista de candidatos no válida' for any of the foreign
    keys, or integer out of range from the trigger; and it leaves the
    database as it was. *)
Theorem cast_vote_errors (j : jwt) (s : db) (e l : uuid) (rnd : entropy)
    (err : pg_error) :
  cast_vote j e l rnd s = Err err ->
  err ∈ [row_security_violation "votes"; AlreadyVoted; InvalidList;
         numeric_value_out_of_range]
  /\ sqlstate err ∈ ["42501"; "23505"; "23503"; "22003"]
  /\ step s (j, CastVote e l rnd) = s.
Proof.
  intros Hc.
  assert (err ∈ [row_security_violation "votes"; AlreadyVoted; InvalidList;
                 numeric_value_out_of_range]) as Hin.
  { revert Hc. unfold cast_vote.
    destruct (auth_uid j) as [u|]; [|intros [= <-]; apply list_elem_of_here].
    fold (ballot u e l rnd).
    destruct (insert_vote j true (ballot u e l rnd) (trigger_uuid rnd) s)
      as [r|e0] eqn:Hi; [discriminate|].
    assert (e0 = row_security_violation "votes"
            \/ (exists c, e0 = unique_violation c)
            \/ (exists c, e0 = foreign_key_violation c)
            \/ e0 = numeric_value_out_of_range) as He0.
    { revert Hi. unfold insert_vote.
      repeat (match goal with
              | |- context [if ?b then _ else _] =>
                destruct b; [intros [= <-]; eauto 6|]
              end).
      destruct (votes_after_insert _ _ _) as [s1|e1] eqn:Ht; simpl;
        [discriminate|]. intros [= <-].
      apply votes_after_insert_Err in Ht as [-> | ->]; eauto 6. }
    destruct He0 as [-> | [[c ->] | [[c ->] | ->]]]; intros [= <-].
    - apply list_elem_of_here.
    - apply list_elem_of_further, list_elem_of_here.
    - do 2 apply list_elem_of_further. apply list_elem_of_here.
    - do 3 apply list_elem_of_further. apply list_elem_of_here. }
  split; [exact Hin|]. split.
  - repeat (apply elem_of_cons in Hin as [->|Hin];
            [simpl; set_solver|]). inversion Hin.
  - unfold step. simpl. rewrite Hc. reflexivity.
Qed.

Lemma cast_vote_errors_witness :
  cast_vote (voter U1) E1 L2 entropy2 demo_db_voted = Err AlreadyVoted
  /\ sqlstate AlreadyVoted ∈ ["42501"; "23505"; "23503"; "22003"].
Proof.
  assert (cast_vote (voter U1) E1 L2 entropy2 demo_db_voted = Err AlreadyVoted)
    as Hc; [evaluate|].
  split; [exact Hc|]. apply (cast_vote_errors _ _ _ _ _ _ Hc).
Defined.

(** X5: the handler answers every unique violation alike.  A voter without
    a ballot in the election, whose row the policy lets through and whose id
    is fresh, is told 'Ya existe un voto' when the drawn receipt is already
    held by some ballot. *)
Theorem receipt_collision_reported_as_already_voted (j : jwt) (s : db)
    (u e l : uuid) (rnd : entropy) (w : vote) :
  auth_uid j = Some u ->
  votes_insert j s (ballot u e l rnd) = true ->
  ballots_of_voter s u e = [] ->
  w ∈ votes s -> receipt_hash w = make_receipt (receipt_uuid rnd) ->
  cast_vote j e l rnd s = Err AlreadyVoted.
Proof.
  intros Hu Hpol Hnone Hw Hrec.
  unfold cast_vote. rewrite Hu. fold (ballot u e l rnd). unfold insert_vote.
  rewrite Hpol, (votes_select_own j (ballot u e l rnd)) by exact Hu.
  cbn [andb negb orb].
  destruct (existsb _ (votes s)); [reflexivity|].
  destruct (existsb _ (votes s)); [reflexivity|].
  assert (existsb
            (fun v => bool_decide
                        (receipt_hash v = receipt_hash (ballot u e l rnd)))
            (votes s) = true) as ->; [|reflexivity].
  apply existsb_true. exists w. split; [exact Hw|].
  apply bool_decide_eq_true. exact Hrec.
Qed.

Lemma receipt_collision_witness :
  ballots_of_voter demo_db_voted U2 E1 = []
  /\ cast_vote (voter U2) E1 L2
       {| id_uuid := id_uuid entropy2; receipt_uuid := receipt_uuid entropy1;
          trigger_uuid := trigger_uuid entropy2 |} demo_db_voted
     = Err AlreadyVoted.
Proof.
  assert (ballots_of_voter demo_db_voted U2 E1 = []) as Hnone; [evaluate|].
  split; [exact Hnone|].
  apply (receipt_collision_reported_as_already_voted (voter U2) demo_db_voted
           U2 E1 L2 _ (ballot U1 E1 L1 entropy1)).
  - reflexivity.
  - evaluate.
  - exact Hnone.
  - vm_compute. apply list_elem_of_here.
  - reflexivity.
Defined.

Lemma visible_elections_none (j : jwt) (s : db) :
  auth_role j <> "authenticated" -> is_admin j <> Some true ->
  visible_elections j s = [].
Proof.
  intros Hrole Hadm. unfold visible_elections, elections_select, elections_write.
  rewrite bool_decide_eq_false_2 by exact Hrole.
  assert (holds (sql_or (Some false) (is_admin j)) = false) as ->.
  { destruct (is_admin j) as [[]|]; [congruence|reflexivity|reflexivity]. }
  induction (elections s) as [|x xs IH]; [reflexivity|].
  rewrite filter_cons_False; [exact IH|]. intros H. exact H.
Qed.

(** X6: callers who cannot vote.  For a caller without a session id, and
    for a caller whose role is not 'authenticated' and for whom [is_admin()]
    is not true, [cast_vote] is refused by the insert policy and changes
    nothing, and the hook's [castVote] never reports success, returns no id
    and leaves the database as it was.  The second kind of caller reads no
    election: [checkEligibility] is false and the hook reports the election
    as not available.  (A caller without a session id whose role is
    'authenticated' does read the elections; the hook then shows what the
    cache or the refusal of [cast_vote] gives, never success.) *)
Theorem outsiders_cannot_vote (j : jwt) (s : db) (e l : uuid) (rnd : entropy) :
  auth_uid j = None
  \/ (auth_role j <> "authenticated" /\ is_admin j <> Some true) ->
  cast_vote j e l rnd s = Err (row_security_violation "votes")
  /\ step s (j, CastVote e l rnd) = s
  /\ (forall cache userId,
        exists t cache',
          castVote cache j s e l userId rnd = (t, None, cache', s)
          /\ t <> toast_success)
  /\ (auth_role j <> "authenticated" -> is_admin j <> Some true ->
      checkEligibility j s e = false
      /\ forall cache userId,
           castVote cache j s e l userId rnd
           = (toast_not_available, None, cache, s)).
Proof.
  intros Hout.
  destruct (cast_vote_policy_rejection j s e l rnd) as [Hc Hs].
  { intros u Hu. destruct Hout as [Hnone|[Hrole Hadm]]; [congruence|].
    unfold votes_insert. rewrite Hu, (visible_elections_none j s Hrole Hadm).
    simpl. rewrite andb_false_r. reflexivity. }
  split; [exact Hc|]. split; [exact Hs|]. split.
  { intros cache uid. unfold castVote.
    destruct (checkEligibility j s e); cbn [negb].
    2:{ exists toast_not_available, cache. split; [reflexivity|discriminate]. }
    destruct (hasAlreadyVoted cache j s e uid) as [[] c].
    { exists toast_already_voted, c. split; [reflexivity|discriminate]. }
    rewrite Hc. exists toast_error, c. split; [reflexivity|discriminate]. }
  intros Hrole Hadm.
  assert (checkEligibility j s e = false) as Hce.
  { unfold checkEligibility. rewrite (visible_elections_none j s Hrole Hadm).
    reflexivity. }
  split; [exact Hce|]. intros cache uid. unfold castVote. rewrite Hce.
  reflexivity.
Qed.

Lemma outsiders_cannot_vote_witness :
  let anon := {| role := "anon"; sub := None; app_metadata_roles := None;
                 user_metadata_roles := None |} in
  cast_vote anon E1 L1 entropy1 demo_db = Err (row_security_violation "votes")
  /\ checkEligibility anon demo_db E1 = false.
Proof.
  intros anon.
  destruct (outsiders_cannot_vote anon demo_db E1 L1 entropy1)
    as (Hc & _ & _ & H).
  { left. reflexivity. }
  split; [exact Hc|]. apply H; [discriminate | vm_compute; discriminate].
Defined.

(** ** Rows inserted without a receipt *)

(** X7: a row inserted into [votes] with an empty receipt is stored with the
    receipt the trigger draws, which no other ballot holds, while the row
    handed back to the statement is the one that was sent. *)
Theorem trigger_assigns_missing_receipt (j : jwt) (ret : bool) (new v : vote)
    (g : uuid) (s s' : db) :
  receipt_hash new = "" ->
  insert_vote j ret new g s = Ok (v, s') ->
  v = new
  /\ votes s' = votes s ++ [set_receipt_hash (make_receipt g) new]
  /\ forall w, w ∈ votes s -> receipt_hash w <> make_receipt g.
Proof.
  intros Hempty H.
  apply insert_vote_Ok in H as (-> & _ & _ & _ & Hrec & _ & Hvs & _).
  unfold stored_row in Hrec, Hvs. rewrite Hempty in Hrec, Hvs.
  simpl in Hrec, Hvs. auto.
Qed.

Lemma trigger_assigns_missing_receipt_witness :
  let new := {| v_id := id_uuid entropy1; v_election_id := E1;
                candidate_list_id := L1; user_id := U1; receipt_hash := "" |} in
  exists s',
    insert_vote (voter U1) false new (trigger_uuid entropy1) demo_db
    = Ok (new, s')
    /\ receipt_hash <$> votes s' = ["000000000000000000000000000000f1"].
Proof.
  intros new.
  destruct (insert_vote (voter U1) false new (trigger_uuid entropy1) demo_db)
    as [[v s']|err] eqn:Hi; [|vm_compute in Hi; discriminate].
  destruct (trigger_assigns_missing_receipt (voter U1) false new v
              (trigger_uuid entropy1) demo_db s' eq_refl Hi)
    as (-> & Hvs & _).
  exists s'. split; [reflexivity|]. rewrite Hvs. reflexivity.
Defined.

(** ** The foreign keys hold in every reachable database *)

Lemma insert_vote_user (j : jwt) (ret : bool) (new v : vote) (g : uuid)
    (s s' : db) :
  insert_vote j ret new g s = Ok (v, s') ->
  user_id new ∈ users s
  /\ exists el, el ∈ elections s /\ e_id el = v_election_id new.
Proof.
  unfold insert_vote. intros H.
  destruct (negb (votes_insert j s new && _)); [discriminate|].
  destruct (existsb _ (votes s)); [discriminate|].
  destruct (existsb _ (votes s)); [discriminate|].
  destruct (existsb _ (votes s)); [discriminate|].
  destruct (existsb _ (elections s)) eqn:He; simpl in H; [|discriminate].
  destruct (existsb _ (users s)) eqn:Hu; simpl in H; [|discriminate].
  apply existsb_true in Hu as (u & Hu & Hp). apply bool_decide_eq_true in Hp.
  apply existsb_true in He as (el & Hel & Hq). apply bool_decide_eq_true in Hq.
  subst u. eauto.
Qed.

Lemma elem_of_fmap_key {A : Type} (f : A -> uuid) (g : A -> A) (l : list A)
    (k : uuid) :
  (forall a, f (g a) = f a) ->
  (exists a, a ∈ l /\ f a = k) -> exists a, a ∈ g <$> l /\ f a = k.
Proof.
  intros Hg (a & Ha & Hk). exists (g a). split.
  - apply list_elem_of_fmap. eauto.
  - rewrite Hg. exact Hk.
Qed.

(** Rewriting the counters of the rows keeps every reference in place. *)
Lemma references_ok_counters (s s' : db) (f : election -> election)
    (g : candidate_list -> candidate_list) :
  (forall el, e_id (f el) = e_id el) ->
  (forall cl, cl_id (g cl) = cl_id cl) ->
  (forall cl, cl_election_id (g cl) = cl_election_id cl) ->
  elections s' = f <$> elections s ->
  candidate_lists s' = g <$> candidate_lists s ->
  users s' = users s ->
  (forall v, v ∈ votes s' ->
     v ∈ votes s
     \/ (user_id v ∈ users s
         /\ exists cl, cl ∈ candidate_lists s /\ cl_id cl = candidate_list_id v
                       /\ cl_election_id cl = v_election_id v)) ->
  references_ok s -> references_ok s'.
Proof.
  intros Hf Hg1 Hg2 Hes Hcls Hus Hvs [R1 R2 R3].
  assert (forall v, v ∈ votes s' ->
            user_id v ∈ users s
            /\ exists cl, cl ∈ candidate_lists s
                          /\ cl_id cl = candidate_list_id v
                          /\ cl_election_id cl = v_election_id v) as Hv.
  { intros v Hv. destruct (Hvs v Hv) as [Hold|Hnew]; [|exact Hnew].
    split; [apply R3; exact Hold | apply R2; exact Hold]. }
  split.
  - intros cl Hcl. rewrite Hcls in Hcl.
    apply list_elem_of_fmap in Hcl as (cl0 & -> & Hcl0).
    destruct (R1 cl0 Hcl0) as (el & Hel & Hid).
    exists (f el). rewrite Hes, Hf, Hg2. split; [|exact Hid].
    apply list_elem_of_fmap. eauto.
  - intros v Hin. destruct (Hv v Hin) as (_ & cl & Hcl & Hid & He).
    exists (g cl). rewrite Hcls, Hg1, Hg2. split; [|auto].
    apply list_elem_of_fmap. eauto.
  - intros v Hin. rewrite Hus. apply (Hv v Hin).
Qed.

Lemma insert_vote_references_ok (j : jwt) (ret : bool) (new v : vote)
    (g : uuid) (s s' : db) :
  references_ok s -> insert_vote j ret new g s = Ok (v, s') -> references_ok s'.
Proof.
  intros R H. pose proof (insert_vote_user _ _ _ _ _ _ _ H) as [Hu _].
  apply insert_vote_Ok in H
    as (_ & _ & _ & _ & _ & Hlist & Hvs & Hes & Hcls & Hus).
  destruct (stored_row_keys new g) as (_ & Ku & Ke & Kl).
  apply (references_ok_counters s s' (bump_total (v_election_id new) 1)
           (bump_list (candidate_list_id new) 1)); try assumption.
  - intros el. unfold bump_total. case_bool_decide; reflexivity.
  - intros cl. unfold bump_list. case_bool_decide; reflexivity.
  - intros cl. unfold bump_list. case_bool_decide; reflexivity.
  - intros w Hw. rewrite Hvs in Hw.
    apply elem_of_app in Hw as [Hw|Hw]; [left; exact Hw|].
    apply list_elem_of_singleton in Hw as ->. right.
    rewrite Ku, Ke, Kl. auto.
Qed.

Lemma handle_references_ok (j : jwt) (r : request) (s s' : db) :
  references_ok s -> handle j r s = Ok s' -> references_ok s'.
Proof.
  intros R H. destruct r as [e l rnd|new g|c f|c|e d|e|new|id st|id|new|id];
    simpl in H.
  - apply fmap_Ok in H as ([v s1] & H & ->).
    apply cast_vote_Ok in H as (u & _ & H).
    eapply insert_vote_references_ok; eassumption.
  - apply fmap_Ok in H as ([v s1] & H & ->).
    eapply insert_vote_references_ok; eassumption.
  - apply update_votes_Ok in H as ->. exact R.
  - apply delete_votes_Ok in H as ->. exact R.
  - apply admin_apply_simulation_Ok in H
      as (_ & _ & _ & Hes & Hcls & Hvs & Hus).
    apply (references_ok_counters s s' (bump_total e (sum_counts d))
             (bump_by_distribution e d)); try assumption.
    + intros el. unfold bump_total. case_bool_decide; reflexivity.
    + intros cl. unfold bump_by_distribution. case_bool_decide; reflexivity.
    + intros cl. unfold bump_by_distribution. case_bool_decide; reflexivity.
    + intros v Hv. left. rewrite <- Hvs. exact Hv.
  - apply admin_reset_election_votes_Ok in H as (_ & Hvs & Hcls & Hes & Hus).
    eapply (references_ok_counters s s'); try eassumption.
    + intros el. simpl. case_bool_decide; reflexivity.
    + intros cl. simpl. case_bool_decide; reflexivity.
    + intros cl. simpl. case_bool_decide; reflexivity.
    + intros v Hv. left. rewrite Hvs in Hv.
      apply list_elem_of_filter in Hv as [_ Hv]. exact Hv.
  - unfold insert_election in H.
    destruct (negb _); [discriminate|].
    destruct (existsb _ (elections s)); [discriminate|].
    injection H as <-. destruct R as [R1 R2 R3]. split; simpl; try assumption.
    intros cl Hcl. destruct (R1 cl Hcl) as (el & Hel & Hid).
    exists el. split; [|exact Hid]. apply elem_of_app. left. exact Hel.
  - unfold update_election_status in H. injection H as <-.
    apply (references_ok_counters s _
             (fun el => if holds (elections_write j) && bool_decide (e_id el = id)
                        then set_status st el else el)
             (fun cl => cl)); try reflexivity; try assumption.
    + intros el. destruct (holds _ && _); reflexivity.
    + simpl. symmetry. apply list_fmap_id.
    + intros v Hv. left. exact Hv.
  - unfold delete_election in H.
    destruct (holds _ && _); injection H as <-; [|exact R].
    destruct R as [R1 R2 R3]. split; simpl.
    + intros cl [Hne Hcl]%list_elem_of_filter.
      destruct (R1 cl Hcl) as (el & Hel & Hid). exists el.
      split; [|exact Hid]. apply list_elem_of_filter. split; [|exact Hel].
      rewrite Hid. exact Hne.
    + intros v [Hne Hv]%list_elem_of_filter.
      destruct (R2 v Hv) as (cl & Hcl & Hid & He). exists cl.
      split; [|auto]. apply list_elem_of_filter. split; [|exact Hcl].
      rewrite He. exact Hne.
    + intros v [_ Hv]%list_elem_of_filter. apply R3. exact Hv.
  - unfold insert_candidate_list in H.
    destruct (negb _); [discriminate|].
    destruct (existsb _ (candidate_lists s)); [discriminate|].
    destruct (existsb _ (elections s)) eqn:Hex; simpl in H; [|discriminate].
    injection H as <-. destruct R as [R1 R2 R3]. split; simpl; try assumption.
    + intros cl [Hcl|Hcl]%elem_of_app; [apply R1; exact Hcl|].
      apply list_elem_of_singleton in Hcl as ->.
      apply existsb_true in Hex as (el & Hel & Hid).
      apply bool_decide_eq_true in Hid. eauto.
    + intros v Hv. destruct (R2 v Hv) as (cl & Hcl & Hid).
      exists cl. split; [|exact Hid]. apply elem_of_app. left. exact Hcl.
  - unfold delete_candidate_lists in H.
    destruct (holds _); [|injection H as <-; exact R].
    destruct (existsb _ (votes s)) eqn:Hex; [discriminate|].
    injection H as <-. destruct R as [R1 R2 R3]. split; simpl; try assumption.
    + intros cl [_ Hcl]%list_elem_of_filter. apply R1. exact Hcl.
    + intros v Hv. destruct (R2 v Hv) as (cl & Hcl & Hid & He).
      exists cl. split; [|auto]. apply list_elem_of_filter. split; [|exact Hcl].
      intros Hdel. apply existsb_false with (a := v) in Hex; [|exact Hv].
      apply existsb_false with (a := cl) in Hex; [|exact Hcl].
      rewrite !bool_decide_eq_true_2 in Hex by assumption. discriminate.
Qed.

Lemma run_references_ok (cs : list (jwt * request)) (s : db) :
  references_ok s -> references_ok (run s cs).
Proof.
  revert s. induction cs as [|c cs IH]; intros s R; [exact R|].
  apply IH. unfold step. destruct (handle c.1 c.2 s) as [s'|err] eqn:H.
  - eapply handle_references_ok; eassumption.
  - exact R.
Qed.

(** X8: whatever the callers and their requests, every candidate list of the
    database belongs to a stored election, every ballot names a stored list
    of the ballot's own election, and every ballot's voter is a stored
    user. *)
Theorem reachable_references_ok (s : db) : reachable s -> references_ok s.
Proof.
  intros (us & cs & ->). apply run_references_ok.
  split; simpl; intros x Hx; inversion Hx.
Qed.

Lemma reachable_references_ok_witness : references_ok demo_db_voted.
Proof.
  apply reachable_references_ok.
  exists [U1; U2], (demo_setup ++ [(voter U1, CastVote E1 L1 entropy1)]).
  vm_compute. reflexivity.
Defined.

(** ** Resetting an election *)

Lemma filter_filter_ne (e e' : uuid) (vs : list vote) :
  e' <> e ->
  filter (fun v => v_election_id v = e')
    (filter (fun v => v_election_id v <> e) vs)
  = filter (fun v => v_election_id v = e') vs.
Proof.
  intros Hne. induction vs as [|v vs IH]; [reflexivity|].
  rewrite (filter_cons (fun v => v_election_id v <> e)).
  destruct (decide (v_election_id v <> e)) as [Hv|Hv].
  - rewrite !filter_cons, IH. reflexivity.
  - rewrite IH, filter_cons_False; [reflexivity|].
    intros Heq. apply Hv. congruence.
Qed.

Lemma filter_filter_same (e : uuid) (vs : list vote) :
  filter (fun v => v_election_id v <> e)
    (filter (fun v => v_election_id v <> e) vs)
  = filter (fun v => v_election_id v <> e) vs.
Proof.
  induction vs as [|v vs IH]; [reflexivity|].
  rewrite (filter_cons (fun v => v_election_id v <> e)).
  destruct (decide (v_election_id v <> e)) as [Hv|Hv]; [|exact IH].
  rewrite filter_cons_True by exact Hv. rewrite IH. reflexivity.
Qed.

(** Rows with key [k] are as they were when the change spares that key. *)
Lemma filter_key_fmap {A : Type} (key : A -> uuid) (g : A -> A) (k : uuid)
    (l : list A) :
  (forall a, key (g a) = key a) -> (forall a, key a = k -> g a = a) ->
  filter (fun a => key a = k) (g <$> l) = filter (fun a => key a = k) l.
Proof.
  intros Hkey Hg. induction l as [|a l IH]; [reflexivity|].
  rewrite fmap_cons, !filter_cons, Hkey, IH.
  destruct (decide (key a = k)) as [Hk|Hk]; [|reflexivity].
  rewrite (Hg a Hk). reflexivity.
Qed.

(** X9: a reset of election [e] that goes through leaves every other
    election as it was: its ballots, its row, the rows of its lists; no
    election changes status; and a second reset changes nothing more. *)
Theorem reset_leaves_other_elections (j : jwt) (e : uuid) (s s' : db) :
  admin_reset_election_votes j e s = Ok s' ->
  (forall e', e' <> e ->
     ballots_of s' e' = ballots_of s e'
     /\ filter (fun el => e_id el = e') (elections s')
        = filter (fun el => e_id el = e') (elections s)
     /\ filter (fun cl => cl_election_id cl = e') (candidate_lists s')
        = filter (fun cl => cl_election_id cl = e') (candidate_lists s))
  /\ status <$> elections s' = status <$> elections s
  /\ e_id <$> elections s' = e_id <$> elections s
  /\ cl_id <$> candidate_lists s' = cl_id <$> candidate_lists s
  /\ users s' = users s
  /\ admin_reset_election_votes j e s' = Ok s'.
Proof.
  intros H. pose proof H as H0.
  apply admin_reset_election_votes_Ok in H as (Hadm & Hvs & Hcls & Hes & Hus).
  split; [|split; [|split; [|split; [|split]]]].
  - intros e' Hne. unfold ballots_of. rewrite Hvs, Hcls, Hes.
    split; [apply filter_filter_ne; exact Hne|]. split.
    + apply (filter_key_fmap e_id).
      * intros el. case_bool_decide; reflexivity.
      * intros el Hel. rewrite bool_decide_eq_false_2 by congruence. reflexivity.
    + apply (filter_key_fmap cl_election_id).
      * intros cl. case_bool_decide; reflexivity.
      * intros cl Hcl. rewrite bool_decide_eq_false_2 by congruence. reflexivity.
  - rewrite Hes. apply fmap_same. intros el. case_bool_decide; reflexivity.
  - rewrite Hes. apply fmap_same. intros el. case_bool_decide; reflexivity.
  - rewrite Hcls. apply fmap_same. intros cl. case_bool_decide; reflexivity.
  - exact Hus.
  - clear Hvs Hcls Hes Hus. unfold admin_reset_election_votes in H0 |- *.
    rewrite Hadm in H0 |- *. injection H0 as <-. simpl. f_equal. f_equal.
    + rewrite <- list_fmap_compose. apply list_fmap_ext. intros i el _.
      cbn [compose]. destruct (decide (e_id el = e)) as [Hd|Hd].
      * rewrite (bool_decide_eq_true_2 (e_id el = e)) by exact Hd.
        cbn [set_total_votes e_id]. rewrite bool_decide_eq_true_2 by exact Hd.
        reflexivity.
      * rewrite !(bool_decide_eq_false_2 (e_id el = e)) by exact Hd.
        reflexivity.
    + rewrite <- list_fmap_compose. apply list_fmap_ext. intros i cl _.
      cbn [compose]. destruct (decide (cl_election_id cl = e)) as [Hd|Hd].
      * rewrite (bool_decide_eq_true_2 (cl_election_id cl = e)) by exact Hd.
        cbn [set_votes_count cl_election_id].
        rewrite bool_decide_eq_true_2 by exact Hd. reflexivity.
      * rewrite !(bool_decide_eq_false_2 (cl_election_id cl = e)) by exact Hd.
        reflexivity.
    + apply filter_filter_same.
Qed.

Lemma reset_leaves_other_elections_witness :
  exists s',
    admin_reset_election_votes administrator E2 demo_db_voted = Ok s'
    /\ ballots_of s' E1 = ballots_of demo_db_voted E1
    /\ ballots_of s' E1 <> [].
Proof.
  destruct (admin_reset_election_votes administrator E2 demo_db_voted)
    as [s'|err] eqn:H; [|vm_compute in H; discriminate].
  exists s'. split; [reflexivity|].
  destruct (reset_leaves_other_elections administrator E2 demo_db_voted s' H)
    as [Hother _].
  destruct (Hother E1) as [Hb _]; [vm_compute; discriminate|].
  split; [exact Hb|]. rewrite Hb. vm_compute. discriminate.
Defined.

(** X10: whatever the counters were before, after a reset of [e] that goes
    through the total of [e] is zero, equals the sum of the counters of the
    lists of [e], and equals the number of ballots of [e]. *)
Theorem reset_restores_tally (j : jwt) (e : uuid) (s s' : db) (el : election) :
  admin_reset_election_votes j e s = Ok s' ->
  el ∈ elections s' -> e_id el = e ->
  total_votes el = 0%Z
  /\ total_votes el = sum_votes_count s' e
  /\ total_votes el = Z.of_nat (List.length (ballots_of s' e)).
Proof.
  intros H Hel He.
  apply admin_reset_election_votes_Ok in H as (_ & Hvs & Hcls & Hes & _).
  assert (total_votes el = 0%Z) as ->.
  { rewrite Hes in Hel. apply list_elem_of_fmap in Hel as (el0 & -> & _).
    revert He. case_bool_decide as Hc; [reflexivity|]. intros; contradiction. }
  split; [reflexivity|]. split.
  - unfold sum_votes_count. rewrite Hcls. clear.
    induction (candidate_lists s) as [|cl cls IH]; [reflexivity|].
    rewrite fmap_cons, filter_cons. case_bool_decide as Hcl.
    + simpl. rewrite decide_True by exact Hcl.
      rewrite fmap_cons, sum_Z_cons. simpl. exact IH.
    + rewrite decide_False by exact Hcl. exact IH.
  - unfold ballots_of. rewrite Hvs. clear.
    induction (votes s) as [|v vs IH]; [reflexivity|].
    rewrite (filter_cons (fun v => v_election_id v <> e)).
    destruct (decide (v_election_id v <> e)) as [Hv|Hv]; [|exact IH].
    rewrite filter_cons_False by exact Hv. exact IH.
Qed.

Lemma reset_restores_tally_witness :
  let broken :=
    step demo_db_voted
      (administrator, ApplySimulatedDistribution E1 {[L2 := JInt 7]}) in
  total_votes <$> elections broken = [8%Z; 0%Z]
  /\ exists s',
       admin_reset_election_votes administrator E1 broken = Ok s'
       /\ sum_votes_count s' E1 = 0%Z /\ ballots_of s' E1 = [].
Proof.
  intros broken. split; [evaluate|].
  destruct (admin_reset_election_votes administrator E1 broken)
    as [s'|err] eqn:H; [|vm_compute in H; discriminate].
  exists s'. split; [reflexivity|].
  assert (set_total_votes 0 (open_election E1) ∈ elections s') as Hel.
  { vm_compute in H. injection H as <-. apply list_elem_of_here. }
  destruct (reset_restores_tally administrator E1 broken s' _ H Hel eq_refl)
    as (_ & Hsum & Hlen).
  split; [symmetry; exact Hsum|].
  destruct (ballots_of s' E1); [reflexivity | discriminate].
Defined.

(** ** What a simulated distribution must look like, and what it leaves *)

(** X11: a call of [admin_apply_simulation] that goes through was given an
    existing election, and a distribution whose every key reads as the id
    of a list of that election and whose every value is null or an integer
    within [integer]. *)
Theorem simulation_input_checked (j : jwt) (e : uuid) (d : gmap string jvalue)
    (s s' : db) :
  admin_apply_simulation j e d s = Ok s' ->
  (exists el, el ∈ elections s /\ e_id el = e)
  /\ forall k v, d !! k = Some v ->
       (exists cl, cl ∈ candidate_lists s /\ uuid_in k = Some (cl_id cl)
                   /\ cl_election_id cl = e)
       /\ (v = JNull \/ exists z, v = JInt z /\ (int4_min <= z <= int4_max)%Z).
Proof.
  intros H. pose proof H as H0.
  apply admin_apply_simulation_Ok in H as (_ & Hel & Hkeys & _).
  split; [exact Hel|]. intros k v Hkv. split.
  { destruct (Hkeys k v Hkv) as (u & cl & Hu & Hcl & <- & He). eauto. }
  unfold admin_apply_simulation in H0.
  destruct (holds _); [discriminate|]. destruct (negb _); [discriminate|].
  apply bind_Ok in H0 as (t & Hloop & _).
  assert ((k, v) ∈ jsonb_each_text d) as Hrow.
  { apply elem_of_map_to_list. exact Hkv. }
  clear Hkv Hkeys. revert Hloop Hrow. generalize 0%Z.
  induction (jsonb_each_text d) as [|row rows IH]; intros t0 Hloop Hrow;
    [inversion Hrow|].
  cbn [simulation_loop] in Hloop. apply bind_Ok in Hloop as (t1 & Hr & Hloop).
  apply elem_of_cons in Hrow as [<-|Hrow]; [|exact (IH t1 Hloop Hrow)].
  unfold simulation_row in Hr. simpl in Hr.
  destruct (uuid_in k); [|discriminate].
  apply bind_Ok in Hr as (n & Hn & _).
  destruct v as [|z|]; [left; reflexivity| |discriminate].
  right. exists z. split; [reflexivity|]. simpl in Hn.
  destruct (in_int4 z) eqn:Hz; [|discriminate].
  unfold in_int4 in Hz. apply andb_true_iff in Hz as [H1 H2].
  apply Z.leb_le in H1, H2. lia.
Qed.

Lemma simulation_input_checked_witness :
  exists s',
    admin_apply_simulation administrator E1 {[L2 := JInt 7; L1 := JNull]}
      demo_db = Ok s'
    /\ exists cl, cl ∈ candidate_lists demo_db /\ uuid_in L2 = Some (cl_id cl)
                  /\ cl_election_id cl = E1.
Proof.
  destruct (admin_apply_simulation administrator E1
              {[L2 := JInt 7; L1 := JNull]} demo_db) as [s'|err] eqn:H;
    [|vm_compute in H; discriminate].
  exists s'. split; [reflexivity|].
  destruct (simulation_input_checked _ _ _ _ _ H) as [_ Hd].
  destruct (Hd L2 (JInt 7)) as [Hk _]; [|exact Hk].
  apply lookup_insert_eq.
Defined.

(** X12: a simulated distribution for election [e] that goes through adds,
    changes and removes no ballot, changes no status, and leaves the rows of
    every other election and of its lists as they were. *)
Theorem simulation_frame (j : jwt) (e : uuid) (d : gmap string jvalue)
    (s s' : db) :
  admin_apply_simulation j e d s = Ok s' ->
  votes s' = votes s /\ users s' = users s
  /\ status <$> elections s' = status <$> elections s
  /\ forall e', e' <> e ->
       filter (fun el => e_id el = e') (elections s')
       = filter (fun el => e_id el = e') (elections s)
       /\ filter (fun cl => cl_election_id cl = e') (candidate_lists s')
          = filter (fun cl => cl_election_id cl = e') (candidate_lists s).
Proof.
  intros H.
  apply admin_apply_simulation_Ok in H as (_ & _ & _ & Hes & Hcls & Hvs & Hus).
  split; [exact Hvs|]. split; [exact Hus|]. split.
  { rewrite Hes. apply fmap_same. intros el. unfold bump_total.
    case_bool_decide; reflexivity. }
  intros e' Hne. rewrite Hes, Hcls. split.
  - apply (filter_key_fmap e_id).
    + apply e_id_bump_total_row.
    + intros el Hel. unfold bump_total.
      rewrite bool_decide_eq_false_2 by congruence. reflexivity.
  - apply (filter_key_fmap cl_election_id).
    + intros cl. unfold bump_by_distribution. case_bool_decide; reflexivity.
    + intros cl Hcl. unfold bump_by_distribution.
      rewrite bool_decide_eq_false_2 by congruence. reflexivity.
Qed.

Lemma simulation_frame_witness :
  exists s',
    admin_apply_simulation administrator E1 {[L2 := JInt 7]} demo_db_voted
    = Ok s'
    /\ votes s' = votes demo_db_voted.
Proof.
  destruct (admin_apply_simulation administrator E1 {[L2 := JInt 7]}
              demo_db_voted) as [s'|err] eqn:H;
    [|vm_compute in H; discriminate].
  exists s'. split; [reflexivity|].
  apply (simulation_frame _ _ _ _ _ H).
Defined.

(** ** Writes to [elections] and [candidate_lists] by other callers *)

(** X13: for a caller for whom [is_admin()] is not true, also one for whom
    it is NULL, the policies of [elections] and [candidate_lists] turn every
    insert down with a row-security error, and an update or a delete touches
    no row: the database stays as it is. *)
Theorem table_writes_need_admin (j : jwt) (s : db) :
  is_admin j <> Some true ->
  (forall new, insert_election j new s = Err (row_security_violation "elections"))
  /\ (forall new, insert_candidate_list j new s
                  = Err (row_security_violation "candidate_lists"))
  /\ (forall id st, update_election_status j id st s = Ok s)
  /\ (forall id, delete_election j id s = Ok s)
  /\ (forall id, delete_candidate_lists j id s = Ok s).
Proof.
  intros Hadm.
  assert (holds (is_admin j) = false) as Hh.
  { destruct (is_admin j) as [[]|]; [congruence|reflexivity|reflexivity]. }
  split; [|split; [|split; [|split]]].
  - intros new. unfold insert_election, elections_write. rewrite Hh. reflexivity.
  - intros new. unfold insert_candidate_list, candidate_lists_write.
    rewrite Hh. reflexivity.
  - intros id st. unfold update_election_status, elections_write. rewrite Hh.
    simpl. destruct s as [es cls vs us]. unfold with_elections. simpl.
    rewrite list_fmap_id. reflexivity.
  - intros id. unfold delete_election, elections_write. rewrite Hh. reflexivity.
  - intros id. unfold delete_candidate_lists, candidate_lists_write.
    rewrite Hh. reflexivity.
Qed.

Lemma table_writes_need_admin_witness :
  is_admin null_role_user = None
  /\ delete_election null_role_user E1 demo_db_voted = Ok demo_db_voted
  /\ insert_election (voter U1) (open_election E1) demo_db
     = Err (row_security_violation "elections").
Proof.
  split; [reflexivity|]. split.
  - apply (table_writes_need_admin null_role_user demo_db_voted).
    vm_compute. discriminate.
  - apply (table_writes_need_admin (voter U1) demo_db).
    vm_compute. discriminate.
Defined.

(** ** Deleting candidate lists and elections *)

Lemma demo_db_voted_references_ok : references_ok demo_db_voted.
Proof.
  destruct demo_db_voted_reachable as (us & cs & ->).
  apply run_references_ok. split; simpl; intros x Hx; inversion Hx.
Qed.

(** X14: [DELETE FROM candidate_lists WHERE election_id = id], the first
    statement by which [updateElection] replaces the lists of an election.
    In a database whose references hold, an administrator's delete is
    refused by the foreign key of [votes] as soon as the election has one
    ballot, and nothing changes; when the election has no ballot the delete
    goes through and removes the lists of that election and no other row. *)
Theorem delete_candidate_lists_restricted (j : jwt) (id : uuid) (s : db) :
  is_admin j = Some true -> references_ok s ->
  (ballots_of s id <> [] ->
   delete_candidate_lists j id s
   = Err (foreign_key_violation "votes_candidate_list_matches_election")
   /\ step s (j, DeleteCandidateLists id) = s)
  /\ (ballots_of s id = [] ->
      delete_candidate_lists j id s
      = Ok (with_candidate_lists
              (filter (fun cl => cl_election_id cl <> id) (candidate_lists s)) s)).
Proof.
  intros Hadm R. unfold step. cbn [fst snd handle].
  unfold delete_candidate_lists, candidate_lists_write. rewrite Hadm.
  cbn [holds]. split.
  - intros Hb. destruct (ballots_of s id) as [|v vs] eqn:Hf; [contradiction|].
    assert (v ∈ ballots_of s id) as Hv by (rewrite Hf; apply list_elem_of_here).
    apply list_elem_of_filter in Hv as [He Hv].
    destruct (votes_candidate_list_matches_election s R v Hv)
      as (cl & Hcl & Hid & Hce).
    assert (existsb
              (fun v => existsb
                 (fun cl => bool_decide (cl_election_id cl = id)
                            && bool_decide (cl_id cl = candidate_list_id v)
                            && bool_decide (cl_election_id cl = v_election_id v))
                 (candidate_lists s)) (votes s) = true) as ->.
    { apply existsb_true. exists v. split; [exact Hv|].
      apply existsb_true. exists cl. split; [exact Hcl|].
      rewrite !bool_decide_eq_true_2 by congruence. reflexivity. }
    split; reflexivity.
  - intros Hb.
    assert (existsb
              (fun v => existsb
                 (fun cl => bool_decide (cl_election_id cl = id)
                            && bool_decide (cl_id cl = candidate_list_id v)
                            && bool_decide (cl_election_id cl = v_election_id v))
                 (candidate_lists s)) (votes s) = false) as ->; [|reflexivity].
    apply existsb_false. intros v Hv. apply existsb_false. intros cl Hcl.
    destruct (decide (cl_election_id cl = id)) as [H1|H1];
      [|rewrite (bool_decide_eq_false_2 _ H1); reflexivity].
    destruct (decide (cl_election_id cl = v_election_id v)) as [H2|H2];
      [|rewrite (bool_decide_eq_false_2 _ H2); apply andb_false_r].
    exfalso. assert (v ∈ ballots_of s id) as Hin.
    { apply list_elem_of_filter. split; [congruence | exact Hv]. }
    rewrite Hb in Hin. inversion Hin.
Qed.

Lemma delete_candidate_lists_restricted_witness :
  delete_candidate_lists administrator E1 demo_db_voted
  = Err (foreign_key_violation "votes_candidate_list_matches_election")
  /\ candidate_lists (step demo_db_voted (administrator, DeleteCandidateLists E2))
     = [bump_list L1 1 (empty_list L1 E1); empty_list L2 E1].
Proof.
  pose proof demo_db_voted_references_ok as R.
  destruct (delete_candidate_lists_restricted administrator E1 demo_db_voted
              eq_refl R) as [Hfull _].
  destruct (delete_candidate_lists_restricted administrator E2 demo_db_voted
              eq_refl R) as [_ Hnone].
  split.
  - apply Hfull. vm_compute. discriminate.
  - unfold step. cbn [fst snd handle]. rewrite Hnone by reflexivity.
    vm_compute. reflexivity.
Defined.

(** X15: what [updateElection] does to the lists of an election that has a
    ballot, here with one new list.  The delete is refused and the hook only
    logs that; the insert that follows goes through: the old lists stay and
    the new one stands beside them. *)
Theorem lists_of_voted_election_pile_up (j : jwt) (id : uuid)
    (new : candidate_list) (s : db) :
  is_admin j = Some true -> references_ok s ->
  ballots_of s id <> [] ->
  cl_election_id new = id ->
  (forall cl, cl ∈ candidate_lists s -> cl_id cl <> cl_id new) ->
  run s [(j, DeleteCandidateLists id); (j, InsertCandidateList new)]
  = with_candidate_lists (candidate_lists s ++ [new]) s.
Proof.
  intros Hadm R Hb He Hfresh.
  assert (exists v, v ∈ votes s /\ v_election_id v = id) as (v & Hv & Hve).
  { destruct (ballots_of s id) as [|v vs] eqn:Hf; [contradiction|].
    assert (v ∈ ballots_of s id) as Hv by (rewrite Hf; apply list_elem_of_here).
    apply list_elem_of_filter in Hv as [Hve Hv]. eauto. }
  destruct (votes_candidate_list_matches_election s R v Hv)
    as (cl & Hcl & Hid & Hce).
  destruct (candidate_lists_election_id_fkey s R cl Hcl) as (el & Hel & Heid).
  unfold run. cbn [fold_left]. unfold step at 2. cbn [fst snd handle].
  unfold delete_candidate_lists, candidate_lists_write. rewrite Hadm.
  cbn [holds].
  assert (existsb
            (fun v => existsb
               (fun cl => bool_decide (cl_election_id cl = id)
                          && bool_decide (cl_id cl = candidate_list_id v)
                          && bool_decide (cl_election_id cl = v_election_id v))
               (candidate_lists s)) (votes s) = true) as ->.
  { apply existsb_true. exists v. split; [exact Hv|].
    apply existsb_true. exists cl. split; [exact Hcl|].
    rewrite !bool_decide_eq_true_2 by congruence. reflexivity. }
  unfold step. cbn [fst snd handle].
  unfold insert_candidate_list, candidate_lists_write. rewrite Hadm.
  cbn [holds negb].
  assert (existsb (fun cl => bool_decide (cl_id cl = cl_id new))
            (candidate_lists s) = false) as ->.
  { apply existsb_false. intros x Hx. apply bool_decide_eq_false_2.
    apply Hfresh. exact Hx. }
  assert (existsb (fun e => bool_decide (e_id e = cl_election_id new))
            (elections s) = true) as ->; [|reflexivity].
  apply existsb_true. exists el. split; [exact Hel|].
  apply bool_decide_eq_true_2. congruence.
Qed.

Lemma lists_of_voted_election_pile_up_witness :
  cl_id <$> candidate_lists
              (run demo_db_voted
                 [(administrator, DeleteCandidateLists E1);
                  (administrator,
                   InsertCandidateList
                     (empty_list "00000000-0000-0000-0000-0000000000a4" E1))])
  = [L1; L2; L3; "00000000-0000-0000-0000-0000000000a4"].
Proof.
  rewrite (lists_of_voted_election_pile_up administrator E1
             (empty_list "00000000-0000-0000-0000-0000000000a4" E1)
             demo_db_voted).
  - reflexivity.
  - reflexivity.
  - exact demo_db_voted_references_ok.
  - vm_compute. discriminate.
  - reflexivity.
  - intros cl Hcl. vm_compute in Hcl.
    repeat (apply elem_of_cons in Hcl as [->|Hcl]; [vm_compute; discriminate|]).
    inversion Hcl.
Defined.

(** X16: an administrator's delete of a stored election removes the
    election, its lists and its ballots, and leaves every row of every
    other election in place. *)
Theorem delete_election_frame (j : jwt) (id : uuid) (s : db) (el : election) :
  is_admin j = Some true -> el ∈ elections s -> e_id el = id ->
  exists s',
    delete_election j id s = Ok s'
    /\ (forall x, x ∈ elections s' <-> x ∈ elections s /\ e_id x <> id)
    /\ (forall cl, cl ∈ candidate_lists s'
                   <-> cl ∈ candidate_lists s /\ cl_election_id cl <> id)
    /\ (forall v, v ∈ votes s' <-> v ∈ votes s /\ v_election_id v <> id)
    /\ (forall e', e' <> id -> ballots_of s' e' = ballots_of s e')
    /\ users s' = users s.
Proof.
  intros Hadm Hel Hid. unfold delete_election, elections_write.
  rewrite Hadm. cbn [holds andb].
  assert (existsb (fun e => bool_decide (e_id e = id)) (elections s) = true)
    as ->.
  { apply existsb_true. exists el. split; [exact Hel|].
    apply bool_decide_eq_true_2. exact Hid. }
  eexists. split; [reflexivity|]. cbn [elections candidate_lists votes users].
  split; [|split; [|split; [|split]]].
  - intros x. rewrite list_elem_of_filter. tauto.
  - intros x. rewrite list_elem_of_filter. tauto.
  - intros x. rewrite list_elem_of_filter. tauto.
  - intros e' Hne. unfold ballots_of. cbn [votes].
    apply filter_filter_ne. exact Hne.
  - reflexivity.
Qed.

Lemma delete_election_frame_witness :
  exists s',
    delete_election administrator E2 demo_db_voted = Ok s'
    /\ ballots_of s' E1 = ballots_of demo_db_voted E1
    /\ e_id <$> elections s' = [E1].
Proof.
  destruct (delete_election_frame administrator E2 demo_db_voted
              (open_election E2) eq_refl)
    as (s' & H & _ & _ & _ & Hb & _).
  { vm_compute. apply list_elem_of_further, list_elem_of_here. }
  { reflexivity. }
  exists s'. split; [exact H|]. split.
  - apply Hb. vm_compute. discriminate.
  - vm_compute in H. injection H as <-. reflexivity.
Defined.

(** ** The shape of a receipt *)

Lemma to_lower_xdigit (c : ascii) :
  is_xdigit c = true -> is_uuid_digit (to_lower c).
Proof.
  unfold is_uuid_digit.
  destruct c as [[] [] [] [] [] [] [] []]; vm_compute; intros H;
    try discriminate H; repeat split; congruence.
Qed.

Lemma uuid_bytes_shape (n i : nat) (src ds tl : list ascii) :
  uuid_bytes n i src = Some (ds, tl) ->
  List.length ds = (2 * n)%nat /\ Forall is_uuid_digit ds.
Proof.
  revert i src ds tl. induction n as [|n IH]; intros i src ds tl; simpl.
  - intros [= <- <-]. split; [reflexivity | apply Forall_nil_2].
  - destruct src as [|c1 [|c2 rest]]; try discriminate.
    destruct (is_xdigit c1) eqn:H1; [|discriminate].
    destruct (is_xdigit c2) eqn:H2; [|discriminate]. simpl.
    destruct (uuid_bytes n (S i) _) as [[ds' tl']|] eqn:Hrec; [|discriminate].
    intros [= <- <-]. apply IH in Hrec as [Hlen Hall]. split.
    + simpl. rewrite Hlen. lia.
    + apply Forall_cons. split; [apply to_lower_xdigit, H1|].
      apply Forall_cons. split; [apply to_lower_xdigit, H2|].
      exact Hall.
Qed.

Lemma canonical_shape (k : string) :
  canonical k ->
  exists ds, List.length ds = 32%nat /\ Forall is_uuid_digit ds
             /\ k = uuid_out ds.
Proof.
  unfold canonical, uuid_in. intros H.
  destruct (match chars_of_string k with
            | "{"%char :: r => (true, r)
            | _ => (false, chars_of_string k)
            end) as [braces src].
  destruct (uuid_bytes 16 0 src) as [[ds tl]|] eqn:Hb; [|discriminate].
  apply uuid_bytes_shape in Hb as [Hlen Hall].
  destruct (if braces then _ else _) as [[|]|]; try discriminate.
  injection H as H. exists ds. auto.
Qed.

Lemma remove_hyphens_chars (l : list ascii) :
  remove_hyphens (string_of_chars l)
  = string_of_chars (filter (fun c => c <> "-"%char) l).
Proof.
  induction l as [|c l IH]; [reflexivity|]. simpl. rewrite filter_cons.
  case_bool_decide as Hc.
  - rewrite decide_False by (intros Hn; apply Hn; exact Hc). exact IH.
  - rewrite decide_True by exact Hc. simpl. rewrite IH. reflexivity.
Qed.

Lemma filter_all {A : Type} (P : A -> Prop) `{!forall a, Decision (P a)}
    (l : list A) :
  Forall P l -> filter P l = l.
Proof.
  induction 1 as [|a l Ha _ IH]; [reflexivity|].
  rewrite filter_cons_True by exact Ha. rewrite IH. reflexivity.
Qed.

Lemma Forall_of_sublist {A : Type} (P : A -> Prop) (k l : list A) :
  sublist k l -> Forall P l -> Forall P k.
Proof.
  induction 1 as [|x k l _ IH|x k l _ IH]; intros H.
  - exact H.
  - apply Forall_cons in H as [Hx H]. apply Forall_cons. auto.
  - apply Forall_cons in H as [_ H]. auto.
Qed.

Lemma string_of_chars_inj (l k : list ascii) :
  string_of_chars l = string_of_chars k -> l = k.
Proof.
  revert k. induction l as [|a l IH]; intros [|b k]; simpl; try discriminate.
  - reflexivity.
  - intros [= -> H]. f_equal. apply IH. exact H.
Qed.

Lemma string_of_chars_length (l : list ascii) :
  String.length (string_of_chars l) = List.length l.
Proof. induction l as [|a l IH]; [reflexivity|]. simpl. rewrite IH. reflexivity. Qed.

Lemma chars_of_string_of_chars (l : list ascii) :
  chars_of_string (string_of_chars l) = l.
Proof. induction l as [|a l IH]; [reflexivity|]. simpl. rewrite IH. reflexivity. Qed.

(** The digits alone read back as the uuid. *)
Lemma uuid_bytes_digits (n i : nat) (ds : list ascii) :
  Forall is_uuid_digit ds -> List.length ds = (2 * n)%nat ->
  uuid_bytes n i ds = Some (ds, []).
Proof.
  revert i ds. induction n as [|n IH]; intros i ds Hall Hlen.
  - destruct ds; [reflexivity | discriminate].
  - destruct ds as [|c1 [|c2 rest]]; try (simpl in Hlen; lia).
    apply Forall_cons in Hall as [(X1 & L1' & _) Hall].
    apply Forall_cons in Hall as [(X2 & L2' & _) Hall].
    cbn [uuid_bytes]. rewrite X1, X2. cbn [andb].
    assert (match rest with
            | "-"%char :: r => if (Nat.odd i && (i <? 15))%nat then r else rest
            | _ => rest
            end = rest) as ->.
    { destruct rest as [|c3 r]; [reflexivity|].
      apply Forall_cons in Hall as [(_ & _ & H3) _].
      destruct c3 as [[] [] [] [] [] [] [] []]; try reflexivity.
      contradiction. }
    rewrite IH; [rewrite L1', L2'; reflexivity | exact Hall |].
    simpl in Hlen. lia.
Qed.

Lemma make_receipt_uuid_out (ds : list ascii) :
  Forall is_uuid_digit ds ->
  make_receipt (uuid_out ds) = string_of_chars ds.
Proof.
  intros Hall0.
  assert (Forall (fun c => c <> "-"%char) ds) as Hall.
  { eapply Forall_impl; [exact Hall0|]. intros c (_ & _ & Hc). exact Hc. }
  unfold make_receipt, uuid_out.
  rewrite remove_hyphens_chars. f_equal.
  assert (forall l, sublist l ds ->
            filter (fun c => c <> "-"%char) l = l) as Hsub.
  { intros l Hl. apply filter_all. eapply Forall_of_sublist; eassumption. }
  assert (forall n m, sublist (take n (drop m ds)) ds) as Htd.
  { intros n m. etransitivity; [apply sublist_take | apply sublist_drop]. }
  rewrite !filter_app, !filter_cons_False by (intros Hn; apply Hn; reflexivity).
  rewrite !filter_app, !filter_cons_False by (intros Hn; apply Hn; reflexivity).
  rewrite !filter_app, !filter_cons_False by (intros Hn; apply Hn; reflexivity).
  rewrite !filter_app, !filter_cons_False by (intros Hn; apply Hn; reflexivity).
  rewrite (Hsub (take 8 ds)) by apply sublist_take.
  rewrite !Hsub by (apply Htd || apply sublist_drop).
  change (drop 20 ds) with (drop (16 + 4) ds).
  rewrite <- (drop_drop ds 4 16), take_drop.
  change (drop 16 ds) with (drop (12 + 4) ds).
  rewrite <- (drop_drop ds 4 12), take_drop.
  change (drop 12 ds) with (drop (8 + 4) ds).
  rewrite <- (drop_drop ds 4 8), take_drop.
  apply take_drop.
Qed.

(** X17: of a uuid in its output form, [make_receipt] keeps the 32
    hexadecimal digits and nothing else: the receipt has 32 characters, none
    of them a hyphen, and two uuids with the same receipt are the same
    uuid. *)
Theorem make_receipt_of_uuid (g1 g2 : uuid) :
  canonical g1 -> canonical g2 ->
  String.length (make_receipt g1) = 32%nat
  /\ Forall (fun c => c <> "-"%char) (chars_of_string (make_receipt g1))
  /\ uuid_in (make_receipt g1) = Some g1
  /\ (make_receipt g1 = make_receipt g2 -> g1 = g2).
Proof.
  intros (ds1 & Hlen1 & Hall1 & ->)%canonical_shape
         (ds2 & Hlen2 & Hall2 & ->)%canonical_shape.
  rewrite !make_receipt_uuid_out by assumption.
  split; [rewrite string_of_chars_length; exact Hlen1|].
  split.
  { rewrite chars_of_string_of_chars. eapply Forall_impl; [exact Hall1|].
    intros c (_ & _ & Hc). exact Hc. }
  split; [|intros H; apply string_of_chars_inj in H as ->; reflexivity].
  unfold uuid_in. rewrite chars_of_string_of_chars.
  assert (match ds1 with
          | "{"%char :: r => (true, r)
          | _ => (false, ds1)
          end = (false, ds1)) as ->.
  { destruct ds1 as [|c r]; [reflexivity|].
    apply Forall_cons in Hall1 as [(Hx & _ & _) _].
    destruct c as [[] [] [] [] [] [] [] []]; try reflexivity.
    vm_compute in Hx. discriminate. }
  rewrite (uuid_bytes_digits 16 0 ds1 Hall1 Hlen1). reflexivity.
Qed.

Lemma make_receipt_of_uuid_witness :
  make_receipt L1 = "000000000000000000000000000000a1"
  /\ uuid_in (make_receipt L1) = Some L1
  /\ (make_receipt L1 = make_receipt L2 -> L1 = L2).
Proof.
  destruct (make_receipt_of_uuid L1 L2) as (_ & _ & Hback & Hinj);
    [reflexivity | reflexivity |].
  split; [reflexivity|]. split; [exact Hback | exact Hinj].
Defined.

(** ** The voting hook *)

Lemma visible_elections_all (j : jwt) (s : db) :
  auth_role j = "authenticated" \/ is_admin j = Some true ->
  visible_elections j s = elections s.
Proof.
  intros Hvis. unfold visible_elections, elections_select, elections_write.
  assert (holds (sql_or (Some (bool_decide (auth_role j = "authenticated")))
                   (is_admin j)) = true) as ->.
  { destruct Hvis as [Hrole|Hadm].
    - rewrite bool_decide_eq_true_2 by exact Hrole.
      destruct (is_admin j) as [[]|]; reflexivity.
    - rewrite Hadm. case_bool_decide; reflexivity. }
  apply filter_all. apply Forall_forall. intros x _. exact I.
Qed.

Lemma filter_key_unique {A : Type} (key : A -> uuid) (l : list A) (a : A) :
  NoDup (key <$> l) -> a ∈ l ->
  filter (fun x => key x = key a) l = [a].
Proof.
  intros Hnd Ha. induction l as [|x l IH]; [inversion Ha|].
  rewrite fmap_cons in Hnd. apply NoDup_cons in Hnd as [Hx Hnd].
  rewrite filter_cons. apply elem_of_cons in Ha as [<-|Ha].
  - rewrite decide_True by reflexivity. f_equal.
    destruct (filter (fun x => key x = key a) l) as [|y ys] eqn:Hf;
      [reflexivity|].
    assert (y ∈ filter (fun x => key x = key a) l) as Hy
      by (rewrite Hf; apply list_elem_of_here).
    apply list_elem_of_filter in Hy as [Hk Hy]. exfalso. apply Hx.
    rewrite <- Hk. apply list_elem_of_fmap_2. exact Hy.
  - rewrite decide_False; [apply IH; assumption|].
    intros Hk. apply Hx. rewrite Hk. apply list_elem_of_fmap_2. exact Ha.
Qed.

(** X18: for an election id in the spelling in which a uuid is printed, a
    caller who reads [elections] (role 'authenticated', or an administrator)
    and a table whose ids are unique, [checkEligibility] answers true
    exactly when the election is stored with status voting_open; an id that
    names no election gives false.  (The hook is modelled on ids as
    strings; the query compares uuids, which is the same thing for an id in
    that spelling.) *)
Theorem checkEligibility_iff_open (j : jwt) (s : db) (e : uuid) :
  canonical e ->
  NoDup (e_id <$> elections s) ->
  auth_role j = "authenticated" \/ is_admin j = Some true ->
  (checkEligibility j s e = true
   <-> exists el, el ∈ elections s /\ e_id el = e /\ status el = voting_open)
  /\ ((forall el, el ∈ elections s -> e_id el <> e) ->
      checkEligibility j s e = false).
Proof.
  intros _ Hnd Hvis. split; [split|].
  - apply checkEligibility_true.
  - intros (el & Hel & <- & Hst). unfold checkEligibility.
    rewrite (visible_elections_all j s Hvis).
    rewrite (filter_key_unique e_id _ el Hnd Hel). simpl.
    apply bool_decide_eq_true_2. exact Hst.
  - intros Hno. destruct (checkEligibility j s e) eqn:Hce; [|reflexivity].
    apply checkEligibility_true in Hce as (el & Hel & Hid & _).
    exfalso. apply (Hno el Hel Hid).
Qed.

Lemma checkEligibility_iff_open_witness :
  checkEligibility (voter U1) demo_db E1 = true
  /\ checkEligibility (voter U1) demo_db "00000000-0000-0000-0000-0000000000e9"
     = false.
Proof.
  assert (NoDup (e_id <$> elections demo_db)) as Hnd.
  { apply elections_pkey, reachable_keys_unique, demo_db_reachable. }
  destruct (checkEligibility_iff_open (voter U1) demo_db E1 eq_refl Hnd)
    as [Hiff _]; [left; reflexivity|].
  destruct (checkEligibility_iff_open (voter U1) demo_db
              "00000000-0000-0000-0000-0000000000e9" eq_refl Hnd) as [_ Hno];
    [left; reflexivity|].
  split.
  - apply Hiff. exists (open_election E1).
    split; [apply list_elem_of_here|]. split; reflexivity.
  - apply Hno. intros el Hel. simpl in Hel.
    repeat (apply elem_of_cons in Hel as [->|Hel]; [vm_compute; discriminate|]).
    inversion Hel.
Defined.

Lemma filter_filter_and {A : Type} (P Q : A -> Prop)
    `{!forall a, Decision (P a)} `{!forall a, Decision (Q a)} (l : list A) :
  filter P (filter Q l) = filter (fun a => P a /\ Q a) l.
Proof.
  induction l as [|a l IH]; [reflexivity|].
  rewrite (filter_cons Q), (filter_cons (fun a => P a /\ Q a)).
  destruct (decide (Q a)) as [Hq|Hq].
  - rewrite filter_cons. destruct (decide (P a)) as [Hp|Hp].
    + rewrite decide_True by auto. rewrite IH. reflexivity.
    + rewrite decide_False by tauto. exact IH.
  - rewrite decide_False by tauto. exact IH.
Qed.

Lemma filter_ext_in {A : Type} (P Q : A -> Prop)
    `{!forall a, Decision (P a)} `{!forall a, Decision (Q a)} (l : list A) :
  (forall a, a ∈ l -> P a <-> Q a) -> filter P l = filter Q l.
Proof.
  intros Hpq. induction l as [|a l IH]; [reflexivity|].
  rewrite !filter_cons.
  assert (filter P l = filter Q l) as ->.
  { apply IH. intros x Hx. apply Hpq, list_elem_of_further, Hx. }
  pose proof (Hpq a (list_elem_of_here _ _)) as Ha.
  destruct (decide (P a)) as [Hp|Hp], (decide (Q a)) as [Hq|Hq];
    try reflexivity; exfalso; tauto.
Qed.

(** The rows the query of [hasAlreadyVoted] gets for the caller's own id. *)
Lemma own_votes_query (j : jwt) (s : db) (e u : uuid) :
  auth_uid j = Some u ->
  filter (fun v => v_election_id v = e /\ user_id v = u) (visible_votes j s)
  = ballots_of_voter s u e.
Proof.
  intros Hu. unfold visible_votes, ballots_of_voter.
  rewrite filter_filter_and. apply filter_ext_in. intros v _. split.
  - intros [[He Hv] _]. auto.
  - intros [Hv He]. split; [auto|].
    rewrite votes_select_own by congruence. exact I.
Qed.

(** X19: for ids in the spelling in which a uuid is printed and with
    nothing cached for the pair, [hasAlreadyVoted] on the caller's own id
    answers whether the caller holds a ballot in the election, and caches
    the answer.  Asked about another user, a caller who is neither
    administrator nor committee member is always told 'no': the SELECT
    policy hides the other user's ballots.  (The hook is modelled on ids as
    strings; the query compares uuids, which is the same thing for ids in
    that spelling.) *)
Theorem hasAlreadyVoted_sees_own_ballots (cache : gmap string bool) (j : jwt)
    (s : db) (e u other : uuid) :
  canonical e -> canonical u ->
  keys_unique s -> auth_uid j = Some u ->
  (cache !! cacheKey e u = None ->
   hasAlreadyVoted cache j s e u
   = (bool_decide (ballots_of_voter s u e <> []),
      <[cacheKey e u := bool_decide (ballots_of_voter s u e <> [])]> cache))
  /\ (canonical other ->
      cache !! cacheKey e other = None -> other <> u ->
      is_admin j <> Some true -> is_committee j <> Some true ->
      (hasAlreadyVoted cache j s e other).1 = false).
Proof.
  intros _ _ K Hu. split.
  - intros Hmiss. unfold hasAlreadyVoted. rewrite Hmiss.
    rewrite (own_votes_query j s e u Hu).
    assert (List.length (ballots_of_voter s u e) <= 1)%nat as Hlen.
    { rewrite ballots_of_voter_pairs. apply NoDup_fmap_filter_length.
      apply (one_vote_per_user_per_election s K). }
    destruct (ballots_of_voter s u e) as [|v [|w ws]]; simpl in *;
      [reflexivity | reflexivity | lia].
  - intros _ Hmiss Hne Hadm Hcom. unfold hasAlreadyVoted. rewrite Hmiss.
    assert (filter (fun v => v_election_id v = e /\ user_id v = other)
              (visible_votes j s) = []) as ->; [|reflexivity].
    unfold visible_votes. rewrite filter_filter_and.
    induction (votes s) as [|v vs IH]; [reflexivity|].
    rewrite filter_cons_False; [exact IH|].
    intros [[_ Hv] Hsel]. unfold votes_select in Hsel. rewrite Hu in Hsel.
    simpl in Hsel. rewrite bool_decide_eq_false_2 in Hsel by congruence.
    destruct (is_admin j) as [[]|], (is_committee j) as [[]|];
      simpl in Hsel; congruence || exact Hsel.
Qed.

Lemma hasAlreadyVoted_sees_own_ballots_witness :
  hasAlreadyVoted ∅ (voter U1) demo_db_voted E1 U1
  = (true, {[cacheKey E1 U1 := true]})
  /\ (hasAlreadyVoted ∅ (voter U2) demo_db_voted E1 U1).1 = false.
Proof.
  pose proof (reachable_keys_unique demo_db_voted demo_db_voted_reachable) as K.
  destruct (hasAlreadyVoted_sees_own_ballots ∅ (voter U1) demo_db_voted E1 U1 U1
              eq_refl eq_refl K eq_refl) as [Hown _].
  destruct (hasAlreadyVoted_sees_own_ballots ∅ (voter U2) demo_db_voted E1 U2 U1
              eq_refl eq_refl K eq_refl) as [_ Hother].
  split.
  - rewrite Hown by reflexivity. reflexivity.
  - apply Hother; [reflexivity | reflexivity | | |]; vm_compute; discriminate.
Defined.

(** X20: what one call of [castVote] can do, for an election id and a list
    id in the spelling in which a uuid is printed.  Unless it reports
    success the database is as it was and no id is returned.  When it
    reports success exactly one ballot was added, through [cast_vote]: it is
    the ballot of the session's user, whatever [userId] the hook was given,
    for the election and the list named, its id is the one returned, and the
    cached answer for the pair is dropped.  (The hook is modelled on ids as
    strings; the queries and the procedure read them as uuids, which is the
    same thing for ids in that spelling.) *)
Theorem castVote_outcome (cache cache' : gmap string bool) (j : jwt)
    (s s' : db) (e l userId : uuid) (rnd : entropy) (t : toast)
    (r : option uuid) :
  canonical e -> canonical l ->
  castVote cache j s e l userId rnd = (t, r, cache', s') ->
  (t <> toast_success -> s' = s /\ r = None)
  /\ (t = toast_success ->
      exists v, cast_vote j e l rnd s = Ok (v, s')
        /\ r = Some (v_id v)
        /\ auth_uid j = Some (user_id v)
        /\ v_election_id v = e /\ candidate_list_id v = l
        /\ votes s' = votes s ++ [stored_row v (trigger_uuid rnd)]
        /\ cache' !! cacheKey e userId = None).
Proof.
  intros _ _.
  unfold castVote. destruct (checkEligibility j s e); cbn [negb].
  2:{ intros [= <- <- <- <-]. split; [auto | discriminate]. }
  destruct (hasAlreadyVoted cache j s e userId) as [[] c].
  { intros [= <- <- <- <-]. split; [auto | discriminate]. }
  destruct (cast_vote j e l rnd s) as [[v s1]|err] eqn:Hc.
  2:{ case_bool_decide; intros [= <- <- <- <-];
        (split; [auto | discriminate]). }
  intros [= <- <- <- <-]. split; [intros Hn; contradiction|]. intros _.
  exists v. split; [reflexivity|]. split; [reflexivity|].
  apply cast_vote_Ok in Hc as (u & Hu & Hi).
  apply insert_vote_Ok in Hi as (-> & _ & _ & _ & _ & _ & Hvs & _).
  split; [exact Hu|]. split; [reflexivity|]. split; [reflexivity|].
  split; [exact Hvs | apply lookup_delete_eq].
Qed.

Lemma castVote_outcome_witness :
  exists v s',
    cast_vote (voter U2) E1 L2 entropy2 demo_db_voted = Ok (v, s')
    /\ auth_uid (voter U2) = Some (user_id v).
Proof.
  destruct (castVote {[cacheKey E1 U1 := false]} (voter U2) demo_db_voted E1 L2
              U1 entropy2) as [[[t r] cache'] s'] eqn:Hhook.
  destruct (castVote_outcome _ _ _ _ _ E1 L2 _ _ _ _ eq_refl eq_refl Hhook)
    as [_ Hok].
  destruct Hok as (v & Hc & _ & Hu & _).
  { vm_compute in Hhook. congruence. }
  exists v, s'. split; [exact Hc | exact Hu].
Defined.

(** X21: a voter who holds a ballot in the election cannot add another
    through the hook, whatever the cache holds and whatever [userId] is
    passed: the database stays as it was and no id comes back.  When the
    election is open and the list named is stored, the message is 'Ya has
    votado en esta elección', even when the cache wrongly says the voter has
    not voted. *)
Theorem castVote_after_ballot (cache : gmap string bool) (j : jwt) (s : db)
    (u e l userId : uuid) (rnd : entropy) :
  auth_uid j = Some u -> ballots_of_voter s u e <> [] ->
  exists t cache',
    castVote cache j s e l userId rnd = (t, None, cache', s)
    /\ t <> toast_success
    /\ (auth_role j = "authenticated" ->
        checkEligibility j s e = true ->
        (exists cl, cl ∈ candidate_lists s /\ cl_id cl = l) ->
        t = toast_already_voted).
Proof.
  intros Hu Hb. unfold castVote.
  destruct (checkEligibility j s e) eqn:Hce; cbn [negb].
  2:{ exists toast_not_available, cache. split; [reflexivity|].
      split; [discriminate|]. intros _ Hn. discriminate Hn. }
  destruct (hasAlreadyVoted cache j s e userId) as [[] c].
  { exists toast_already_voted, c. split; [reflexivity|].
    split; [discriminate | reflexivity]. }
  rewrite (second_cast j s u e l rnd Hu Hb).
  destruct (votes_insert j s (ballot u e l rnd)) eqn:Hpol.
  - exists toast_already_voted, c. split; [reflexivity|].
    split; [discriminate | reflexivity].
  - exists toast_error, c. split; [reflexivity|]. split; [discriminate|].
    intros Hrole _ (cl & Hcl & Hid). exfalso.
    apply checkEligibility_true in Hce as (el & Hel & Heid & Hst).
    rewrite (votes_insert_intro j s (ballot u e l rnd) el cl) in Hpol;
      try assumption; try reflexivity.
    discriminate Hpol.
Qed.

Lemma castVote_after_ballot_witness :
  exists cache',
    castVote {[cacheKey E1 U1 := false]} (voter U1) demo_db_voted E1 L2 U1
      entropy2
    = (toast_already_voted, None, cache', demo_db_voted).
Proof.
  destruct (castVote_after_ballot {[cacheKey E1 U1 := false]} (voter U1)
              demo_db_voted U1 E1 L2 U1 entropy2 eq_refl)
    as (t & cache' & Hhook & _ & Hmsg).
  { vm_compute. discriminate. }
  exists cache'. rewrite Hhook. rewrite Hmsg.
  - reflexivity.
  - reflexivity.
  - reflexivity.
  - exists (empty_list L2 E1). split; [|reflexivity].
    vm_compute. apply list_elem_of_further, list_elem_of_here.
Defined.

(** ** Roles on the client and in the role-management function *)

Lemma includes_true (x : option string) (l : list (option string)) :
  includes x l = true <-> x ∈ l.
Proof.
  unfold includes. rewrite existsb_true. split.
  - intros (y & Hy & Heq). apply bool_decide_eq_true in Heq as ->. exact Hy.
  - intros Hx. exists x. split; [exact Hx|]. apply bool_decide_eq_true_2.
    reflexivity.
Qed.

Lemma includes_false (x : option string) (l : list (option string)) :
  includes x l = false <-> x ∉ l.
Proof.
  rewrite <- includes_true. destruct (includes x l); split; intros H;
    congruence || (exfalso; apply H; reflexivity) || discriminate.
Qed.

(** X22: the roles the client works with.  [extractUserRoles] never yields
    an empty array; it contains 'administrator' exactly when the database's
    [is_admin()] is true for the same token, and 'electoral_committee'
    exactly when [is_committee()] is; and a user with neither role is shown
    as a student only, whatever other roles the token carries. *)
Theorem extractUserRoles_agrees_with_database (j : jwt) :
  extractUserRoles j <> []
  /\ (includes (Some "administrator") (extractUserRoles j) = true
      <-> is_admin j = Some true)
  /\ (includes (Some "electoral_committee") (extractUserRoles j) = true
      <-> is_committee j = Some true)
  /\ (is_admin j <> Some true -> is_committee j <> Some true ->
      extractUserRoles j = [Some "student"]).
Proof.
  unfold is_admin, is_committee. rewrite !eq_any_true, jwt_roles_app.
  unfold extractUserRoles.
  set (allRoles := (coalesce (app_metadata_roles j) []
                    ++ coalesce (user_metadata_roles j) [])%list).
  rewrite <- !includes_true.
  destruct (includes (Some "administrator") allRoles) eqn:Ha,
           (includes (Some "electoral_committee") allRoles) eqn:Hc;
    cbn [negb andb]; rewrite ?orb_false_r, ?orb_true_r.
  - case_bool_decide as Hlen.
    + destruct allRoles; [discriminate Ha | discriminate Hlen].
    + cbn [orb]. rewrite Ha, Hc.
      split; [intros ->; discriminate Ha|]. repeat split; congruence.
  - case_bool_decide as Hlen.
    + destruct allRoles; [discriminate Ha | discriminate Hlen].
    + cbn [orb]. rewrite Ha, Hc.
      split; [intros ->; discriminate Ha|]. repeat split; congruence.
  - case_bool_decide as Hlen.
    + destruct allRoles; [discriminate Hc | discriminate Hlen].
    + cbn [orb]. rewrite Ha, Hc.
      split; [intros ->; discriminate Hc|]. repeat split; congruence.
  - split; [discriminate|]. repeat split; try discriminate; reflexivity.
Qed.

Lemma extractUserRoles_agrees_with_database_witness :
  extractUserRoles (voter U1) = [Some "student"]
  /\ includes (Some "administrator") (extractUserRoles self_declared_admin)
     = true.
Proof.
  destruct (extractUserRoles_agrees_with_database (voter U1))
    as (_ & _ & _ & Hstudent).
  destruct (extractUserRoles_agrees_with_database self_declared_admin)
    as (_ & Hadm & _).
  split.
  - apply Hstudent; vm_compute; discriminate.
  - apply Hadm. reflexivity.
Defined.

Lemma set_spread_elem (x : option string) (l : list (option string)) :
  x ∈ set_spread l <-> x ∈ l.
Proof.
  induction l as [|y l IH]; [reflexivity|]. cbn [set_spread].
  rewrite !elem_of_cons, list_elem_of_filter, IH.
  destruct (decide (x = y)); tauto.
Qed.

Lemma set_spread_NoDup (l : list (option string)) : NoDup (set_spread l).
Proof.
  induction l as [|y l IH]; [apply NoDup_nil_2|]. cbn [set_spread].
  apply NoDup_cons. split.
  - intros [Hne _]%list_elem_of_filter. apply Hne. reflexivity.
  - apply NoDup_filter. exact IH.
Qed.

Lemma set_spread_id (l : list (option string)) : NoDup l -> set_spread l = l.
Proof.
  induction 1 as [|x l Hx _ IH]; [reflexivity|]. cbn [set_spread].
  rewrite IH. f_equal. apply filter_all. apply Forall_forall.
  intros y Hy ->. contradiction.
Qed.

Lemma filter_none {A : Type} (P : A -> Prop) `{!forall a, Decision (P a)}
    (l : list A) :
  (forall a, a ∈ l -> ~ P a) -> filter P l = [].
Proof.
  induction l as [|a l IH]; intros Hno; [reflexivity|].
  rewrite filter_cons_False by (apply Hno, list_elem_of_here).
  apply IH. intros x Hx. apply Hno, list_elem_of_further, Hx.
Qed.

Lemma set_spread_app (a b : list (option string)) :
  set_spread (a ++ b)
  = set_spread a ++ filter (fun x => x ∉ a) (set_spread b).
Proof.
  induction a as [|x a IH].
  - simpl. symmetry. apply filter_all, Forall_forall.
    intros y _ Hy. inversion Hy.
  - cbn [set_spread app]. f_equal. rewrite IH, filter_app. f_equal.
    rewrite filter_filter_and. apply filter_ext_in. intros y _.
    rewrite not_elem_of_cons. reflexivity.
Qed.

(** X23: the roles the function computes.  'add' yields, without
    duplicates, exactly the roles held before together with the ones
    requested, and adding the same roles again changes nothing.  'remove'
    keeps, in order, exactly the roles held before that were not requested.
    A 'remove' after an 'add' of the same roles leaves the roles held
    before, without their duplicates and without the requested ones; it
    gives back the roles held before exactly when these had no duplicate
    and none of them was among the requested ones.  An action other than
    'set', 'add' and 'remove' yields no role at all. *)
Theorem newRoles_add_remove (currentRoles rs : list (option string)) :
  (NoDup (newRoles "add" currentRoles rs)
   /\ (forall x, x ∈ newRoles "add" currentRoles rs
                 <-> x ∈ currentRoles \/ x ∈ rs)
   /\ newRoles "add" (newRoles "add" currentRoles rs) rs
      = newRoles "add" currentRoles rs)
  /\ ((forall x, x ∈ newRoles "remove" currentRoles rs
                 <-> x ∈ currentRoles /\ x ∉ rs)
      /\ sublist (newRoles "remove" currentRoles rs) currentRoles
      /\ newRoles "remove" (newRoles "add" currentRoles rs) rs
         = newRoles "remove" (set_spread currentRoles) rs
      /\ (newRoles "remove" (newRoles "add" currentRoles rs) rs = currentRoles
          <-> NoDup currentRoles /\ forall x, x ∈ currentRoles -> x ∉ rs))
  /\ (forall action, action <> "set" -> action <> "add" ->
        action <> "remove" -> newRoles action currentRoles rs = []).
Proof.
  assert (forall l, newRoles "add" l rs = set_spread (l ++ rs)) as Hadd
    by reflexivity.
  assert (forall l, newRoles "remove" l rs
                    = filter (fun x => x ∉ rs) l) as Hrem.
  { intros l. change (newRoles "remove" l rs)
      with (filter (fun x => negb (includes x rs)) l).
    apply filter_ext_in. intros x _.
    rewrite <- includes_false. destruct (includes x rs); simpl; split;
      intros H; congruence || exact I || (exfalso; exact H). }
  split; [|split].
  - rewrite !Hadd. split; [apply set_spread_NoDup|]. split.
    + intros x. rewrite set_spread_elem, elem_of_app. reflexivity.
    + rewrite (set_spread_app (set_spread _) rs).
      rewrite (set_spread_id (set_spread _)) by apply set_spread_NoDup.
      rewrite filter_none; [apply app_nil_r|].
      intros x Hx Hn. apply Hn. apply set_spread_elem, elem_of_app. right.
      apply set_spread_elem. exact Hx.
  - assert (filter (fun x => x ∉ rs) (set_spread (currentRoles ++ rs))
            = filter (fun x => x ∉ rs) (set_spread currentRoles)) as Hback.
    { rewrite set_spread_app, filter_app.
      rewrite (filter_none _ (filter _ (set_spread rs))); [apply app_nil_r|].
      intros x [_ Hx]%list_elem_of_filter Hn. apply Hn.
      apply set_spread_elem. exact Hx. }
    rewrite !Hrem, Hadd. split; [|split; [|split]].
    + intros x. rewrite list_elem_of_filter. tauto.
    + apply sublist_filter.
    + exact Hback.
    + rewrite Hback. split.
      * intros Heq. split.
        -- rewrite <- Heq. apply NoDup_filter, set_spread_NoDup.
        -- intros x Hx. rewrite <- Heq in Hx.
           apply list_elem_of_filter in Hx as [Hx _]. exact Hx.
      * intros [Hnd Hdis]. rewrite (set_spread_id _ Hnd).
        apply filter_all, Forall_forall. exact Hdis.
  - intros action H1 H2 H3. unfold newRoles.
    rewrite !bool_decide_eq_false_2 by assumption. reflexivity.
Qed.

Lemma newRoles_add_remove_witness :
  newRoles "purge" [Some "administrator"; Some "student"] [Some "student"] = []
  /\ NoDup (newRoles "add" [Some "student"] [Some "student"; Some "student"])
  /\ newRoles "remove" (newRoles "add" [Some "student"] [Some "student"])
       [Some "student"] = [].
Proof.
  destruct (newRoles_add_remove [Some "administrator"; Some "student"]
              [Some "student"]) as (_ & _ & Hother).
  destruct (newRoles_add_remove [Some "student"]
              [Some "student"; Some "student"]) as ((Hnd & _) & _).
  split; [apply Hother; discriminate|]. split; [exact Hnd | reflexivity].
Defined.

Lemma manage_user_roles_cases (authHeader : option string) (user : option jwt)
    (body : role_body) (directory : gmap string jwt) :
  (exists caller target rs,
     user = Some caller
     /\ is_admin caller = Some true
     /\ roles body = Some rs
     /\ directory !! userId body = Some target
     /\ manage_user_roles authHeader user body directory
        = (roles_updated
             (newRoles (action body) (coalesce (app_metadata_roles target) []) rs),
           <[userId body :=
               set_app_metadata_roles
                 (newRoles (action body)
                    (coalesce (app_metadata_roles target) []) rs) target]>
             directory))
  \/ ((manage_user_roles authHeader user body directory).2 = directory
      /\ forall rs, (manage_user_roles authHeader user body directory).1
                    <> roles_updated rs).
Proof.
  unfold manage_user_roles. case_bool_decide as Hh; [right; split; easy|].
  destruct user as [caller|]; [|right; split; easy].
  destruct (includes (Some "administrator") _) eqn:Hinc; cbn [negb];
    [|right; split; easy].
  destruct (roles body) as [rs|] eqn:Hrs; [|right; split; easy].
  destruct (bool_decide (userId body = "") || bool_decide (action body = ""));
    [right; split; easy|].
  destruct (directory !! userId body) as [target|] eqn:Ht;
    [|right; split; easy].
  left. exists caller, target, rs. repeat split.
  unfold is_admin. apply eq_any_true. rewrite jwt_roles_app.
  apply includes_true. exact Hinc.
Qed.

(** X24: the role-management function.  A response other than the
    successful one leaves every user as it was; a caller for whom the
    database's [is_admin()] is not true gets 403 (once the header and the
    token are accepted) and changes nothing; and a successful call was made
    by such an administrator and rewrites the [app_metadata] roles of the
    target alone: every other user, and the target's id, session role and
    [user_metadata] roles, are as before. *)
Theorem manage_user_roles_effect (authHeader : option string)
    (user : option jwt) (body : role_body) (directory : gmap string jwt) :
  let out := manage_user_roles authHeader user body directory in
  ((forall rs, out.1 <> roles_updated rs) -> out.2 = directory)
  /\ (forall caller h, authHeader = Some h -> h <> "" -> user = Some caller ->
        is_admin caller <> Some true ->
        out = (insufficient_permissions, directory))
  /\ (forall rs, out.1 = roles_updated rs ->
        (exists caller, user = Some caller /\ is_admin caller = Some true)
        /\ (forall id, id <> userId body -> out.2 !! id = directory !! id)
        /\ exists target target',
             directory !! userId body = Some target
             /\ out.2 !! userId body = Some target'
             /\ app_metadata_roles target' = Some rs
             /\ sub target' = sub target /\ role target' = role target
             /\ user_metadata_roles target' = user_metadata_roles target).
Proof.
  intros out. subst out.
  destruct (manage_user_roles_cases authHeader user body directory)
    as [(caller & target & rs & Hu & Hadm & Hrs & Ht & ->)|[Hsame Hno]].
  - cbn [fst snd]. split; [|split].
    + intros Hn. exfalso. exact (Hn _ eq_refl).
    + intros c h _ _ Hc Hnadm. congruence.
    + intros rs' [= <-]. split; [eauto|]. split.
      * intros id Hid. apply lookup_insert_ne. congruence.
      * exists target, (set_app_metadata_roles
                          (newRoles (action body)
                             (coalesce (app_metadata_roles target) []) rs)
                          target).
        split; [exact Ht|]. split; [apply lookup_insert_eq|].
        repeat split.
  - split; [|split].
    + intros _. exact Hsame.
    + intros c h -> Hh -> Hnadm. unfold manage_user_roles.
      cbn [coalesce]. rewrite bool_decide_eq_false_2 by exact Hh.
      assert (includes (Some "administrator")
                (coalesce (app_metadata_roles c) []
                 ++ coalesce (user_metadata_roles c) []) = false) as ->;
        [|reflexivity].
      apply includes_false. intros Hin. apply Hnadm. unfold is_admin.
      apply eq_any_true. rewrite jwt_roles_app. exact Hin.
    + intros rs Hrs. exfalso. exact (Hno rs Hrs).
Qed.

Lemma manage_user_roles_effect_witness :
  manage_user_roles (Some "Bearer token") (Some (voter U1))
    {| userId := U1; roles := Some [Some "administrator"]; action := "add" |}
    {[U1 := voter U1]}
  = (insufficient_permissions, {[U1 := voter U1]}).
Proof.
  apply (manage_user_roles_effect (Some "Bearer token") (Some (voter U1))
           {| userId := U1; roles := Some [Some "administrator"];
              action := "add" |}
           {[U1 := voter U1]})
    with (caller := voter U1) (h := "Bearer token").
  - reflexivity.
  - discriminate.
  - reflexivity.
  - vm_compute. discriminate.
Defined.

(** X25: what the role-management function cannot take away.  The function
    writes [app_metadata] only, while [is_admin()] also reads
    [user_metadata]: a user whose [user_metadata] carries 'administrator'
    is still an administrator for the database after any call, also one that
    removes the role or sets the roles to none. *)
Theorem user_metadata_admin_survives (authHeader : option string)
    (user : option jwt) (body : role_body) (directory : gmap string jwt)
    (id : string) (target : jwt) :
  directory !! id = Some target ->
  Some "administrator" ∈ coalesce (user_metadata_roles target) [] ->
  exists target',
    (manage_user_roles authHeader user body directory).2 !! id = Some target'
    /\ is_admin target' = Some true.
Proof.
  intros Ht Hadm.
  assert (forall t, user_metadata_roles t = user_metadata_roles target ->
                    is_admin t = Some true) as Hstill.
  { intros t Hum. unfold is_admin. apply eq_any_true.
    rewrite jwt_roles_app, Hum, elem_of_app. right. exact Hadm. }
  destruct (manage_user_roles_cases authHeader user body directory)
    as [(caller & tg & rs & _ & _ & _ & Htg & ->)|[-> _]].
  - cbn [snd]. destruct (decide (id = userId body)) as [->|Hne].
    + rewrite lookup_insert_eq. eexists. split; [reflexivity|].
      apply Hstill. simpl. congruence.
    + rewrite lookup_insert_ne by congruence.
      exists target. split; [exact Ht | apply Hstill; reflexivity].
  - exists target. split; [exact Ht | apply Hstill; reflexivity].
Qed.

Lemma user_metadata_admin_survives_witness :
  exists target',
    (manage_user_roles (Some "Bearer token") (Some administrator)
       {| userId := U1; roles := Some [Some "administrator"];
          action := "remove" |}
       {[U1 := self_declared_admin]}).2 !! U1 = Some target'
    /\ is_admin target' = Some true.
Proof.
  apply (user_metadata_admin_survives _ _ _ _ U1 self_declared_admin).
  - reflexivity.
  - vm_compute. apply list_elem_of_here.
Defined.

(** ** The check digit of a RUT *)

Lemma is_digit_facts (c : ascii) :
  is_digit c = true ->
  upper c = c /\ (0 <= digit_value c <= 9)%Z
  /\ c = ascii_of_nat (48 + Z.to_nat (digit_value c)).
Proof.
  destruct c as [[] [] [] [] [] [] [] []]; intros Hd;
    try (vm_compute in Hd; discriminate Hd);
    (split; [reflexivity|]; split; [vm_compute; split; discriminate|];
     reflexivity).
Qed.

Lemma upper_digits (body : list ascii) :
  Forall (fun c => is_digit c = true) body -> upper <$> body = body.
Proof.
  induction 1 as [|c l Hc _ IH]; [reflexivity|].
  rewrite fmap_cons, IH. f_equal. apply is_digit_facts, Hc.
Qed.

Lemma string_of_chars_of_string (s : string) :
  string_of_chars (chars_of_string s) = s.
Proof. induction s as [|a s IH]; [reflexivity|]. simpl. rewrite IH. reflexivity. Qed.

Lemma rut_format_Some (s body : list ascii) (dv : ascii) :
  rut_format s = Some (body, dv)
  <-> s = body ++ ["-"%char; dv]
      /\ Forall (fun c => is_digit c = true) body
      /\ (7 <= List.length body <= 8)%nat
      /\ (is_digit dv = true \/ dv = "K"%char).
Proof.
  unfold rut_format. split.
  - pose proof (take_drop (List.length s - 2) s) as Hs.
    destruct (drop (List.length s - 2) s) as [|h [|d [|? ?]]] eqn:Hdrop;
      try discriminate.
    destruct (bool_decide (h = "-"%char)) eqn:Hh; [|discriminate].
    destruct (forallb is_digit _) eqn:Hall; [|discriminate].
    destruct ((7 <=? _)%nat) eqn:H7; [|discriminate].
    destruct ((_ <=? 8)%nat) eqn:H8; [|discriminate].
    destruct (is_digit d || bool_decide (d = "K"%char)) eqn:Hd; [|discriminate].
    cbn [andb]. intros [= <- <-].
    apply bool_decide_eq_true in Hh as ->.
    split; [symmetry; exact Hs|]. split.
    { apply Forall_forall. intros c Hc.
      apply (proj1 (forallb_forall _ _) Hall), list_elem_of_In, Hc. }
    split; [apply Nat.leb_le in H7, H8; lia|].
    apply orb_true_iff in Hd as [Hd|Hd]; [left; exact Hd|].
    right. apply bool_decide_eq_true in Hd. exact Hd.
  - intros (-> & Hall & Hlen & Hd).
    rewrite length_app. cbn [List.length].
    replace (List.length body + 2 - 2)%nat with (List.length body) by lia.
    rewrite take_app_length, drop_app_length.
    rewrite bool_decide_eq_true_2 by reflexivity.
    assert (forallb is_digit body = true) as ->.
    { apply forallb_forall. intros c Hc.
      apply (proj1 (Forall_forall _ _) Hall), list_elem_of_In, Hc. }
    assert ((7 <=? List.length body)%nat = true) as ->
      by (apply Nat.leb_le; lia).
    assert ((List.length body <=? 8)%nat = true) as ->
      by (apply Nat.leb_le; lia).
    assert (is_digit dv || bool_decide (dv = "K"%char) = true) as ->;
      [|reflexivity].
    destruct Hd as [->| ->]; [reflexivity | apply orb_true_r].
Qed.

Lemma dvCalc_mod (s : Z) : dvCalc s = dvCalc (s mod 11).
Proof. unfold dvCalc. rewrite Z.mod_mod by lia. reflexivity. Qed.

Lemma residue_cases (s : Z) :
  Exists (fun r => (s mod 11 = r)%Z) [0; 1; 2; 3; 4; 5; 6; 7; 8; 9; 10]%Z.
Proof.
  pose proof (Z.mod_pos_bound s 11 eq_refl) as Hb.
  repeat rewrite Exists_cons. rewrite Exists_nil. lia.
Qed.

Lemma dvCalc_shape (s : Z) :
  (is_digit (dvCalc s) = true \/ dvCalc s = "K"%char)
  /\ upper (dvCalc s) = dvCalc s.
Proof.
  rewrite dvCalc_mod. pose proof (residue_cases s) as Hr.
  repeat (apply Exists_cons in Hr as [->|Hr];
          [split; [(left; reflexivity) || (right; reflexivity) | reflexivity]|]).
  inversion Hr.
Qed.

Lemma dvCalc_inj (s1 s2 : Z) :
  dvCalc s1 = dvCalc s2 -> (s1 mod 11 = s2 mod 11)%Z.
Proof.
  rewrite (dvCalc_mod s1), (dvCalc_mod s2).
  pose proof (residue_cases s1) as H1. pose proof (residue_cases s2) as H2.
  repeat (apply Exists_cons in H1 as [->|H1];
          [repeat (apply Exists_cons in H2 as [->|H2];
                   [intros Hd; reflexivity || (vm_compute in Hd; discriminate Hd)|]);
           inversion H2|]).
  inversion H1.
Qed.

(** X26: which strings [validateRUT] accepts.  A string is accepted exactly
    when its upper-case form is seven or eight digits, a hyphen, and the
    check digit computed from the digits: no dots, no spaces, nothing
    before or after. *)
Theorem validateRUT_accepts (rut : string) :
  validateRUT rut = true
  <-> exists body,
        Forall (fun c => is_digit c = true) body
        /\ (7 <= List.length body <= 8)%nat
        /\ toUpperCase rut
           = rut_of body (dvCalc (rut_loop (rev body) 0 2)).
Proof.
  unfold validateRUT. split.
  - case_bool_decide as Hempty; [discriminate|].
    destruct (rut_format _) as [[body dv]|] eqn:Hf; [|discriminate].
    intros Hdv. apply bool_decide_eq_true in Hdv.
    apply rut_format_Some in Hf as (Hs & Hall & Hlen & _).
    exists body. split; [exact Hall|]. split; [exact Hlen|].
    unfold rut_of. rewrite <- Hdv, <- Hs. symmetry.
    apply string_of_chars_of_string.
  - intros (body & Hall & Hlen & Hup).
    rewrite bool_decide_eq_false_2.
    2:{ intros ->. destruct body; discriminate Hup. }
    rewrite Hup. unfold rut_of. rewrite chars_of_string_of_chars.
    rewrite (proj2 (rut_format_Some _ body
                      (dvCalc (rut_loop (rev body) 0 2)))).
    + apply bool_decide_eq_true_2. reflexivity.
    + split; [reflexivity|]. split; [exact Hall|]. split; [exact Hlen|].
      apply dvCalc_shape.
Qed.

Lemma validateRUT_accepts_witness :
  validateRUT "15318772-k" = true /\ validateRUT "12.345.678-5" = false.
Proof.
  split.
  - apply validateRUT_accepts. exists (chars_of_string "15318772").
    split; [repeat constructor|]. split; [simpl; lia | reflexivity].
  - vm_compute. reflexivity.
Defined.

Lemma rut_of_not_empty (body : list ascii) (dv : ascii) : rut_of body dv <> "".
Proof. destruct body; discriminate. Qed.

Lemma toUpperCase_rut_of (body : list ascii) (dv : ascii) :
  Forall (fun c => is_digit c = true) body ->
  chars_of_string (toUpperCase (rut_of body dv)) = body ++ ["-"%char; upper dv].
Proof.
  intros Hall. unfold toUpperCase, rut_of.
  rewrite !chars_of_string_of_chars, fmap_app, (upper_digits body Hall).
  reflexivity.
Qed.

(** A RUT written from a body of digits is accepted exactly when its last
    character, in upper case, is the computed check digit. *)
Lemma validateRUT_rut_of (body : list ascii) (dv : ascii) :
  Forall (fun c => is_digit c = true) body ->
  (7 <= List.length body <= 8)%nat ->
  validateRUT (rut_of body dv) = true
  <-> upper dv = dvCalc (rut_loop (rev body) 0 2).
Proof.
  intros Hall Hlen. unfold validateRUT.
  rewrite bool_decide_eq_false_2 by apply rut_of_not_empty.
  rewrite (toUpperCase_rut_of body dv Hall).
  destruct (rut_format (body ++ ["-"%char; upper dv])) as [[b d]|] eqn:Hf.
  - apply rut_format_Some in Hf as (Hs & _).
    apply app_inj_2 in Hs as [<- [= <-]]; [|reflexivity].
    apply bool_decide_eq_true.
  - split; [discriminate|]. intros Hdv. exfalso.
    assert (rut_format (body ++ ["-"%char; upper dv]) = Some (body, upper dv))
      as Hs; [|congruence].
    apply rut_format_Some. split; [reflexivity|]. split; [exact Hall|].
    split; [exact Hlen|]. rewrite Hdv. apply dvCalc_shape.
Qed.

(** X27: every body of seven or eight digits has exactly one check digit:
    the RUT written with the computed digit is accepted, and any other last
    character is accepted only if it is that digit up to case, so that a
    lower-case 'k' passes where 'K' is due. *)
Theorem rut_check_digit (body : list ascii) :
  Forall (fun c => is_digit c = true) body ->
  (7 <= List.length body <= 8)%nat ->
  let dv := dvCalc (rut_loop (rev body) 0 2) in
  (is_digit dv = true \/ dv = "K"%char)
  /\ validateRUT (rut_of body dv) = true
  /\ (forall d, validateRUT (rut_of body d) = true <-> upper d = dv)
  /\ (dv = "K"%char -> validateRUT (rut_of body "k"%char) = true).
Proof.
  intros Hall Hlen dv. split; [apply dvCalc_shape|]. split; [|split].
  - apply (validateRUT_rut_of body dv Hall Hlen). apply dvCalc_shape.
  - intros d. apply (validateRUT_rut_of body d Hall Hlen).
  - intros HK. apply (validateRUT_rut_of body "k"%char Hall Hlen).
    fold dv. rewrite HK. reflexivity.
Qed.

Lemma rut_check_digit_witness :
  validateRUT "12345678-5" = true
  /\ (forall d, validateRUT (rut_of (chars_of_string "12345678") d) = true
                <-> upper d = "5"%char).
Proof.
  destruct (rut_check_digit (chars_of_string "12345678"))
    as (_ & Hok & Honly & _).
  - repeat constructor.
  - simpl. lia.
  - split; [exact Hok | exact Honly].
Defined.

(** ** Errors the check digit catches *)

Lemma rut_loop_shift (l : list ascii) (s x m : Z) :
  rut_loop l (s + x) m = (rut_loop l s m + x)%Z.
Proof.
  revert s m. induction l as [|c l IH]; intros s m; [reflexivity|].
  cbn [rut_loop].
  replace (s + x + digit_value c * m)%Z with (s + digit_value c * m + x)%Z
    by lia.
  apply IH.
Qed.

(** The sum as a function of the digit at one place, and at two adjacent
    places: a weight between 2 and 7 each, the second weight following the
    first in the cycle. *)
Lemma rut_loop_place (a b : list ascii) (s m : Z) :
  (2 <= m <= 7)%Z ->
  exists w f, (2 <= w <= 7)%Z
    /\ forall c, rut_loop (a ++ c :: b) s m = (digit_value c * w + f)%Z.
Proof.
  revert s m. induction a as [|x a IH]; intros s m Hm.
  - exists m, (rut_loop b s (if bool_decide (m = 7%Z) then 2 else m + 1))%Z.
    split; [exact Hm|]. intros c. cbn [app rut_loop].
    rewrite rut_loop_shift. lia.
  - cbn [app rut_loop]. apply IH. case_bool_decide; lia.
Qed.

Lemma rut_loop_places (a b : list ascii) (s m : Z) :
  (2 <= m <= 7)%Z ->
  exists w w' f, (2 <= w <= 7)%Z /\ (w' = w + 1 \/ w = 7 /\ w' = 2)%Z
    /\ forall c1 c2,
         rut_loop (a ++ c1 :: c2 :: b) s m
         = (digit_value c1 * w + digit_value c2 * w' + f)%Z.
Proof.
  revert s m. induction a as [|x a IH]; intros s m Hm.
  - set (m' := (if bool_decide (m = 7%Z) then 2 else m + 1)%Z).
    set (m'' := (if bool_decide (m' = 7%Z) then 2 else m' + 1)%Z).
    exists m, m', (rut_loop b s m''). split; [exact Hm|].
    split; [subst m'; case_bool_decide; lia|].
    intros c1 c2. cbn [app rut_loop]. fold m'. fold m''.
    rewrite !rut_loop_shift. lia.
  - cbn [app rut_loop]. apply IH. case_bool_decide; lia.
Qed.

Lemma digit_value_inj (c c' : ascii) :
  is_digit c = true -> is_digit c' = true ->
  digit_value c = digit_value c' -> c = c'.
Proof.
  intros (_ & _ & Hc)%is_digit_facts (_ & _ & Hc')%is_digit_facts Heq.
  rewrite Hc, Hc', Heq. reflexivity.
Qed.

Lemma same_residue (x y : Z) :
  (x mod 11 = y mod 11)%Z -> exists k, (x - y = 11 * k)%Z.
Proof.
  intros H. exists (x / 11 - y / 11)%Z.
  pose proof (Z.div_mod x 11). pose proof (Z.div_mod y 11). lia.
Qed.

(** X28: what the check digit is for.  Of an accepted RUT, a copy with one
    digit of the body replaced by another digit is rejected, and so is a
    copy with two different adjacent digits of the body exchanged. *)
Theorem validateRUT_detects_errors (pre post : list ascii) (dv : ascii) :
  (forall c c',
     Forall (fun x => is_digit x = true) (pre ++ c :: post) ->
     (7 <= List.length (pre ++ c :: post) <= 8)%nat ->
     is_digit c' = true -> c' <> c ->
     validateRUT (rut_of (pre ++ c :: post) dv) = true ->
     validateRUT (rut_of (pre ++ c' :: post) dv) = false)
  /\ (forall c1 c2,
        Forall (fun x => is_digit x = true) (pre ++ c1 :: c2 :: post) ->
        (7 <= List.length (pre ++ c1 :: c2 :: post) <= 8)%nat ->
        c1 <> c2 ->
        validateRUT (rut_of (pre ++ c1 :: c2 :: post) dv) = true ->
        validateRUT (rut_of (pre ++ c2 :: c1 :: post) dv) = false).
Proof.
  split.
  - intros c c' Hall Hlen Hc' Hne Hok.
    assert (Forall (fun x => is_digit x = true) (pre ++ c' :: post)) as Hall'.
    { apply Forall_app in Hall as [Hpre Hpost].
      apply Forall_cons in Hpost as [_ Hpost].
      apply Forall_app. split; [exact Hpre|]. apply Forall_cons. auto. }
    assert (is_digit c = true) as Hc.
    { apply Forall_app in Hall as [_ Hpost].
      apply Forall_cons in Hpost as [Hc _]. exact Hc. }
    assert (7 <= List.length (pre ++ c' :: post) <= 8)%nat as Hlen'.
    { rewrite length_app in Hlen |- *. exact Hlen. }
    apply (validateRUT_rut_of _ dv Hall Hlen) in Hok.
    destruct (validateRUT (rut_of (pre ++ c' :: post) dv)) eqn:Hv;
      [|reflexivity].
    apply (validateRUT_rut_of _ dv Hall' Hlen') in Hv. exfalso.
    rewrite Hok in Hv. apply dvCalc_inj, same_residue in Hv as [k Hk].
    rewrite !rev_app_distr in Hk. cbn [rev] in Hk.
    rewrite <- !app_assoc in Hk. cbn [app] in Hk.
    destruct (rut_loop_place (rev post) (rev pre) 0 2) as (w & f & Hw & Hsum);
      [lia|].
    rewrite !Hsum in Hk.
    destruct (is_digit_facts c Hc) as (_ & Hr & _).
    destruct (is_digit_facts c' Hc') as (_ & Hr' & _).
    assert (digit_value c' <> digit_value c) as Hd.
    { intros Heq. apply Hne. apply digit_value_inj; assumption. }
    assert (w = 2 \/ w = 3 \/ w = 4 \/ w = 5 \/ w = 6 \/ w = 7)%Z
      as [->|[->|[->|[->|[->| ->]]]]] by lia; lia.
  - intros c1 c2 Hall Hlen Hne Hok.
    assert (is_digit c1 = true /\ is_digit c2 = true) as [H1 H2].
    { apply Forall_app in Hall as [_ Hpost].
      apply Forall_cons in Hpost as [H1 Hpost].
      apply Forall_cons in Hpost as [H2 _]. auto. }
    assert (Forall (fun x => is_digit x = true) (pre ++ c2 :: c1 :: post))
      as Hall'.
    { apply Forall_app in Hall as [Hpre Hpost].
      apply Forall_cons in Hpost as [_ Hpost].
      apply Forall_cons in Hpost as [_ Hpost].
      apply Forall_app. split; [exact Hpre|].
      apply Forall_cons. split; [exact H2|]. apply Forall_cons. auto. }
    assert (7 <= List.length (pre ++ c2 :: c1 :: post) <= 8)%nat as Hlen'.
    { rewrite length_app in Hlen |- *. exact Hlen. }
    apply (validateRUT_rut_of _ dv Hall Hlen) in Hok.
    destruct (validateRUT (rut_of (pre ++ c2 :: c1 :: post) dv)) eqn:Hv;
      [|reflexivity].
    apply (validateRUT_rut_of _ dv Hall' Hlen') in Hv. exfalso.
    rewrite Hok in Hv. apply dvCalc_inj, same_residue in Hv as [k Hk].
    rewrite !rev_app_distr in Hk. cbn [rev] in Hk.
    rewrite <- !app_assoc in Hk. cbn [app] in Hk.
    destruct (rut_loop_places (rev post) (rev pre) 0 2)
      as (w & w' & f & Hw & Hw' & Hsum); [lia|].
    rewrite !Hsum in Hk.
    destruct (is_digit_facts c1 H1) as (_ & Hr1 & _).
    destruct (is_digit_facts c2 H2) as (_ & Hr2 & _).
    assert (digit_value c1 <> digit_value c2) as Hd.
    { intros Heq. apply Hne. apply digit_value_inj; assumption. }
    destruct Hw' as [->|[-> ->]]; [|lia].
    assert (w = 2 \/ w = 3 \/ w = 4 \/ w = 5 \/ w = 6 \/ w = 7)%Z
      as [->|[->|[->|[->|[->| ->]]]]] by lia; lia.
Qed.

Lemma validateRUT_detects_errors_witness :
  validateRUT "12345678-5" = true
  /\ validateRUT "12345679-5" = false
  /\ validateRUT "12345687-5" = false.
Proof.
  assert (validateRUT "12345678-5" = true) as Hok by (vm_compute; reflexivity).
  split; [exact Hok|]. split.
  - apply (proj1 (validateRUT_detects_errors (chars_of_string "1234567") []
                    "5"%char) "8"%char "9"%char).
    + repeat constructor.
    + simpl. lia.
    + reflexivity.
    + discriminate.
    + exact Hok.
  - apply (proj2 (validateRUT_detects_errors (chars_of_string "123456") []
                    "5"%char) "7"%char "8"%char).
    + repeat constructor.
    + simpl. lia.
    + discriminate.
    + exact Hok.
Defined.

(** ** Without the simulator the counters count ballots *)

Lemma filter_filter_implies {A : Type} (P Q : A -> Prop)
    `{!forall a, Decision (P a)} `{!forall a, Decision (Q a)} (l : list A) :
  (forall a, a ∈ l -> P a -> Q a) -> filter P (filter Q l) = filter P l.
Proof.
  intros Himp. rewrite filter_filter_and. apply filter_ext_in.
  intros a Ha. split; [tauto|]. intros Hp. split; [exact Hp|]. auto.
Qed.

Lemma length_filter_nil {A : Type} (P : A -> Prop)
    `{!forall a, Decision (P a)} (l : list A) :
  (forall a, a ∈ l -> ~ P a) -> Z.of_nat (List.length (filter P l)) = 0%Z.
Proof. intros Hno. rewrite filter_none by exact Hno. reflexivity. Qed.

(** The list a ballot names is the only list with that id, and it belongs
    to the ballot's election. *)
Lemma ballot_list_election (s : db) (v : vote) (cl : candidate_list) :
  keys_unique s -> references_ok s ->
  v ∈ votes s -> cl ∈ candidate_lists s -> candidate_list_id v = cl_id cl ->
  v_election_id v = cl_election_id cl.
Proof.
  intros K R Hv Hcl Hid.
  destruct (votes_candidate_list_matches_election s R v Hv)
    as (cl' & Hcl' & Hid' & He').
  rewrite (NoDup_fmap_eq cl_id _ cl cl' (candidate_lists_pkey s K) Hcl Hcl')
    by congruence.
  symmetry. exact He'.
Qed.

Lemma ballot_election_stored (s : db) (v : vote) :
  references_ok s -> v ∈ votes s ->
  exists el, el ∈ elections s /\ e_id el = v_election_id v.
Proof.
  intros R Hv.
  destruct (votes_candidate_list_matches_election s R v Hv)
    as (cl & Hcl & _ & He).
  destruct (candidate_lists_election_id_fkey s R cl Hcl) as (el & Hel & Hid).
  exists el. split; [exact Hel | congruence].
Qed.

Lemma insert_vote_lists_counted (j : jwt) (ret : bool) (new v : vote)
    (g : uuid) (s s' : db) :
  lists_counted s -> insert_vote j ret new g s = Ok (v, s') ->
  lists_counted s'.
Proof.
  intros L H.
  apply insert_vote_Ok in H as (_ & _ & _ & _ & _ & _ & Hvs & _ & Hcls & _).
  destruct (stored_row_keys new g) as (_ & _ & _ & Kl).
  intros cl' Hcl'. rewrite Hcls in Hcl'.
  apply list_elem_of_fmap in Hcl' as (cl & -> & Hcl).
  unfold ballots_for. rewrite Hvs, filter_app, length_app, Nat2Z.inj_add.
  assert (cl_id (bump_list (candidate_list_id new) 1 cl) = cl_id cl) as ->.
  { unfold bump_list. case_bool_decide; reflexivity. }
  fold (ballots_for s (cl_id cl)). rewrite <- (L cl Hcl).
  rewrite filter_cons, filter_nil, Kl. unfold bump_list.
  destruct (decide (candidate_list_id new = cl_id cl)) as [Heq|Hne].
  - rewrite bool_decide_eq_true_2 by congruence. reflexivity.
  - rewrite bool_decide_eq_false_2 by congruence. simpl. lia.
Qed.


Lemma sum_Z_zero (cls : list candidate_list) :
  (forall cl, cl ∈ cls -> votes_count cl = 0%Z) ->
  sum_Z (votes_count <$> cls) = 0%Z.
Proof.
  induction cls as [|cl cls IH]; intros Hz; [reflexivity|].
  rewrite fmap_cons, sum_Z_cons, (Hz cl) by apply list_elem_of_here.
  rewrite IH; [reflexivity|]. intros x Hx. apply Hz, list_elem_of_further, Hx.
Qed.

Lemma reset_counted (j : jwt) (e : uuid) (s s' : db) :
  counted s -> admin_reset_election_votes j e s = Ok s' ->
  ballots_counted s' /\ lists_counted s' /\ tally_consistent s'.
Proof.
  intros [K R B L T] H.
  apply admin_reset_election_votes_Ok in H as (_ & Hvs & Hcls & Hes & _).
  split; [|split].
  - intros el' Hel'. rewrite Hes in Hel'.
    apply list_elem_of_fmap in Hel' as (el & -> & Hel).
    unfold ballots_of. rewrite Hvs. case_bool_decide as He.
    + simpl. rewrite He. symmetry. apply length_filter_nil.
      intros v [Hne _]%list_elem_of_filter Heq. contradiction.
    + rewrite filter_filter_ne by exact He. apply B, Hel.
  - intros cl' Hcl'. rewrite Hcls in Hcl'.
    apply list_elem_of_fmap in Hcl' as (cl & -> & Hcl).
    unfold ballots_for. rewrite Hvs. case_bool_decide as He.
    + simpl. symmetry. apply length_filter_nil.
      intros v [Hne Hv]%list_elem_of_filter Hid. apply Hne.
      rewrite (ballot_list_election s v cl K R Hv Hcl Hid). exact He.
    + rewrite filter_filter_implies; [apply L, Hcl|].
      intros v Hv Hid.
      rewrite (ballot_list_election s v cl K R Hv Hcl Hid). exact He.
  - intros el' Hel'. rewrite Hes in Hel'.
    apply list_elem_of_fmap in Hel' as (el & -> & Hel).
    unfold sum_votes_count. rewrite Hcls. case_bool_decide as He.
    + simpl. symmetry. apply sum_Z_zero.
      intros cl [Hce Hcl]%list_elem_of_filter.
      apply list_elem_of_fmap in Hcl as (cl0 & -> & _).
      revert Hce. case_bool_decide as Hc; [reflexivity|].
      intros Hce. congruence.
    + rewrite (filter_key_fmap cl_election_id).
      * apply T, Hel.
      * intros cl. case_bool_decide; reflexivity.
      * intros cl Hcl. rewrite bool_decide_eq_false_2 by congruence.
        reflexivity.
Qed.

Lemma delete_election_counted (j : jwt) (id : uuid) (s s' : db) :
  counted s -> delete_election j id s = Ok s' ->
  ballots_counted s' /\ lists_counted s' /\ tally_consistent s'.
Proof.
  intros [K R B L T] H. unfold delete_election in H.
  destruct (holds _ && _); injection H as <-; [|auto].
  split; [|split].
  - intros el [Hne Hel]%list_elem_of_filter. unfold ballots_of. cbn [votes].
    rewrite filter_filter_ne by exact Hne. apply B, Hel.
  - intros cl [Hne Hcl]%list_elem_of_filter. unfold ballots_for. cbn [votes].
    rewrite filter_filter_implies; [apply L, Hcl|].
    intros v Hv Hid.
    rewrite (ballot_list_election s v cl K R Hv Hcl Hid). exact Hne.
  - intros el [Hne Hel]%list_elem_of_filter. unfold sum_votes_count.
    cbn [candidate_lists].
    rewrite filter_filter_implies; [apply T, Hel|].
    intros cl _ Hce. congruence.
Qed.

Lemma insert_election_counted (j : jwt) (new : election) (s s' : db) :
  counted s -> total_votes new = 0%Z -> insert_election j new s = Ok s' ->
  ballots_counted s' /\ lists_counted s' /\ tally_consistent s'.
Proof.
  intros [K R B L T] Hzero H. unfold insert_election in H.
  destruct (negb _); [discriminate|].
  destruct (existsb _ (elections s)) eqn:Hex; [discriminate|].
  injection H as <-.
  assert (forall el, el ∈ elections s -> e_id el <> e_id new) as Hfresh.
  { intros el Hel. apply existsb_false with (a := el) in Hex; [|exact Hel].
    apply bool_decide_eq_false in Hex. exact Hex. }
  split; [|split; [exact L|]].
  - intros el [Hel|Hel]%elem_of_app; [apply B, Hel|].
    apply list_elem_of_singleton in Hel as ->. rewrite Hzero.
    symmetry. apply length_filter_nil. intros v Hv He.
    destruct (ballot_election_stored s v R Hv) as (el & Hel & Hid).
    apply (Hfresh el Hel). congruence.
  - intros el [Hel|Hel]%elem_of_app; [apply T, Hel|].
    apply list_elem_of_singleton in Hel as ->. rewrite Hzero.
    unfold sum_votes_count. cbn [candidate_lists].
    rewrite filter_none; [reflexivity|]. intros cl Hcl Hce.
    destruct (candidate_lists_election_id_fkey s R cl Hcl) as (el & Hel & Hid).
    apply (Hfresh el Hel). congruence.
Qed.

Lemma update_election_status_counted (j : jwt) (id : uuid)
    (st : election_status) (s s' : db) :
  counted s -> update_election_status j id st s = Ok s' ->
  ballots_counted s' /\ lists_counted s' /\ tally_consistent s'.
Proof.
  intros [K R B L T] H. unfold update_election_status in H.
  injection H as <-. split; [|split; [exact L|]].
  - intros el' Hel'. cbn [elections with_elections] in Hel'.
    apply list_elem_of_fmap in Hel' as (el & -> & Hel).
    destruct (holds _ && _); apply (B el Hel).
  - intros el' Hel'. cbn [elections with_elections] in Hel'.
    apply list_elem_of_fmap in Hel' as (el & -> & Hel).
    destruct (holds _ && _); apply (T el Hel).
Qed.

Lemma insert_candidate_list_counted (j : jwt) (new : candidate_list)
    (s s' : db) :
  counted s -> votes_count new = 0%Z -> insert_candidate_list j new s = Ok s' ->
  ballots_counted s' /\ lists_counted s' /\ tally_consistent s'.
Proof.
  intros [K R B L T] Hzero H. unfold insert_candidate_list in H.
  destruct (negb _); [discriminate|].
  destruct (existsb _ (candidate_lists s)) eqn:Hex; [discriminate|].
  destruct (negb _); [discriminate|].
  injection H as <-.
  assert (forall cl, cl ∈ candidate_lists s -> cl_id cl <> cl_id new) as Hfresh.
  { intros cl Hcl. apply existsb_false with (a := cl) in Hex; [|exact Hcl].
    apply bool_decide_eq_false in Hex. exact Hex. }
  split; [exact B|]. split.
  - intros cl [Hcl|Hcl]%elem_of_app; [apply L, Hcl|].
    apply list_elem_of_singleton in Hcl as ->. rewrite Hzero.
    symmetry. apply length_filter_nil. intros v Hv Hid.
    destruct (votes_candidate_list_matches_election s R v Hv)
      as (cl & Hcl & Hcid & _).
    apply (Hfresh cl Hcl). congruence.
  - intros el Hel. unfold sum_votes_count. cbn [candidate_lists with_candidate_lists].
    rewrite filter_app, fmap_app, sum_Z_app.
    fold (sum_votes_count s (e_id el)). rewrite <- (T el Hel).
    rewrite filter_cons, filter_nil.
    destruct (decide (cl_election_id new = e_id el)); simpl; [|lia].
    rewrite Hzero. unfold sum_Z. simpl. lia.
Qed.

Lemma delete_candidate_lists_counted (j : jwt) (id : uuid) (s s' : db) :
  counted s -> delete_candidate_lists j id s = Ok s' ->
  ballots_counted s' /\ lists_counted s' /\ tally_consistent s'.
Proof.
  intros [K R B L T] H. unfold delete_candidate_lists in H.
  destruct (holds _); [|injection H as <-; auto].
  destruct (existsb _ (votes s)) eqn:Hex; [discriminate|].
  injection H as <-. split; [exact B|]. split.
  - intros cl [_ Hcl]%list_elem_of_filter. apply L, Hcl.
  - intros el Hel. unfold sum_votes_count.
    cbn [candidate_lists with_candidate_lists].
    destruct (decide (e_id el = id)) as [Heq|Hne].
    + rewrite filter_none.
      2:{ intros cl [Hn _]%list_elem_of_filter Hce. congruence. }
      rewrite (B el Hel). apply length_filter_nil. intros v Hv He.
      destruct (votes_candidate_list_matches_election s R v Hv)
        as (cl & Hcl & Hcid & Hce).
      apply existsb_false with (a := v) in Hex; [|exact Hv].
      apply existsb_false with (a := cl) in Hex; [|exact Hcl].
      rewrite !bool_decide_eq_true_2 in Hex by congruence. discriminate Hex.
    + rewrite filter_filter_implies; [apply T, Hel|].
      intros cl _ Hce. congruence.
Qed.

Lemma handle_counted (j : jwt) (r : request) (s s' : db) :
  counted s -> counts_from_zero r -> handle j r s = Ok s' -> counted s'.
Proof.
  intros C Hr H.
  pose proof (handle_keys_unique j r s s' (counted_keys s C) H) as K'.
  pose proof (handle_references_ok j r s s' (counted_references s C) H) as R'.
  assert (ballots_counted s' /\ lists_counted s' /\ tally_consistent s')
    as (B' & L' & T'); [|split; assumption].
  destruct r as [e l rnd|new g|c f|c|e d|e|new|id st|id|new|id];
    simpl in H, Hr.
  - apply fmap_Ok in H as ([v s1] & H & ->).
    apply cast_vote_Ok in H as (u & _ & H). destruct C as [K R B L T].
    cbn [snd].
    split; [exact (insert_vote_ballots_counted _ _ _ _ _ _ _ B H)|].
    split; [exact (insert_vote_lists_counted _ _ _ _ _ _ _ L H)|].
    exact (insert_vote_tally _ _ _ _ _ _ _ K T H).
  - apply fmap_Ok in H as ([v s1] & H & ->). destruct C as [K R B L T].
    cbn [snd].
    split; [exact (insert_vote_ballots_counted _ _ _ _ _ _ _ B H)|].
    split; [exact (insert_vote_lists_counted _ _ _ _ _ _ _ L H)|].
    exact (insert_vote_tally _ _ _ _ _ _ _ K T H).
  - apply update_votes_Ok in H as ->. destruct C; auto.
  - apply delete_votes_Ok in H as ->. destruct C; auto.
  - contradiction.
  - eapply reset_counted; eassumption.
  - eapply insert_election_counted; eassumption.
  - eapply update_election_status_counted; eassumption.
  - eapply delete_election_counted; eassumption.
  - eapply insert_candidate_list_counted; eassumption.
  - eapply delete_candidate_lists_counted; eassumption.
Qed.

Lemma run_counted (cs : list (jwt * request)) (s : db) :
  counted s -> Forall (fun c => counts_from_zero c.2) cs -> counted (run s cs).
Proof.
  revert s. induction cs as [|c cs IH]; intros s C Hcs; [exact C|].
  apply Forall_cons in Hcs as [Hc Hcs]. simpl. apply IH; [|exact Hcs].
  unfold step. destruct (handle c.1 c.2 s) as [s'|err] eqn:H; [|exact C].
  eapply handle_counted; eassumption.
Qed.

(** X29: as long as no simulated distribution is applied and every inserted
    election and list starts with a counter of zero, the counters are exact
    whatever else the callers do, resets and deletions included: the total
    of every election is the number of its ballots and the sum of the
    counters of its lists, and the counter of every list is the number of
    ballots cast for it. *)
Theorem counters_count_ballots (us : list uuid) (cs : list (jwt * request)) :
  Forall (fun c => counts_from_zero c.2) cs ->
  ballots_counted (run (empty_db us) cs)
  /\ lists_counted (run (empty_db us) cs)
  /\ tally_consistent (run (empty_db us) cs).
Proof.
  intros Hcs.
  assert (counted (empty_db us)) as C0.
  { split.
    - split; simpl; apply NoDup_nil_2.
    - split; simpl; intros x Hx; inversion Hx.
    - intros x Hx. inversion Hx.
    - intros x Hx. inversion Hx.
    - intros x Hx. inversion Hx. }
  destruct (run_counted cs (empty_db us) C0 Hcs) as [_ _ B L T]. auto.
Qed.

Lemma counters_count_ballots_witness :
  lists_counted
    (run (empty_db [U1; U2])
       (demo_setup ++ [(voter U1, CastVote E1 L1 entropy1);
                       (administrator, ResetElectionVotes E1);
                       (voter U1, CastVote E1 L2 entropy2)])).
Proof.
  apply counters_count_ballots.
  unfold demo_setup. repeat (apply Forall_cons; split; [simpl; auto|]).
  apply Forall_nil_2.
Defined.

(** ** Taking a simulated distribution back *)

Lemma sum_Z_opp {A : Type} (f : A -> Z) (l : list A) :
  sum_Z ((fun a => (- f a)%Z) <$> l) = (- sum_Z (f <$> l))%Z.
Proof.
  induction l as [|a l IH]; [reflexivity|].
  rewrite !fmap_cons, !sum_Z_cons, IH. lia.
Qed.

Lemma count_of_negate (v : option jvalue) :
  count_of (negate <$> v) = (- count_of v)%Z.
Proof. destruct v as [[|z|]|]; reflexivity. Qed.

Lemma sum_counts_negate (d : gmap string jvalue) :
  sum_counts (negate <$> d) = (- sum_counts d)%Z.
Proof.
  unfold sum_counts, jsonb_each_text.
  rewrite map_to_list_fmap.
  rewrite <- list_fmap_compose, <- sum_Z_opp. f_equal.
  apply list_fmap_ext. intros i [k v] _. simpl.
  apply (count_of_negate (Some v)).
Qed.

Lemma bump_total_back (e : uuid) (n : Z) (el : election) :
  bump_total e (- n) (bump_total e n el) = el.
Proof.
  destruct el as [id st tv]. unfold bump_total. cbn [e_id].
  destruct (decide (id = e)) as [He|He].
  - rewrite (bool_decide_eq_true_2 _ He). cbn [set_total_votes e_id].
    rewrite (bool_decide_eq_true_2 _ He). unfold set_total_votes. simpl.
    f_equal. lia.
  - rewrite (bool_decide_eq_false_2 _ He). cbn [e_id].
    rewrite (bool_decide_eq_false_2 _ He). reflexivity.
Qed.

Lemma bump_by_distribution_back (e : uuid) (d : gmap string jvalue)
    (cl : candidate_list) :
  bump_by_distribution e (negate <$> d) (bump_by_distribution e d cl) = cl.
Proof.
  destruct cl as [id el vc]. unfold bump_by_distribution. cbn [cl_election_id].
  destruct (decide (el = e)) as [He|He].
  - rewrite (bool_decide_eq_true_2 _ He). cbn [set_votes_count cl_election_id].
    rewrite (bool_decide_eq_true_2 _ He). unfold set_votes_count. simpl.
    rewrite lookup_fmap, count_of_negate. f_equal. lia.
  - rewrite (bool_decide_eq_false_2 _ He). cbn [cl_election_id].
    rewrite (bool_decide_eq_false_2 _ He). reflexivity.
Qed.

(** X30: a simulated distribution is taken back by its negation: when both
    calls go through, the database is again what it was before the first. *)
Theorem simulation_taken_back (j : jwt) (e : uuid) (d : gmap string jvalue)
    (s s1 s2 : db) :
  admin_apply_simulation j e d s = Ok s1 ->
  admin_apply_simulation j e (negate <$> d) s1 = Ok s2 ->
  s2 = s.
Proof.
  intros H1 H2.
  apply admin_apply_simulation_Ok in H1
    as (_ & _ & _ & Hes1 & Hcls1 & Hvs1 & Hus1).
  apply admin_apply_simulation_Ok in H2
    as (_ & _ & _ & Hes2 & Hcls2 & Hvs2 & Hus2).
  rewrite Hes1 in Hes2. rewrite Hcls1 in Hcls2.
  rewrite Hvs1 in Hvs2. rewrite Hus1 in Hus2.
  destruct s as [es cls vs us], s2 as [es2 cls2 vs2 us2]. simpl in *.
  subst vs2 us2. f_equal.
  - rewrite Hes2, <- list_fmap_compose. rewrite <- (list_fmap_id es) at 2.
    apply list_fmap_ext. intros i el _. cbn [compose].
    rewrite sum_counts_negate. apply bump_total_back.
  - rewrite Hcls2, <- list_fmap_compose. rewrite <- (list_fmap_id cls) at 2.
    apply list_fmap_ext. intros i cl _. apply bump_by_distribution_back.
Qed.

Lemma simulation_taken_back_witness :
  run demo_db_voted
    [(administrator, ApplySimulatedDistribution E1 {[L2 := JInt 7]});
     (administrator,
      ApplySimulatedDistribution E1 (negate <$> {[L2 := JInt 7]}))]
  = demo_db_voted.
Proof.
  destruct (admin_apply_simulation administrator E1 {[L2 := JInt 7]}
              demo_db_voted) as [s1|err] eqn:H1;
    [|vm_compute in H1; discriminate H1].
  destruct (admin_apply_simulation administrator E1
              (negate <$> {[L2 := JInt 7]}) s1) as [s2|err] eqn:H2.
  - unfold run. cbn [fold_left]. unfold step. cbn [fst snd handle].
    rewrite H1, H2.
    exact (simulation_taken_back _ _ _ _ _ _ H1 H2).
  - exfalso. vm_compute in H1. injection H1 as <-.
    vm_compute in H2. discriminate H2.
Defined.
